(** * znote: notes, tasks and ideas with a guest store and a synced account

    A shallow embedding of the server controllers (notes, tasks, ideas, auth),
    the JWT middleware and the client-side zustand stores, followed by the
    properties stated about them. *)

From stdpp Require Import gmap strings stringmap list sorting pretty.
From Stdlib Require Import ZArith Ascii.

#[local] Set Warnings "-register-all".

Local Open Scope string_scope.
Local Open Scope Z_scope.

(** ** JavaScript values

    Request bodies, query strings and the records held by the client stores
    are untyped JavaScript data.  Numbers are integers here: no handler does
    arithmetic on them. *)
Module JS.

Inductive value : Type :=
| VUndefined
| VNull
| VBool (b : bool)
| VNum (n : Z)
| VStr (s : string)
| VArr (items : list value)
| VObj (fields : list (string * value)).

(** An object is its list of own properties in insertion order; every key
    occurs once ([set] keeps that). *)
Abbreviation obj := (list (string * value)).

(** [ToBoolean]. *)
Definition truthy (v : value) : bool :=
  match v with
  | VUndefined | VNull => false
  | VBool b => b
  | VNum n => negb (n =? 0)
  | VStr s => negb (String.eqb s "")
  | VArr _ | VObj _ => true
  end.

(** [a || b]. *)
Definition or (a b : value) : value := if truthy a then a else b.

Fixpoint assoc (k : string) (fs : obj) : value :=
  match fs with
  | [] => VUndefined
  | (k', v) :: fs' => if String.eqb k k' then v else assoc k fs'
  end.

(** [v.k] on a value that is not null or undefined (those throw, see
    [prop]); a missing property reads as undefined. *)
Definition get (k : string) (v : value) : value :=
  match v with
  | VObj fs => assoc k fs
  | _ => VUndefined
  end.

(** [v.k], with the TypeError of a null or undefined receiver as [None]. *)
Definition prop (k : string) (v : value) : option value :=
  match v with
  | VUndefined | VNull => None
  | _ => Some (get k v)
  end.

(** [o[k] = v]: overwrite in place, or append a new property. *)
Fixpoint set (k : string) (v : value) (fs : obj) : obj :=
  match fs with
  | [] => [(k, v)]
  | (k', v') :: fs' =>
      if String.eqb k k' then (k, v) :: fs' else (k', v') :: set k v fs'
  end.

(** The own enumerable properties of a value: those of an object, the
    indexed elements of an array or string, none for the other primitives. *)
Definition own_fields (v : value) : obj :=
  match v with
  | VObj fs => fs
  | VArr items => imap (λ i x, (pretty i, x)) items
  | VStr s => imap (λ i c, (pretty i, VStr (String c ""))) (String.list_ascii_of_string s)
  | _ => []
  end.

(** In an object literal, [{ ...fs, ...src }]. *)
Definition spread (src : value) (fs : obj) : obj :=
  foldl (λ acc kv, set kv.1 kv.2 acc) fs (own_fields src).

(** [({ k, ...rest }) => rest]; destructuring null or undefined throws. *)
Definition rest_without (k : string) (v : value) : option value :=
  match v with
  | VUndefined | VNull => None
  | _ => Some (VObj (filter (λ kv, negb (String.eqb k kv.1) = true) (own_fields v)))
  end.

(** [v === s] for a string [s]. *)
Definition is_string (s : string) (v : value) : bool :=
  match v with VStr s' => String.eqb s' s | _ => false end.

(** [v.length > 0] for an array, a string, or an object that has a number
    under [length] (the page passes arrays; a [length] of another type is
    taken as not above 0). *)
Definition nonempty (v : value) : bool :=
  match v with
  | VArr (_ :: _) => true
  | VStr s => negb (String.eqb s "")
  | VObj fs => match assoc "length" fs with VNum n => 0 <? n | _ => false end
  | _ => false
  end.

Definition isArray (v : value) : bool :=
  match v with VArr _ => true | _ => false end.

(** [typeof v === 'string'], with the string. *)
Definition typeof_string (v : value) : option string :=
  match v with VStr s => Some s | _ => None end.

(** The elements of an array (nothing for any other value). *)
Definition elements (v : value) : list value :=
  match v with VArr items => items | _ => [] end.

(** [JSON.parse(JSON.stringify(v))]: properties holding undefined are
    dropped, undefined array slots become null. *)
Fixpoint jsonify (v : value) : value :=
  match v with
  | VArr items =>
      VArr (map (λ x, match x with VUndefined => VNull | _ => jsonify x end) items)
  | VObj fields =>
      VObj (omap (λ '(k, x), match x with
                             | VUndefined => None
                             | _ => Some (k, jsonify x)
                             end) fields)
  | _ => v
  end.

End JS.
Import JS.

(** ** Responses

    A handler answers [res.status(s).json(body)].  Error bodies are
    [{ error }]; a success body is represented by its data (the constant
    [message] strings of the success bodies are left out). *)
Inductive response (A : Type) : Type :=
| Reply (status : nat) (payload : A)
| Fail (status : nat) (error : string).
Arguments Reply {A} status payload.
Arguments Fail {A} status error.

(** [try { body } catch (error) { res.status(500).json({ error: msg }) }]:
    a body that throws is [None]. *)
Definition try_catch {A S} (msg : string) (fallback : S)
    (body : option (response A * S)) : response A * S :=
  match body with
  | Some r => r
  | None => (Fail 500 msg, fallback)
  end.

(** ** The database layer (Prisma client over PostgreSQL)

    A table is a finite map from the primary key [id] to the row.  The
    operations below are the client calls the controllers make. *)
Module Prisma.

(** A property of a [data] or [where] argument holds a JavaScript value or
    a [Date] object (its time value in milliseconds, [None] for an invalid
    date). *)
Inductive datum : Type :=
| Js (v : value)
| Date (time : option Z).

Abbreviation data := (list (string * datum)).

Fixpoint field (k : string) (d : data) : datum :=
  match d with
  | [] => Js VUndefined
  | (k', v) :: d' => if String.eqb k k' then v else field k d'
  end.

(** Scalars, as the client validates them against the column type before
    any query is sent ([None]: a validation error is thrown). *)
Definition String_ (v : datum) : option string :=
  match v with Js (VStr s) => Some s | _ => None end.

Definition Boolean_ (v : datum) : option bool :=
  match v with Js (VBool b) => Some b | _ => None end.

Definition DateTime_ (v : datum) : option Z :=
  match v with Date (Some t) => Some t | _ => None end.

(** A nullable column accepts null. *)
Definition nullable {A} (ty : datum → option A) (v : datum) : option (option A) :=
  match v with
  | Js VNull => Some None
  | _ => Some <$> ty v
  end.

(** The primary key of a [data] object: left to the database when the
    object has no [id] property. *)
Definition key_of_data (d : data) : option (option string) :=
  match field "id" d with
  | Js VUndefined => Some None
  | Js (VStr k) => Some (Some k)
  | _ => None
  end.

(** A [String[]] column. *)
Definition StringList_ (v : datum) : option (list string) :=
  match v with
  | Js (VArr items) => mapM (λ x, String_ (Js x)) items
  | _ => None
  end.

(** The [data] of an [update]: a property that is present replaces the
    column. *)
Definition column {A} (ty : datum → option A) (k : string) (d : data) (old : A)
    : option A :=
  match field k d with
  | Js VUndefined => Some old
  | v => ty v
  end.

Section table.
Context {R : Type}.

(** [findFirst({ where: { id, ...conds } })]. *)
Definition findFirst (id : string) (conds : R → bool) (t : gmap string R) : option R :=
  match t !! id with
  | Some r => if conds r then Some r else None
  | None => None
  end.

(** One [orderBy] entry compares two rows; a list of entries compares
    lexicographically. *)
Definition asc {K} (cmp : K → K → comparison) (key : R → K) : R → R → comparison :=
  λ a b, cmp (key a) (key b).
Definition desc {K} (cmp : K → K → comparison) (key : R → K) : R → R → comparison :=
  λ a b, cmp (key b) (key a).

Fixpoint orderBy (entries : list (R → R → comparison)) (a b : R) : comparison :=
  match entries with
  | [] => Eq
  | e :: entries' =>
      match e a b with
      | Eq => orderBy entries' a b
      | c => c
      end
  end.

Definition comes_first (entries : list (R → R → comparison)) : relation R :=
  λ a b, orderBy entries a b ≠ Gt.

#[export] Instance comes_first_dec entries a b : Decision (comes_first entries a b).
Proof. unfold comes_first. solve_decision. Defined.

(** [findMany({ where, orderBy })]. *)
Definition findMany (where_ : R → bool) (entries : list (R → R → comparison))
    (t : gmap string R) : list R :=
  merge_sort (comes_first entries)
    (filter (λ r, where_ r = true) (map_to_list t).*2).

(** The database assigns the primary key of a new row. *)
Definition new_id (t : gmap string R) : string := fresh_string "id" t.

(** [create({ data })], the row given as a function of its new key. *)
Definition create (row : string → R) (t : gmap string R) : R * gmap string R :=
  let r := row (new_id t) in (r, <[new_id t := r]> t).

(** [createMany({ data, skipDuplicates: true })]: a row that names a key
    already taken is skipped, every other row is inserted; the result is
    the number of rows inserted. *)
Fixpoint createMany (rows : list (option string * (string → R)))
    (t : gmap string R) : nat * gmap string R :=
  match rows with
  | [] => (0%nat, t)
  | (key, row) :: rows' =>
      match key with
      | Some k =>
          match t !! k with
          | Some _ => createMany rows' t
          | None =>
              let '(n, t') := createMany rows' (<[k := row k]> t) in (S n, t')
          end
      | None =>
          let '(n, t') := createMany rows' (create row t).2 in (S n, t')
      end
  end.

(** [update({ where: { id }, data })]; throws when no row has the key. *)
Definition update (id : string) (change : R → option R) (t : gmap string R)
    : option (R * gmap string R) :=
  r ← t !! id;
  r' ← change r;
  Some (r', <[id := r']> t).

(** [delete({ where: { id } })]; throws when no row has the key. *)
Definition delete_ (id : string) (t : gmap string R) : option (gmap string R) :=
  match t !! id with
  | Some _ => Some (delete id t)
  | None => None
  end.
End table.

(** Column orders of PostgreSQL: false before true, and null after every
    value in ascending order. *)
Definition cmp_bool (a b : bool) : comparison :=
  match a, b with
  | false, true => Lt
  | true, false => Gt
  | _, _ => Eq
  end.

Definition cmp_nullable {K} (cmp : K → K → comparison) (a b : option K) : comparison :=
  match a, b with
  | Some x, Some y => cmp x y
  | Some _, None => Lt
  | None, Some _ => Gt
  | None, None => Eq
  end.

End Prisma.

(** In the object literal of a [data] argument,
    [...(v !== undefined && { k: v' })]. *)
Definition provided (k : string) (v : value) (v' : Prisma.datum)
    (d : Prisma.data) : Prisma.data :=
  match v with
  | VUndefined => d
  | _ => d ++ [(k, v')]
  end.

(** ** server/controllers/notesController.js *)
Module NotesController.

(** Modelled from the spec: the [Note] model of prisma/schema.prisma, which
    is not among the sources: title and content are required strings, color
    a string, the pinned flag a boolean, every note has an owner and a
    creation time.  Only the columns the controllers read or write are kept. *)
Record Note : Type := {
  note_id : string;
  note_title : string;
  note_content : string;
  note_color : string;
  note_isPinned : bool;
  note_userId : string;
  note_createdAt : Z
}.

(** The [data] object of [create] and [createMany], validated. *)
Definition note_of_data (data : Prisma.data) (now : Z) : option (string → Note) :=
  title ← Prisma.String_ (Prisma.field "title" data);
  content ← Prisma.String_ (Prisma.field "content" data);
  color ← Prisma.String_ (Prisma.field "color" data);
  isPinned ← Prisma.Boolean_ (Prisma.field "isPinned" data);
  userId ← Prisma.String_ (Prisma.field "userId" data);
  Some (λ id, {| note_id := id; note_title := title; note_content := content;
                 note_color := color; note_isPinned := isPinned;
                 note_userId := userId; note_createdAt := now |}).

Definition note_change (data : Prisma.data) (n : Note) : option Note :=
  title ← Prisma.column Prisma.String_ "title" data (note_title n);
  content ← Prisma.column Prisma.String_ "content" data (note_content n);
  color ← Prisma.column Prisma.String_ "color" data (note_color n);
  isPinned ← Prisma.column Prisma.Boolean_ "isPinned" data (note_isPinned n);
  Some {| note_id := note_id n; note_title := title; note_content := content;
          note_color := color; note_isPinned := isPinned;
          note_userId := note_userId n; note_createdAt := note_createdAt n |}.

Abbreviation notes_table := (gmap string Note).

Definition owned_by (uid : string) (n : Note) : bool := String.eqb (note_userId n) uid.

Definition getNotes (userId : string) (db : notes_table)
    : response (list Note) * notes_table :=
  try_catch "Failed to fetch notes" db
    (let notes := Prisma.findMany (owned_by userId)
                    [Prisma.desc Prisma.cmp_bool note_isPinned;
                     Prisma.desc Z.compare note_createdAt] db in
     Some (Reply 200 notes, db)).

Definition getNoteById (userId id : string) (db : notes_table)
    : response Note * notes_table :=
  try_catch "Failed to fetch note" db
    (match Prisma.findFirst id (owned_by userId) db with
     | None => Some (Fail 404 "Note not found", db)
     | Some note => Some (Reply 200 note, db)
     end).

Definition createNote (userId : string) (body : value) (now : Z) (db : notes_table)
    : response Note * notes_table :=
  try_catch "Failed to create note" db
    (let title := get "title" body in
     let content := get "content" body in
     let color := get "color" body in
     let isPinned := get "isPinned" body in
     if negb (truthy title) || negb (truthy content) then
       Some (Fail 400 "Title and content are required", db)
     else
       row ← note_of_data [("title", Prisma.Js title); ("content", Prisma.Js content);
                           ("color", Prisma.Js (or color (VStr "#ffffff")));
                           ("isPinned", Prisma.Js (or isPinned (VBool false)));
                           ("userId", Prisma.Js (VStr userId))] now;
       let '(note, db') := Prisma.create row db in
       Some (Reply 201 note, db')).

Definition updateNote (userId id : string) (body : value) (db : notes_table)
    : response Note * notes_table :=
  try_catch "Failed to update note" db
    (let title := get "title" body in
     let content := get "content" body in
     let color := get "color" body in
     let isPinned := get "isPinned" body in
     match Prisma.findFirst id (owned_by userId) db with
     | None => Some (Fail 404 "Note not found", db)
     | Some existingNote =>
         '(note, db') ← Prisma.update id
            (note_change (provided "isPinned" isPinned (Prisma.Js isPinned)
                         (provided "color" color (Prisma.Js color)
                         (provided "content" content (Prisma.Js content)
                         (provided "title" title (Prisma.Js title) []))))) db;
         Some (Reply 200 note, db')
     end).

Definition deleteNote (userId id : string) (db : notes_table)
    : response unit * notes_table :=
  try_catch "Failed to delete note" db
    (match Prisma.findFirst id (owned_by userId) db with
     | None => Some (Fail 404 "Note not found", db)
     | Some existingNote =>
         db' ← Prisma.delete_ id db;
         Some (Reply 200 (), db')
     end).

Definition bulkCreateNotes (userId : string) (body : value) (now : Z) (db : notes_table)
    : response nat * notes_table :=
  try_catch "Failed to sync notes" db
    (let notes := get "notes" body in
     if negb (isArray notes) || (length (elements notes) =? 0)%nat then
       Some (Fail 400 "Notes array is required", db)
     else
       notesWithUserId ← mapM (λ note,
           title ← prop "title" note;
           content ← prop "content" note;
           color ← prop "color" note;
           isPinned ← prop "isPinned" note;
           Some [("title", Prisma.Js title); ("content", Prisma.Js content);
                 ("color", Prisma.Js (or color (VStr "#ffffff")));
                 ("isPinned", Prisma.Js (or isPinned (VBool false)));
                 ("userId", Prisma.Js (VStr userId))]) (elements notes);
       rows ← mapM (λ data, key ← Prisma.key_of_data data;
                            row ← note_of_data data now;
                            Some (key, row)) notesWithUserId;
       let '(count, db') := Prisma.createMany rows db in
       Some (Reply 201 count, db')).

End NotesController.

(** ** The platform

    Library calls whose results the handlers only pass along: the [Date]
    constructor, bcryptjs and jsonwebtoken, and what the database client
    makes of a filter object. *)
Inductive jwt_result : Type :=
| Decoded (userId email : string)
| JsonWebTokenError
| TokenExpiredError
| OtherError.

Class Platform : Type := {
  (** [new Date(v)] as milliseconds since the epoch; [None] is an invalid
      date, which the database client refuses. *)
  new_Date : value → option Z;
  (** [bcrypt.hash(password, 10)], with the salt it draws. *)
  bcrypt_hash : string → string → string;
  (** [bcrypt.compare(password, hash)]. *)
  bcrypt_compare : string → string → bool;
  (** [jwt.sign({ userId, email }, JWT_SECRET, { expiresIn: '7d' })] at a
      time, and [jwt.verify(token, JWT_SECRET)] at a time. *)
  jwt_sign : string → string → Z → string;
  jwt_verify : string → Z → jwt_result;
  (** [Date.prototype.toISOString], which is also the JSON form of a date. *)
  toISOString : Z → string;
  (** An object as the [where] entry of a String column
      ([{ contains: 'x' }], [{ not: 'y' }], [{ in: [...] }], ...): the test
      on the column that the database client reads it as, [None] when the
      client refuses the object. *)
  StringFilter : obj → option (string → bool)
}.

(** ** server/controllers/tasksController.js *)
Module TasksController.

Inductive Priority : Type := low | medium | high.

(** Modelled from the spec: the [Task] model of prisma/schema.prisma, which
    is not among the sources: a required title, an optional description, a
    completed flag, a priority among low, medium and high, an optional due
    date, an owner and a creation time. *)
Record Task : Type := {
  task_id : string;
  task_title : string;
  task_description : option string;
  task_completed : bool;
  task_priority : Priority;
  task_dueDate : option Z;
  task_userId : string;
  task_createdAt : Z
}.

Definition Priority_ (v : Prisma.datum) : option Priority :=
  match v with
  | Prisma.Js (VStr "low") => Some low
  | Prisma.Js (VStr "medium") => Some medium
  | Prisma.Js (VStr "high") => Some high
  | _ => None
  end.

Definition task_of_data (data : Prisma.data) (now : Z) : option (string → Task) :=
  title ← Prisma.String_ (Prisma.field "title" data);
  description ← Prisma.nullable Prisma.String_ (Prisma.field "description" data);
  completed ← Prisma.Boolean_ (Prisma.field "completed" data);
  priority ← Priority_ (Prisma.field "priority" data);
  dueDate ← Prisma.nullable Prisma.DateTime_ (Prisma.field "dueDate" data);
  userId ← Prisma.String_ (Prisma.field "userId" data);
  Some (λ id, {| task_id := id; task_title := title;
                 task_description := description; task_completed := completed;
                 task_priority := priority; task_dueDate := dueDate;
                 task_userId := userId; task_createdAt := now |}).

Definition task_change (data : Prisma.data) (t : Task) : option Task :=
  title ← Prisma.column Prisma.String_ "title" data (task_title t);
  description ← Prisma.column (Prisma.nullable Prisma.String_)
                   "description" data (task_description t);
  completed ← Prisma.column Prisma.Boolean_ "completed" data (task_completed t);
  priority ← Prisma.column Priority_ "priority" data (task_priority t);
  dueDate ← Prisma.column (Prisma.nullable Prisma.DateTime_)
               "dueDate" data (task_dueDate t);
  Some {| task_id := task_id t; task_title := title;
          task_description := description; task_completed := completed;
          task_priority := priority; task_dueDate := dueDate;
          task_userId := task_userId t; task_createdAt := task_createdAt t |}.

Abbreviation tasks_table := (gmap string Task).

Definition owned_by (uid : string) (t : Task) : bool := String.eqb (task_userId t) uid.

Definition getTasks (userId : string) (db : tasks_table)
    : response (list Task) * tasks_table :=
  try_catch "Failed to fetch tasks" db
    (let tasks := Prisma.findMany (owned_by userId)
                    [Prisma.asc Prisma.cmp_bool task_completed;
                     Prisma.asc (Prisma.cmp_nullable Z.compare) task_dueDate;
                     Prisma.desc Z.compare task_createdAt] db in
     Some (Reply 200 tasks, db)).

Definition getTaskById (userId id : string) (db : tasks_table)
    : response Task * tasks_table :=
  try_catch "Failed to fetch task" db
    (match Prisma.findFirst id (owned_by userId) db with
     | None => Some (Fail 404 "Task not found", db)
     | Some task => Some (Reply 200 task, db)
     end).

Definition createTask `{Platform} (userId : string) (body : value) (now : Z)
    (db : tasks_table) : response Task * tasks_table :=
  try_catch "Failed to create task" db
    (let title := get "title" body in
     let description := get "description" body in
     let completed := get "completed" body in
     let priority := get "priority" body in
     let dueDate := get "dueDate" body in
     if negb (truthy title) then
       Some (Fail 400 "Title is required", db)
     else
       row ← task_of_data
                [("title", Prisma.Js title);
                 ("description", Prisma.Js (or description VNull));
                 ("completed", Prisma.Js (or completed (VBool false)));
                 ("priority", Prisma.Js (or priority (VStr "medium")));
                 ("dueDate", if truthy dueDate then Prisma.Date (new_Date dueDate)
                            else Prisma.Js VNull);
                 ("userId", Prisma.Js (VStr userId))] now;
       let '(task, db') := Prisma.create row db in
       Some (Reply 201 task, db')).

Definition updateTask `{Platform} (userId id : string) (body : value)
    (db : tasks_table) : response Task * tasks_table :=
  try_catch "Failed to update task" db
    (let title := get "title" body in
     let description := get "description" body in
     let completed := get "completed" body in
     let priority := get "priority" body in
     let dueDate := get "dueDate" body in
     match Prisma.findFirst id (owned_by userId) db with
     | None => Some (Fail 404 "Task not found", db)
     | Some existingTask =>
         '(task, db') ← Prisma.update id
            (task_change
               (provided "dueDate" dueDate
                  (if truthy dueDate then Prisma.Date (new_Date dueDate) else Prisma.Js VNull)
               (provided "priority" priority (Prisma.Js priority)
               (provided "completed" completed (Prisma.Js completed)
               (provided "description" description (Prisma.Js description)
               (provided "title" title (Prisma.Js title) [])))))) db;
         Some (Reply 200 task, db')
     end).

Definition deleteTask (userId id : string) (db : tasks_table)
    : response unit * tasks_table :=
  try_catch "Failed to delete task" db
    (match Prisma.findFirst id (owned_by userId) db with
     | None => Some (Fail 404 "Task not found", db)
     | Some existingTask =>
         db' ← Prisma.delete_ id db;
         Some (Reply 200 (), db')
     end).

Definition bulkCreateTasks `{Platform} (userId : string) (body : value) (now : Z)
    (db : tasks_table) : response nat * tasks_table :=
  try_catch "Failed to sync tasks" db
    (let tasks := get "tasks" body in
     if negb (isArray tasks) || (length (elements tasks) =? 0)%nat then
       Some (Fail 400 "Tasks array is required", db)
     else
       tasksWithUserId ← mapM (λ task,
           title ← prop "title" task;
           description ← prop "description" task;
           completed ← prop "completed" task;
           priority ← prop "priority" task;
           dueDate ← prop "dueDate" task;
           Some [("title", Prisma.Js title);
                 ("description", Prisma.Js (or description VNull));
                 ("completed", Prisma.Js (or completed (VBool false)));
                 ("priority", Prisma.Js (or priority (VStr "medium")));
                 ("dueDate", if truthy dueDate then Prisma.Date (new_Date dueDate)
                            else Prisma.Js VNull);
                 ("userId", Prisma.Js (VStr userId))]) (elements tasks);
       rows ← mapM (λ data, key ← Prisma.key_of_data data;
                            row ← task_of_data data now;
                            Some (key, row)) tasksWithUserId;
       let '(count, db') := Prisma.createMany rows db in
       Some (Reply 201 count, db')).

End TasksController.

(** ** Text matching

    Case folding is that of the ASCII letters.  On the database's side,
    [contains] with [mode: 'insensitive'] is PostgreSQL's [ILIKE] against
    the value between two [%], and [has] on a string list is membership. *)
Module Text.

Definition lower_ascii (c : Ascii.ascii) : Ascii.ascii :=
  let n := Ascii.nat_of_ascii c in
  if ((65 <=? n) && (n <=? 90))%nat then Ascii.ascii_of_nat (n + 32) else c.

Fixpoint toLowerCase (s : string) : string :=
  match s with
  | EmptyString => EmptyString
  | String c s' => String (lower_ascii c) (toLowerCase s')
  end.

(** [needle] occurs in [s]. *)
Fixpoint includes (needle s : string) : bool :=
  String.prefix needle s ||
  match s with
  | EmptyString => false
  | String _ s' => includes needle s'
  end.

(** [s.toLowerCase().includes(needle.toLowerCase())]. *)
Definition contains_insensitive (needle s : string) : bool :=
  includes (toLowerCase needle) (toLowerCase s).

(** A [LIKE] pattern of PostgreSQL: [%] stands for any run of characters,
    [_] for any one character, and a backslash makes the character after it
    stand for itself; a pattern that ends in a lone backslash is refused. *)
Inductive like_token : Type :=
| any_run
| any_char
| literally (c : Ascii.ascii).

Definition backslash : Ascii.ascii := Ascii.ascii_of_nat 92.

Fixpoint like_pattern (p : string) : option (list like_token) :=
  match p with
  | EmptyString => Some []
  | String c p' =>
      if Ascii.eqb c backslash then
        match p' with
        | EmptyString => None
        | String c' p'' => cons (literally c') <$> like_pattern p''
        end
      else
        cons (if Ascii.eqb c "%" then any_run
              else if Ascii.eqb c "_" then any_char
              else literally c) <$> like_pattern p'
  end.

(** The whole of [s] matches the pattern. *)
Fixpoint like_match (pattern : list like_token) : string → bool :=
  match pattern with
  | [] => λ s, match s with EmptyString => true | String _ _ => false end
  | literally c :: pattern' =>
      λ s, match s with
           | EmptyString => false
           | String d s' => Ascii.eqb c d && like_match pattern' s'
           end
  | any_char :: pattern' =>
      λ s, match s with
           | EmptyString => false
           | String _ s' => like_match pattern' s'
           end
  | any_run :: pattern' =>
      fix run (s : string) : bool :=
        like_match pattern' s
        || match s with
           | EmptyString => false
           | String _ s' => run s'
           end
  end.

(** The pattern that [{ contains: q, mode: 'insensitive' }] sends: the
    value goes between two [%] as it is, nothing in it is escaped, and
    [ILIKE] folds the case of the pattern and of the column. *)
Definition contains_pattern (q : string) : option (list like_token) :=
  like_pattern (toLowerCase ("%" +:+ q +:+ "%")).

Definition ilike (pattern : list like_token) (s : string) : bool :=
  like_match pattern (toLowerCase s).

Definition has (x : string) (l : list string) : bool :=
  bool_decide (x ∈ l).

(** [s.split(sep)] for a separator of one character. *)
Fixpoint split_go (sep : Ascii.ascii) (cur : string) (s : string) : list string :=
  match s with
  | EmptyString => [String.rev cur]
  | String c s' =>
      if Ascii.eqb c sep then String.rev cur :: split_go sep "" s'
      else split_go sep (String c cur) s'
  end.

Definition split (sep : Ascii.ascii) (s : string) : list string :=
  split_go sep "" s.

(** [s.split(' ')]. *)
Definition split_space (s : string) : list string := split " " s.

End Text.

(** ** server/controllers/ideasController.js *)
Module IdeasController.

(** Modelled from the spec: the [Idea] model of prisma/schema.prisma, which
    is not among the sources: required title and description, a free-text
    category, an ordered list of tags, an owner and a creation time. *)
Record Idea : Type := {
  idea_id : string;
  idea_title : string;
  idea_description : string;
  idea_category : string;
  idea_tags : list string;
  idea_userId : string;
  idea_createdAt : Z
}.

Definition idea_of_data (data : Prisma.data) (now : Z) : option (string → Idea) :=
  title ← Prisma.String_ (Prisma.field "title" data);
  description ← Prisma.String_ (Prisma.field "description" data);
  category ← Prisma.String_ (Prisma.field "category" data);
  tags ← Prisma.StringList_ (Prisma.field "tags" data);
  userId ← Prisma.String_ (Prisma.field "userId" data);
  Some (λ id, {| idea_id := id; idea_title := title;
                 idea_description := description; idea_category := category;
                 idea_tags := tags; idea_userId := userId;
                 idea_createdAt := now |}).

Definition idea_change (data : Prisma.data) (i : Idea) : option Idea :=
  title ← Prisma.column Prisma.String_ "title" data (idea_title i);
  description ← Prisma.column Prisma.String_ "description" data
                   (idea_description i);
  category ← Prisma.column Prisma.String_ "category" data (idea_category i);
  tags ← Prisma.column Prisma.StringList_ "tags" data (idea_tags i);
  Some {| idea_id := idea_id i; idea_title := title;
          idea_description := description; idea_category := category;
          idea_tags := tags; idea_userId := idea_userId i;
          idea_createdAt := idea_createdAt i |}.

Abbreviation ideas_table := (gmap string Idea).

Definition owned_by (uid : string) (i : Idea) : bool := String.eqb (idea_userId i) uid.

(** [where.category = category] for the database client: a string asks
    for that very category, an object is a filter that the client reads or
    refuses, and any other value is refused. *)
Definition where_category `{Platform} (category : value) : option (string → bool) :=
  match category with
  | VStr c => Some (λ x, String.eqb x c)
  | VObj fields => StringFilter fields
  | _ => None
  end.

(** [req.query.category] is undefined, a string, or (for a repeated or
    bracketed parameter) an array or an object. *)
Definition getIdeas `{Platform} (userId : string) (category : value)
    (db : ideas_table) : response (list Idea) * ideas_table :=
  try_catch "Failed to fetch ideas" db
    (where_ ← (if truthy category then
                 test ← where_category category;
                 Some (λ i, owned_by userId i && test (idea_category i))
               else Some (owned_by userId));
     let ideas := Prisma.findMany where_ [Prisma.desc Z.compare idea_createdAt] db in
     Some (Reply 200 ideas, db)).

Definition getIdeaById (userId id : string) (db : ideas_table)
    : response Idea * ideas_table :=
  try_catch "Failed to fetch idea" db
    (match Prisma.findFirst id (owned_by userId) db with
     | None => Some (Fail 404 "Idea not found", db)
     | Some idea => Some (Reply 200 idea, db)
     end).

Definition createIdea (userId : string) (body : value) (now : Z) (db : ideas_table)
    : response Idea * ideas_table :=
  try_catch "Failed to create idea" db
    (let title := get "title" body in
     let description := get "description" body in
     let category := get "category" body in
     let tags := get "tags" body in
     if negb (truthy title) || negb (truthy description) then
       Some (Fail 400 "Title and description are required", db)
     else
       row ← idea_of_data [("title", Prisma.Js title); ("description", Prisma.Js description);
                           ("category", Prisma.Js (or category (VStr "general")));
                           ("tags", Prisma.Js (if isArray tags then tags else VArr []));
                           ("userId", Prisma.Js (VStr userId))] now;
       let '(idea, db') := Prisma.create row db in
       Some (Reply 201 idea, db')).

Definition updateIdea (userId id : string) (body : value) (db : ideas_table)
    : response Idea * ideas_table :=
  try_catch "Failed to update idea" db
    (let title := get "title" body in
     let description := get "description" body in
     let category := get "category" body in
     let tags := get "tags" body in
     match Prisma.findFirst id (owned_by userId) db with
     | None => Some (Fail 404 "Idea not found", db)
     | Some existingIdea =>
         '(idea, db') ← Prisma.update id
            (idea_change
               (provided "tags" tags (Prisma.Js (if isArray tags then tags else VArr []))
               (provided "category" category (Prisma.Js category)
               (provided "description" description (Prisma.Js description)
               (provided "title" title (Prisma.Js title) []))))) db;
         Some (Reply 200 idea, db')
     end).

Definition deleteIdea (userId id : string) (db : ideas_table)
    : response unit * ideas_table :=
  try_catch "Failed to delete idea" db
    (match Prisma.findFirst id (owned_by userId) db with
     | None => Some (Fail 404 "Idea not found", db)
     | Some existingIdea =>
         db' ← Prisma.delete_ id db;
         Some (Reply 200 (), db')
     end).

Definition bulkCreateIdeas (userId : string) (body : value) (now : Z) (db : ideas_table)
    : response nat * ideas_table :=
  try_catch "Failed to sync ideas" db
    (let ideas := get "ideas" body in
     if negb (isArray ideas) || (length (elements ideas) =? 0)%nat then
       Some (Fail 400 "Ideas array is required", db)
     else
       ideasWithUserId ← mapM (λ idea,
           title ← prop "title" idea;
           description ← prop "description" idea;
           category ← prop "category" idea;
           tags ← prop "tags" idea;
           Some [("title", Prisma.Js title); ("description", Prisma.Js description);
                 ("category", Prisma.Js (or category (VStr "general")));
                 ("tags", Prisma.Js (if isArray tags then tags else VArr []));
                 ("userId", Prisma.Js (VStr userId))]) (elements ideas);
       rows ← mapM (λ data, key ← Prisma.key_of_data data;
                            row ← idea_of_data data now;
                            Some (key, row)) ideasWithUserId;
       let '(count, db') := Prisma.createMany rows db in
       Some (Reply 201 count, db')).

(** [req.query.query], see [getIdeas] for its possible values. *)
Definition searchIdeas (userId : string) (query : value) (db : ideas_table)
    : response (list Idea) * ideas_table :=
  try_catch "Failed to search ideas" db
    (if negb (truthy query) then
       Some (Fail 400 "Search query is required", db)
     else
       q ← Prisma.String_ (Prisma.Js query);
       pattern ← Text.contains_pattern q;
       let ideas := Prisma.findMany
           (λ i, owned_by userId i &&
                 (Text.ilike pattern (idea_title i) ||
                  Text.ilike pattern (idea_description i) ||
                  Text.has q (idea_tags i)))
           [Prisma.desc Z.compare idea_createdAt] db in
       Some (Reply 200 ideas, db)).

End IdeasController.

(** ** server/controllers/authController.js *)
Module AuthController.

(** Modelled from the spec: the [User] model of prisma/schema.prisma, which
    is not among the sources: an identifier, a unique email, the password
    hash and an optional display name.  The table is keyed by the email,
    which is what [findUnique] looks up. *)
Record User : Type := {
  user_id : string;
  user_email : string;
  user_password : string;
  user_name : option string
}.

Abbreviation users_table := (gmap string User).

(** What [register] and [login] answer: the user without the hash, and the
    token. *)
Record Session : Type := {
  session_id : string;
  session_email : string;
  session_name : option string;
  session_token : string
}.

Definition new_user_id (users : users_table) : string :=
  fresh_string_of_set "id" (list_to_set (user_id <$> (map_to_list users).*2)).

Definition register `{Platform} (body : value) (salt : string) (now : Z)
    (users : users_table) : response Session * users_table :=
  try_catch "Failed to register user" users
    (let email := get "email" body in
     let password := get "password" body in
     let name := get "name" body in
     if negb (truthy email) || negb (truthy password) then
       Some (Fail 400 "Email and password are required", users)
     else
       e ← Prisma.String_ (Prisma.Js email);
       match users !! e with
       | Some existingUser =>
           Some (Fail 400 "User already exists with this email", users)
       | None =>
           p ← JS.typeof_string password;
           let hashedPassword := bcrypt_hash p salt in
           n ← Prisma.nullable Prisma.String_ (Prisma.Js (or name VNull));
           let user := {| user_id := new_user_id users; user_email := e;
                          user_password := hashedPassword; user_name := n |} in
           let token := jwt_sign (user_id user) (user_email user) now in
           Some (Reply 201 {| session_id := user_id user;
                              session_email := user_email user;
                              session_name := user_name user;
                              session_token := token |},
                 <[e := user]> users)
       end).

Definition login `{Platform} (body : value) (now : Z) (users : users_table)
    : response Session * users_table :=
  try_catch "Failed to login" users
    (let email := get "email" body in
     let password := get "password" body in
     if negb (truthy email) || negb (truthy password) then
       Some (Fail 400 "Email and password are required", users)
     else
       e ← Prisma.String_ (Prisma.Js email);
       match users !! e with
       | None => Some (Fail 401 "Invalid email or password", users)
       | Some user =>
           p ← JS.typeof_string password;
           let isPasswordValid := bcrypt_compare p (user_password user) in
           if negb isPasswordValid then
             Some (Fail 401 "Invalid email or password", users)
           else
             let token := jwt_sign (user_id user) (user_email user) now in
             Some (Reply 200 {| session_id := user_id user;
                                session_email := user_email user;
                                session_name := user_name user;
                                session_token := token |},
                   users)
       end).

End AuthController.

(** ** server/middleware/auth.js *)
Module AuthMiddleware.

(** Either the request goes on with [req.userId] and [req.userEmail] set,
    or the middleware has answered. *)
Inductive verdict : Type :=
| Next (userId userEmail : string)
| Answered (status : nat) (error : string).

Definition authMiddleware `{Platform} (authorization : option string) (now : Z)
    : verdict :=
  match authorization with
  | None | Some "" => Answered 401 "No authorization header provided"
  | Some authHeader =>
      match Text.split_space authHeader !! 1%nat with
      | None | Some "" => Answered 401 "No token provided"
      | Some token =>
          match jwt_verify token now with
          | Decoded userId email => Next userId email
          | JsonWebTokenError => Answered 401 "Invalid token"
          | TokenExpiredError => Answered 401 "Token expired"
          | OtherError => Answered 500 "Authentication failed"
          end
      end
  end.

End AuthMiddleware.

(** ** The HTTP boundary (server.js, the routers, client/src/lib/api.js) *)
Module Http.

Inductive method : Type := GET | POST | PUT | DELETE.

Record reply : Type := { status : nat; data : value }.

(** What awaiting an axios call gives: the response (a 2xx status), or an
    error that carries the response when there was one. *)
Inductive axios : Type :=
| Resolved (response : reply)
| Rejected (response : option reply).

(** The statuses for which axios resolves. *)
Definition ok (s : nat) : bool := ((200 <=? s) && (s <? 300))%nat.

(** [error.response?.data?.error]. *)
Definition response_error (response : option reply) : value :=
  match response with
  | Some r => get "error" (data r)
  | None => VUndefined
  end.

Definition json {A} (enc : A → value) (r : response A) : reply :=
  match r with
  | Reply s a => {| status := s; data := enc a |}
  | Fail s e => {| status := s; data := VObj [("error", VStr e)] |}
  end.

End Http.

Module Server.
Import Http.

Record state : Type := {
  users : AuthController.users_table;
  notes : NotesController.notes_table;
  tasks : TasksController.tasks_table;
  ideas : IdeasController.ideas_table
}.

Section encodings.
Context `{Platform}.
Import NotesController TasksController IdeasController AuthController.

Definition nullable_json {A} (enc : A → value) (o : option A) : value :=
  match o with Some a => enc a | None => VNull end.

Definition note_json (n : Note) : value :=
  VObj [("id", VStr (note_id n)); ("title", VStr (note_title n));
        ("content", VStr (note_content n)); ("color", VStr (note_color n));
        ("isPinned", VBool (note_isPinned n)); ("userId", VStr (note_userId n));
        ("createdAt", VStr (toISOString (note_createdAt n)))].

Definition priority_json (p : Priority) : value :=
  VStr match p with low => "low" | medium => "medium" | high => "high" end.

Definition task_json (t : Task) : value :=
  VObj [("id", VStr (task_id t)); ("title", VStr (task_title t));
        ("description", nullable_json VStr (task_description t));
        ("completed", VBool (task_completed t));
        ("priority", priority_json (task_priority t));
        ("dueDate", nullable_json (λ d, VStr (toISOString d)) (task_dueDate t));
        ("userId", VStr (task_userId t));
        ("createdAt", VStr (toISOString (task_createdAt t)))].

Definition idea_json (i : Idea) : value :=
  VObj [("id", VStr (idea_id i)); ("title", VStr (idea_title i));
        ("description", VStr (idea_description i));
        ("category", VStr (idea_category i));
        ("tags", VArr (VStr <$> idea_tags i));
        ("userId", VStr (idea_userId i));
        ("createdAt", VStr (toISOString (idea_createdAt i)))].

Definition session_json (s : Session) : value :=
  VObj [("user", VObj [("id", VStr (session_id s));
                       ("email", VStr (session_email s));
                       ("name", nullable_json VStr (session_name s))]);
        ("token", VStr (session_token s))].

Definition count_json (n : nat) : value := VObj [("count", VNum (Z.of_nat n))].

Definition one (k : string) {A} (enc : A → value) (a : A) : value :=
  VObj [(k, enc a)].
End encodings.

(** A router behind [router.use(authMiddleware)]. *)
Definition protected `{Platform} {A T} (enc : A → value)
    (authorization : option string) (now : Z)
    (handler : string → T → response A * T) (t : T) : reply * T :=
  match AuthMiddleware.authMiddleware authorization now with
  | AuthMiddleware.Answered s e =>
      ({| status := s; data := VObj [("error", VStr e)] |}, t)
  | AuthMiddleware.Next userId _ =>
      let '(r, t') := handler userId t in (json enc r, t')
  end.

(** The POST routes mounted under /api.  [salt] and [now] are what the
    request draws from the random source and the clock. *)
Definition post `{Platform} (url : string) (authorization : option string)
    (body : value) (salt : string) (now : Z) (s : state) : reply * state :=
  match url with
  | "/auth/register" =>
      let '(r, t) := AuthController.register body salt now (users s) in
      (json session_json r,
       {| users := t; notes := notes s; tasks := tasks s; ideas := ideas s |})
  | "/auth/login" =>
      let '(r, t) := AuthController.login body now (users s) in
      (json session_json r,
       {| users := t; notes := notes s; tasks := tasks s; ideas := ideas s |})
  | "/notes" =>
      let '(r, t) := protected (one "note" note_json) authorization now
          (λ userId, NotesController.createNote userId body now) (notes s) in
      (r, {| users := users s; notes := t; tasks := tasks s; ideas := ideas s |})
  | "/notes/sync" =>
      let '(r, t) := protected count_json authorization now
          (λ userId, NotesController.bulkCreateNotes userId body now) (notes s) in
      (r, {| users := users s; notes := t; tasks := tasks s; ideas := ideas s |})
  | "/tasks" =>
      let '(r, t) := protected (one "task" task_json) authorization now
          (λ userId, TasksController.createTask userId body now) (tasks s) in
      (r, {| users := users s; notes := notes s; tasks := t; ideas := ideas s |})
  | "/tasks/sync" =>
      let '(r, t) := protected count_json authorization now
          (λ userId, TasksController.bulkCreateTasks userId body now) (tasks s) in
      (r, {| users := users s; notes := notes s; tasks := t; ideas := ideas s |})
  | "/ideas" =>
      let '(r, t) := protected (one "idea" idea_json) authorization now
          (λ userId, IdeasController.createIdea userId body now) (ideas s) in
      (r, {| users := users s; notes := notes s; tasks := tasks s; ideas := t |})
  | "/ideas/sync" =>
      let '(r, t) := protected count_json authorization now
          (λ userId, IdeasController.bulkCreateIdeas userId body now) (ideas s) in
      (r, {| users := users s; notes := notes s; tasks := tasks s; ideas := t |})
  | _ => ({| status := 404; data := VObj [("error", VStr "Route not found")] |}, s)
  end.

End Server.

(** ** The client stores (zustand with the persist middleware) *)
Module Zustand.

Record slice : Type := { items : list value; loading : bool; error : value }.

(** The partial state handed to [set]. *)
Record patch : Type := {
  set_items : option (list value);
  set_loading : option bool;
  set_error : option value
}.

Definition merge (p : patch) (s : slice) : slice :=
  {| items := default (items s) (set_items p);
     loading := default (loading s) (set_loading p);
     error := default (error s) (set_error p) |}.

(** A store: its state, the item the persist middleware keeps in
    localStorage (the partialized state, as JSON), and the partial states
    [set] was called with, oldest first. *)
Record store : Type := {
  state : slice;
  storage : option value;
  writes : list patch
}.

Definition create : store :=
  {| state := {| items := []; loading := false; error := VNull |};
     storage := None; writes := [] |}.

(** [set(partial)] or [set((state) => partial)] of a store whose
    [partialize] keeps the list under [key]. *)
Definition set (key : string) (partial : slice → patch) (st : store) : store :=
  let s' := merge (partial (state st)) (state st) in
  {| state := s';
     storage := Some (jsonify (VObj [(key, VArr (items s'))]));
     writes := writes st ++ [partial (state st)] |}.

(** What an action returns: [{ success: true, <record> }] or
    [{ success: false, error }]. *)
Inductive result : Type :=
| success (record : value)
| failure (error : value).

(** The browser side of a call: [generateId()] and the successive readings
    of [new Date().toISOString()]. *)
Record browser : Type := { generateId : string; clock : nat → string }.

(** [list.map((x) => x.id === id ? { ...x, ...updates, updatedAt: now } : x)],
    the [n]-th reading of the clock going to the [n]-th match. *)
Fixpoint map_merge (id : string) (updates : value) (clock : nat → string) (n : nat)
    (l : list value) : option (list value) :=
  match l with
  | [] => Some []
  | x :: l' =>
      xid ← prop "id" x;
      if is_string id xid then
        l'' ← map_merge id updates clock (S n) l';
        Some (VObj (JS.set "updatedAt" (VStr (clock n))
                      (spread updates (spread x []))) :: l'')
      else
        l'' ← map_merge id updates clock n l';
        Some (x :: l'')
  end.

(** [list.map((x) => x.id === id ? y : x)]. *)
Definition map_replace (id : string) (y : value) (l : list value) : option (list value) :=
  mapM (λ x, xid ← prop "id" x; Some (if is_string id xid then y else x)) l.

(** [list.filter((x) => x.id !== id)]. *)
Fixpoint filter_out (id : string) (l : list value) : option (list value) :=
  match l with
  | [] => Some []
  | x :: l' =>
      xid ← prop "id" x;
      l'' ← filter_out id l';
      Some (if is_string id xid then l'' else x :: l'')
  end.

(** [list.find((x) => x.id === id)], undefined when there is none. *)
Fixpoint find (id : string) (l : list value) : option value :=
  match l with
  | [] => Some VUndefined
  | x :: l' =>
      xid ← prop "id" x;
      if is_string id xid then Some x else find id l'
  end.

(** The [catch] block of an action: the message from the response or the
    default one, stored and returned. *)
Definition catch (key default_message : string) (response : option Http.reply)
    (st : store) : option result * store :=
  let message := or (Http.response_error response) (VStr default_message) in
  (Some (failure message),
   set key (λ _, {| set_items := None; set_loading := Some false;
                    set_error := Some message |}) st).

(** [set({ loading: true, error: null })]. *)
Definition pending (key : string) (st : store) : store :=
  set key (λ _, {| set_items := None; set_loading := Some true;
                   set_error := Some VNull |}) st.

End Zustand.

(** ** client/src/stores/notesStore.js

    The actions of a store that change its list, and the export for the
    sync.  An action returns [None] when it throws. *)
Module NotesStore.
Import Zustand Http.

Section actions.
(** What awaiting [api.post], [api.put] or [api.delete] gives for a
    request. *)
Context (api : method → string → value → axios).

Definition addNote (noteData : value) (isAuthenticated : bool) (b : browser)
    (st : store) : option result * store :=
  if negb isAuthenticated then
    let newNote :=
      VObj (JS.set "updatedAt" (VStr (clock b 1))
           (JS.set "createdAt" (VStr (clock b 0))
           (spread noteData [("id", VStr (generateId b))]))) in
    let st := set "notes" (λ state, {| set_items := Some (newNote :: items state);
                                      set_loading := None; set_error := None |}) st in
    (Some (success newNote), st)
  else
    let st := pending "notes" st in
    match api POST "/notes" noteData with
    | Resolved response =>
        match prop "note" (data response) with
        | Some newNote =>
            let st := set "notes" (λ state, {| set_items := Some (newNote :: items state);
                                              set_loading := Some false;
                                              set_error := None |}) st in
            (Some (success newNote), st)
        | None => catch "notes" "Failed to create note" None st
        end
    | Rejected response => catch "notes" "Failed to create note" response st
    end.

Definition updateNote (id : string) (updates : value) (isAuthenticated : bool)
    (b : browser) (st : store) : option result * store :=
  if negb isAuthenticated then
    match map_merge id updates (clock b) 0 (items (state st)) with
    | Some notes =>
        (Some (success VUndefined),
         set "notes" (λ _, {| set_items := Some notes; set_loading := None;
                             set_error := None |}) st)
    | None => (None, st)
    end
  else
    let st := pending "notes" st in
    match api PUT ("/notes/" +:+ id) updates with
    | Resolved response =>
        match prop "note" (data response) with
        | Some updatedNote =>
            match map_replace id updatedNote (items (state st)) with
            | Some notes =>
                (Some (success updatedNote),
                 set "notes" (λ _, {| set_items := Some notes;
                                     set_loading := Some false;
                                     set_error := None |}) st)
            | None => catch "notes" "Failed to update note" None st
            end
        | None => catch "notes" "Failed to update note" None st
        end
    | Rejected response => catch "notes" "Failed to update note" response st
    end.

Definition deleteNote (id : string) (isAuthenticated : bool) (st : store)
    : option result * store :=
  if negb isAuthenticated then
    match filter_out id (items (state st)) with
    | Some notes =>
        (Some (success VUndefined),
         set "notes" (λ _, {| set_items := Some notes; set_loading := None;
                             set_error := None |}) st)
    | None => (None, st)
    end
  else
    let st := pending "notes" st in
    match api DELETE ("/notes/" +:+ id) VUndefined with
    | Resolved response =>
        match filter_out id (items (state st)) with
        | Some notes =>
            (Some (success VUndefined),
             set "notes" (λ _, {| set_items := Some notes;
                                 set_loading := Some false;
                                 set_error := None |}) st)
        | None => catch "notes" "Failed to delete note" None st
        end
    | Rejected response => catch "notes" "Failed to delete note" response st
    end.
End actions.

Definition clearNotes (st : store) : store :=
  set "notes" (λ _, {| set_items := Some []; set_loading := None;
                      set_error := None |}) st.

Definition getNotesForSync (st : store) : option (list value) :=
  mapM (rest_without "id") (items (state st)).

End NotesStore.

(** ** client/src/stores/tasksStore.js *)
Module TasksStore.
Import Zustand Http.

Section actions.
(** What awaiting [api.post], [api.put] or [api.delete] gives for a
    request. *)
Context (api : method → string → value → axios).

Definition addTask (taskData : value) (isAuthenticated : bool) (b : browser)
    (st : store) : option result * store :=
  if negb isAuthenticated then
    let newTask :=
      VObj (JS.set "updatedAt" (VStr (clock b 1))
           (JS.set "createdAt" (VStr (clock b 0))
           (JS.set "completed" (VBool false)
           (spread taskData [("id", VStr (generateId b))])))) in
    let st := set "tasks" (λ state, {| set_items := Some (newTask :: items state);
                                      set_loading := None; set_error := None |}) st in
    (Some (success newTask), st)
  else
    let st := pending "tasks" st in
    match api POST "/tasks" taskData with
    | Resolved response =>
        match prop "task" (data response) with
        | Some newTask =>
            let st := set "tasks" (λ state, {| set_items := Some (newTask :: items state);
                                              set_loading := Some false;
                                              set_error := None |}) st in
            (Some (success newTask), st)
        | None => catch "tasks" "Failed to create task" None st
        end
    | Rejected response => catch "tasks" "Failed to create task" response st
    end.

Definition updateTask (id : string) (updates : value) (isAuthenticated : bool)
    (b : browser) (st : store) : option result * store :=
  if negb isAuthenticated then
    match map_merge id updates (clock b) 0 (items (state st)) with
    | Some tasks =>
        (Some (success VUndefined),
         set "tasks" (λ _, {| set_items := Some tasks; set_loading := None;
                             set_error := None |}) st)
    | None => (None, st)
    end
  else
    let st := pending "tasks" st in
    match api PUT ("/tasks/" +:+ id) updates with
    | Resolved response =>
        match prop "task" (data response) with
        | Some updatedTask =>
            match map_replace id updatedTask (items (state st)) with
            | Some tasks =>
                (Some (success updatedTask),
                 set "tasks" (λ _, {| set_items := Some tasks;
                                     set_loading := Some false;
                                     set_error := None |}) st)
            | None => catch "tasks" "Failed to update task" None st
            end
        | None => catch "tasks" "Failed to update task" None st
        end
    | Rejected response => catch "tasks" "Failed to update task" response st
    end.

Definition toggleTask (id : string) (isAuthenticated : bool) (b : browser)
    (st : store) : option result * store :=
  match find id (items (state st)) with
  | None => (None, st)
  | Some task =>
      if negb (truthy task) then (Some (failure (VStr "Task not found")), st)
      else
        updateTask id
          (VObj [("completed", VBool (negb (truthy (get "completed" task))))])
          isAuthenticated b st
  end.

Definition deleteTask (id : string) (isAuthenticated : bool) (st : store)
    : option result * store :=
  if negb isAuthenticated then
    match filter_out id (items (state st)) with
    | Some tasks =>
        (Some (success VUndefined),
         set "tasks" (λ _, {| set_items := Some tasks; set_loading := None;
                             set_error := None |}) st)
    | None => (None, st)
    end
  else
    let st := pending "tasks" st in
    match api DELETE ("/tasks/" +:+ id) VUndefined with
    | Resolved response =>
        match filter_out id (items (state st)) with
        | Some tasks =>
            (Some (success VUndefined),
             set "tasks" (λ _, {| set_items := Some tasks;
                                 set_loading := Some false;
                                 set_error := None |}) st)
        | None => catch "tasks" "Failed to delete task" None st
        end
    | Rejected response => catch "tasks" "Failed to delete task" response st
    end.
End actions.

Definition clearTasks (st : store) : store :=
  set "tasks" (λ _, {| set_items := Some []; set_loading := None;
                      set_error := None |}) st.

Definition getTasksForSync (st : store) : option (list value) :=
  mapM (rest_without "id") (items (state st)).

End TasksStore.

(** ** client/src/stores/ideasStore.js *)
Module IdeasStore.
Import Zustand Http.

Section actions.
(** What awaiting [api.post], [api.put] or [api.delete] gives for a
    request. *)
Context (api : method → string → value → axios).

Definition addIdea (ideaData : value) (isAuthenticated : bool) (b : browser)
    (st : store) : option result * store :=
  if negb isAuthenticated then
    match prop "tags" ideaData, prop "category" ideaData with
    | Some tags, Some category =>
        let newIdea :=
          VObj (JS.set "updatedAt" (VStr (clock b 1))
               (JS.set "createdAt" (VStr (clock b 0))
               (JS.set "category" (or category (VStr "general"))
               (JS.set "tags" (or tags (VArr []))
               (spread ideaData [("id", VStr (generateId b))]))))) in
        let st := set "ideas" (λ state, {| set_items := Some (newIdea :: items state);
                                          set_loading := None; set_error := None |}) st in
        (Some (success newIdea), st)
    | _, _ => (None, st)
    end
  else
    let st := pending "ideas" st in
    match api POST "/ideas" ideaData with
    | Resolved response =>
        match prop "idea" (data response) with
        | Some newIdea =>
            let st := set "ideas" (λ state, {| set_items := Some (newIdea :: items state);
                                              set_loading := Some false;
                                              set_error := None |}) st in
            (Some (success newIdea), st)
        | None => catch "ideas" "Failed to create idea" None st
        end
    | Rejected response => catch "ideas" "Failed to create idea" response st
    end.

Definition updateIdea (id : string) (updates : value) (isAuthenticated : bool)
    (b : browser) (st : store) : option result * store :=
  if negb isAuthenticated then
    match map_merge id updates (clock b) 0 (items (state st)) with
    | Some ideas =>
        (Some (success VUndefined),
         set "ideas" (λ _, {| set_items := Some ideas; set_loading := None;
                             set_error := None |}) st)
    | None => (None, st)
    end
  else
    let st := pending "ideas" st in
    match api PUT ("/ideas/" +:+ id) updates with
    | Resolved response =>
        match prop "idea" (data response) with
        | Some updatedIdea =>
            match map_replace id updatedIdea (items (state st)) with
            | Some ideas =>
                (Some (success updatedIdea),
                 set "ideas" (λ _, {| set_items := Some ideas;
                                     set_loading := Some false;
                                     set_error := None |}) st)
            | None => catch "ideas" "Failed to update idea" None st
            end
        | None => catch "ideas" "Failed to update idea" None st
        end
    | Rejected response => catch "ideas" "Failed to update idea" response st
    end.

Definition deleteIdea (id : string) (isAuthenticated : bool) (st : store)
    : option result * store :=
  if negb isAuthenticated then
    match filter_out id (items (state st)) with
    | Some ideas =>
        (Some (success VUndefined),
         set "ideas" (λ _, {| set_items := Some ideas; set_loading := None;
                             set_error := None |}) st)
    | None => (None, st)
    end
  else
    let st := pending "ideas" st in
    match api DELETE ("/ideas/" +:+ id) VUndefined with
    | Resolved response =>
        match filter_out id (items (state st)) with
        | Some ideas =>
            (Some (success VUndefined),
             set "ideas" (λ _, {| set_items := Some ideas;
                                 set_loading := Some false;
                                 set_error := None |}) st)
        | None => catch "ideas" "Failed to delete idea" None st
        end
    | Rejected response => catch "ideas" "Failed to delete idea" response st
    end.
End actions.

Definition clearIdeas (st : store) : store :=
  set "ideas" (λ _, {| set_items := Some []; set_loading := None;
                      set_error := None |}) st.

Definition getIdeasForSync (st : store) : option (list value) :=
  mapM (rest_without "id") (items (state st)).

End IdeasStore.

(** ** client/src/stores/authStore.js and the page that registers

    The browser and the server together: the calls go through the axios
    instance of client/src/lib/api.js to the routes of the server. *)
Module Client.
Import Zustand Http.

Record auth : Type := {
  user : value;
  token : value;
  isAuthenticated : bool;
  isGuest : bool
}.

Record world : Type := {
  server : Server.state;
  (** [localStorage.getItem('znote_token')] *)
  znote_token : option string;
  authStore : auth;
  notesStore : store;
  tasksStore : store;
  ideasStore : store
}.

(** [String(v)], as [localStorage.setItem] stores a value. *)
Fixpoint toString (v : value) : string :=
  match v with
  | VUndefined => "undefined"
  | VNull => "null"
  | VBool true => "true"
  | VBool false => "false"
  | VNum n => pretty n
  | VStr s => s
  | VArr items =>
      String.concat ","
        (map (λ x, match x with VUndefined | VNull => "" | _ => toString x end) items)
  | VObj _ => "[object Object]"
  end.

(** One request of the axios instance.  [reach] is [None] when no response
    arrives, and otherwise what the server draws while it handles the
    request (the salt and the time).  The request interceptor adds the
    stored token; the response interceptor drops it on a 401. *)
Definition post `{Platform} (url : string) (body : value) (reach : option (string * Z))
    (w : world) : axios * world :=
  match reach with
  | None => (Rejected None, w)
  | Some (salt, now) =>
      let authorization :=
        match znote_token w with
        | Some "" | None => None
        | Some token => Some ("Bearer " +:+ token)
        end in
      let '(response, s) :=
        Server.post url authorization (jsonify body) salt now (server w) in
      if ok (status response) then
        (Resolved response,
         {| server := s; znote_token := znote_token w; authStore := authStore w;
            notesStore := notesStore w; tasksStore := tasksStore w;
            ideasStore := ideasStore w |})
      else
        (Rejected (Some response),
         {| server := s;
            znote_token := if (status response =? 401)%nat then None
                           else znote_token w;
            authStore := authStore w;
            notesStore := notesStore w; tasksStore := tasksStore w;
            ideasStore := ideasStore w |})
  end.

(** Which requests of a registration reach the server. *)
Record network : Type := {
  reach_register : option (string * Z);
  reach_notes : option (string * Z);
  reach_tasks : option (string * Z);
  reach_ideas : option (string * Z)
}.

(** The body of a [try] block: a value, or the response of the error that
    was thrown ([None] when the error carries no response). *)
Definition attempt (A : Type) : Type := world → (A + option reply) * world.

Definition throw {A} (e : option reply) : attempt A := λ w, (inr e, w).

#[export] Instance attempt_ret : MRet attempt := λ A a w, (inl a, w).
#[export] Instance attempt_bind : MBind attempt := λ A B k m w,
  match m w with
  | (inl a, w') => k a w'
  | (inr e, w') => (inr e, w')
  end.

(** [await api.post(url, body)]. *)
Definition await `{Platform} (url : string) (body : value)
    (reach : option (string * Z)) : attempt reply :=
  λ w, match post url body reach w with
       | (Resolved response, w') => (inl response, w')
       | (Rejected e, w') => (inr e, w')
       end.

(** [v.k] inside the block. *)
Definition access (k : string) (v : value) : attempt value :=
  match prop k v with
  | Some x => mret x
  | None => throw None
  end.

Definition when_ (c : bool) (m : attempt ()) : attempt () :=
  if c then m else mret ().

(** [set({ user, token, isAuthenticated: true, isGuest: false })] followed
    by [localStorage.setItem('znote_token', token)]. *)
Definition setAuthenticated (user token : value) : attempt () :=
  λ w, (inl (),
        {| server := server w;
           znote_token := Some (toString token);
           authStore := {| user := user; token := token;
                           isAuthenticated := true; isGuest := false |};
           notesStore := notesStore w; tasksStore := tasksStore w;
           ideasStore := ideasStore w |}).

(** One step of the sync:
    [if (list && list.length > 0) { await api.post(url, { [key]: list }); }]. *)
Definition sync `{Platform} (url key : string) (list : value)
    (reach : option (string * Z)) : attempt () :=
  when_ (truthy list && nonempty list)
    (await url (VObj [(key, list)]) reach;; mret ()).

(** Step 3 of [register]: [if (guestData) { ... }] with the three steps. *)
Definition syncGuestData `{Platform} (guestData : value) (net : network)
    : attempt () :=
  when_ (truthy guestData)
    (sync "/notes/sync" "notes" (get "notes" guestData) (reach_notes net);;
     sync "/tasks/sync" "tasks" (get "tasks" guestData) (reach_tasks net);;
     sync "/ideas/sync" "ideas" (get "ideas" guestData) (reach_ideas net)).

Definition register `{Platform} (email password name guestData : value)
    (net : network) (w : world) : result * world :=
  let try : attempt result :=
    response ← await "/auth/register"
        (VObj [("email", email); ("password", password); ("name", name)])
        (reach_register net);
    user ← access "user" (data response);
    token ← access "token" (data response);
    setAuthenticated user token;;
    syncGuestData guestData net;;
    mret (success user) in
  match try w with
  | (inl r, w') => (r, w')
  | (inr e, w') =>
      (failure (or (response_error e) (VStr "Registration failed")), w')
  end.

(** [login] of the auth store. *)
Definition login `{Platform} (email password : value)
    (reach : option (string * Z)) (w : world) : result * world :=
  let try : attempt result :=
    response ← await "/auth/login"
        (VObj [("email", email); ("password", password)]) reach;
    user ← access "user" (data response);
    token ← access "token" (data response);
    setAuthenticated user token;;
    mret (success user) in
  match try w with
  | (inl r, w') => (r, w')
  | (inr e, w') =>
      (failure (or (response_error e) (VStr "Login failed")), w')
  end.

(** [logout] of the auth store: the state is reset and the stored token
    removed (the item znote_user, which it removes as well, is never
    written). *)
Definition logout (w : world) : world :=
  {| server := server w;
     znote_token := None;
     authStore := {| user := VNull; token := VNull;
                     isAuthenticated := false; isGuest := true |};
     notesStore := notesStore w; tasksStore := tasksStore w;
     ideasStore := ideasStore w |}.

(** What the page shows after the form is submitted. *)
Inductive shown : Type :=
| navigate (path : string)
| setError (message : value).

(** client/src/pages/AuthPage.jsx, [handleSubmit] in register mode, for the
    form fields [email], [password] and [name]. *)
Definition handleSubmit `{Platform} (email password name : value) (net : network)
    (w : world) : shown * world :=
  let hasGuestData :=
    negb (length (items (state (notesStore w))) =? 0)%nat
    || negb (length (items (state (tasksStore w))) =? 0)%nat
    || negb (length (items (state (ideasStore w))) =? 0)%nat in
  let guestData :=
    if hasGuestData then
      notes ← NotesStore.getNotesForSync (notesStore w);
      tasks ← TasksStore.getTasksForSync (tasksStore w);
      ideas ← IdeasStore.getIdeasForSync (ideasStore w);
      Some (VObj [("notes", VArr notes); ("tasks", VArr tasks);
                  ("ideas", VArr ideas)])
    else Some VNull in
  match guestData with
  | None => (setError (VStr "An unexpected error occurred"), w)
  | Some guestData =>
      let '(result, w) := register email password name guestData net w in
      match result with
      | success _ =>
          let w :=
            if hasGuestData then
              {| server := server w; znote_token := znote_token w;
                 authStore := authStore w;
                 notesStore := NotesStore.clearNotes (notesStore w);
                 tasksStore := TasksStore.clearTasks (tasksStore w);
                 ideasStore := IdeasStore.clearIdeas (ideasStore w) |}
            else w in
          (navigate "/notes", w)
      | failure error =>
          (setError (or error (VStr "Registration failed")), w)
      end
  end.

End Client.

(** ** client/src/stores/themeStore.js

    The store and the class list of the document element, of which only
    the class dark matters. *)
Module ThemeStore.

Record page : Type := {
  theme : value;
  (** the item znote-theme of localStorage: the partialized state, as JSON *)
  storage : option value;
  (** [document.documentElement.classList.contains('dark')] *)
  dark : bool
}.

(** The store as created, on a page whose class list has dark or not. *)
Definition create (storage : option value) (dark : bool) : page :=
  {| theme := VStr "light"; storage := storage; dark := dark |}.

(** [set({ theme })]. *)
Definition set (theme : value) (p : page) : page :=
  {| theme := theme;
     storage := Some (jsonify (VObj [("theme", theme)]));
     dark := dark p |}.

(** [if (theme === 'dark') classList.add('dark'); else classList.remove('dark')]. *)
Definition apply (theme : value) (p : page) : page :=
  {| theme := ThemeStore.theme p; storage := storage p;
     dark := is_string "dark" theme |}.

Definition toggleTheme (p : page) : page :=
  let newTheme := if is_string "light" (theme p) then VStr "dark" else VStr "light" in
  apply newTheme (set newTheme p).

Definition setTheme (theme : value) (p : page) : page :=
  apply theme (set theme p).

Definition initTheme (p : page) : page :=
  apply (theme p) p.

End ThemeStore.

(** ** client/src/lib/utils.js *)
Module Utils.

(** [text.substring(0, length)]: a negative end counts as 0, an end past
    the text as the length of the text. *)
Definition substring_to (length : Z) (text : string) : string :=
  String.substring 0 (Z.to_nat length) text.

(** [truncate(text, length)] for a text that is a string, as the cards pass
    it (the note's content with 150, the idea's description with 200; the
    default of the parameter is 100). *)
Definition truncate (text : string) (length : Z) : string :=
  if String.eqb text "" || (Z.of_nat (String.length text) <=? length)
  then text
  else substring_to length text +:+ "...".

End Utils.

(** ** client/src/pages/IdeasPage.jsx *)
Module IdeasPage.

(** White space, of which [trim] strips a string (the ASCII characters
    here, as for case folding: tab, line feed, vertical tab, form feed,
    carriage return and space). *)
Definition is_space (c : Ascii.ascii) : bool :=
  let n := Ascii.nat_of_ascii c in
  ((9 <=? n) && (n <=? 13) || (n =? 32))%nat.

Fixpoint trimStart (s : string) : string :=
  match s with
  | EmptyString => EmptyString
  | String c s' => if is_space c then trimStart s' else s
  end.

Definition trimEnd (s : string) : string :=
  String.rev (trimStart (String.rev s)).

Definition trim (s : string) : string := trimEnd (trimStart s).

(** In [handleSave], the tags of the form field:
    [tags ? tags.split(',').map(tag => tag.trim()).filter(tag => tag) : []]. *)
Definition tagsArray (tags : string) : list string :=
  if String.eqb tags "" then []
  else filter (λ tag, tag ≠ "") (trim <$> Text.split "," tags).

(** In [handleEdit], the form field for the tags of an idea:
    [idea.tags.join(', ')], for tags that are strings. *)
Definition tagsField (tags : list string) : string :=
  String.concat ", " tags.

(** [v.toLowerCase()], which only a string has. *)
Definition toLowerCase (v : value) : option string :=
  match v with VStr s => Some (Text.toLowerCase s) | _ => None end.

(** [tags.some(tag => tag.toLowerCase().includes(q))]. *)
Fixpoint some_includes (q : string) (tags : list value) : option bool :=
  match tags with
  | [] => Some false
  | tag :: tags' =>
      t ← toLowerCase tag;
      if Text.includes q t then Some true else some_includes q tags'
  end.

(** The callback of [ideas.filter] that computes [filteredIdeas], with the
    truth value of what it returns; [None] when it throws. *)
Definition shown (selectedCategory searchQuery : string) (idea : value)
    : option bool :=
  other_category ←
    (if negb (String.eqb selectedCategory "all") then
       category ← prop "category" idea;
       Some (negb (is_string selectedCategory category))
     else Some false);
  if other_category : bool then Some false
  else if negb (String.eqb searchQuery "") then
    let q := Text.toLowerCase searchQuery in
    title ← prop "title" idea;
    title ← toLowerCase title;
    if Text.includes q title then Some true
    else
      description ← toLowerCase (get "description" idea);
      if Text.includes q description then Some true
      else
        match get "tags" idea with
        | VUndefined | VNull => Some false
        | VArr tags => some_includes q tags
        | _ => None
        end
  else Some true.

(** [list.filter(callback)] for a callback that may throw. *)
Fixpoint filter_by (callback : value → option bool) (l : list value)
    : option (list value) :=
  match l with
  | [] => Some []
  | x :: l' =>
      keep ← callback x;
      l'' ← filter_by callback l';
      Some (if keep : bool then x :: l'' else l'')
  end.


End IdeasPage.

(** ** client/src/pages/TasksPage.jsx *)
Module TasksPage.

(** The callback of [tasks.filter] that computes [filteredTasks]. *)
Definition shown (filterStatus searchQuery : string) (task : value)
    : option bool :=
  hidden ←
    (if String.eqb filterStatus "active" then
       completed ← prop "completed" task; Some (truthy completed)
     else Some false);
  if hidden : bool then Some false
  else
    hidden ←
      (if String.eqb filterStatus "completed" then
         completed ← prop "completed" task; Some (negb (truthy completed))
       else Some false);
    if hidden : bool then Some false
    else if negb (String.eqb searchQuery "") then
      let q := Text.toLowerCase searchQuery in
      title ← prop "title" task;
      title ← IdeasPage.toLowerCase title;
      if Text.includes q title then Some true
      else
        match get "description" task with
        | VUndefined | VNull => Some false
        | description =>
            description ← IdeasPage.toLowerCase description;
            Some (Text.includes q description)
        end
    else Some true.

Definition filteredTasks (tasks : list value) (filterStatus searchQuery : string)
    : option (list value) :=
  IdeasPage.filter_by (shown filterStatus searchQuery) tasks.

(** [tasks.filter(t => t.completed).length]. *)
Definition completedCount (tasks : list value) : option nat :=
  length <$> IdeasPage.filter_by
               (λ t, completed ← prop "completed" t; Some (truthy completed)) tasks.

End TasksPage.

(** ** The stated properties, in the words of the specification *)
Module Spec.
Import NotesController TasksController IdeasController.

(** Notes are listed pinned first, then newest first: [a] may stand before
    [b]. *)
Definition notes_order (a b : Note) : Prop :=
  (note_isPinned a = true ∧ note_isPinned b = false) ∨
  (note_isPinned a = note_isPinned b ∧ note_createdAt b ≤ note_createdAt a).

(** Sooner due; a task with no due date is due after every dated one. *)
Definition due_before (a b : option Z) : Prop :=
  match a, b with
  | Some x, Some y => x < y
  | Some _, None => True
  | None, _ => False
  end.

(** Tasks are listed incomplete first, then soonest due, then newest
    first. *)
Definition tasks_order (a b : Task) : Prop :=
  (task_completed a = false ∧ task_completed b = true) ∨
  (task_completed a = task_completed b ∧
   (due_before (task_dueDate a) (task_dueDate b) ∨
    (task_dueDate a = task_dueDate b ∧ task_createdAt b ≤ task_createdAt a))).


(** [needle] is a substring of [s], letter case ignored. *)
Definition substring_insensitive (needle s : string) : Prop :=
  ∃ pre post, Text.toLowerCase s = pre +:+ Text.toLowerCase needle +:+ post.

(** What a pattern of the database's [LIKE] matches, in words: the empty
    pattern matches the empty text; [%] matches any run of characters, [_]
    any one character, a backslash followed by a character that character,
    and any other character itself. *)
Inductive like : string → string → Prop :=
| like_end : like "" ""
| like_run p s x : like p s → like (String "%" p) (x +:+ s)
| like_one p s c : like p s → like (String "_" p) (String c s)
| like_escaped p s c :
    like p s → like (String Text.backslash (String c p)) (String c s)
| like_same p s c :
    c ≠ "%"%char → c ≠ "_"%char → c ≠ Text.backslash →
    like p s → like (String c p) (String c s).

(** The text holds the query as the database searches for it: the query
    between two [%], read as a pattern, matches the text, letter case
    ignored. *)
Definition contains_ilike (query s : string) : Prop :=
  like (Text.toLowerCase ("%" +:+ query +:+ "%")) (Text.toLowerCase s).

(** A query in which no character has a meaning of its own in a pattern. *)
Definition plain_query (query : string) : Prop :=
  Text.includes "%" query = false
  ∧ Text.includes "_" query = false
  ∧ Text.includes (String Text.backslash "") query = false.

(** Ideas search as the code has it: the title or the description holds the
    query as the database searches for it, or the query is one of the tags,
    letter for letter. *)
Definition search_match (query : string) (i : Idea) : Prop :=
  contains_ilike query (idea_title i)
  ∨ contains_ilike query (idea_description i)
  ∨ query ∈ idea_tags i.

(** Ideas search as the claim has it: a tag also matches when it equals the
    query up to letter case. *)
Definition search_match_claimed (query : string) (i : Idea) : Prop :=
  substring_insensitive query (idea_title i)
  ∨ substring_insensitive query (idea_description i)
  ∨ ∃ tag, tag ∈ idea_tags i ∧ Text.toLowerCase tag = Text.toLowerCase query.

(** Newest first: [a] may stand before [b]. *)
Definition newest_first (a b : Idea) : Prop :=
  idea_createdAt b ≤ idea_createdAt a.

(** What BulkImport and Create make of one record: the owner is stamped on
    it and the defaults of its type fill what it leaves out.  [None] when
    the record does not fit the columns. *)
Definition as_boolean (v : value) : option bool :=
  match v with VBool b => Some b | _ => None end.

Definition imported_note (owner : string) (now : Z) (record : value)
    : option (string → Note) :=
  match record with
  | VUndefined | VNull => None
  | _ =>
      title ← typeof_string (get "title" record);
      content ← typeof_string (get "content" record);
      color ← typeof_string (or (get "color" record) (VStr "#ffffff"));
      pinned ← as_boolean (or (get "isPinned" record) (VBool false));
      Some (λ id, {| note_id := id; note_title := title; note_content := content;
                     note_color := color; note_isPinned := pinned;
                     note_userId := owner; note_createdAt := now |})
  end.

Definition as_priority (v : value) : option Priority :=
  match v with
  | VStr "low" => Some low
  | VStr "medium" => Some medium
  | VStr "high" => Some high
  | _ => None
  end.

Definition imported_task `{Platform} (owner : string) (now : Z) (record : value)
    : option (string → Task) :=
  match record with
  | VUndefined | VNull => None
  | _ =>
      title ← typeof_string (get "title" record);
      description ← (if truthy (get "description" record)
                     then Some <$> typeof_string (get "description" record)
                     else Some None);
      completed ← as_boolean (or (get "completed" record) (VBool false));
      priority ← as_priority (or (get "priority" record) (VStr "medium"));
      dueDate ← (if truthy (get "dueDate" record)
                 then Some <$> new_Date (get "dueDate" record)
                 else Some None);
      Some (λ id, {| task_id := id; task_title := title;
                     task_description := description;
                     task_completed := completed; task_priority := priority;
                     task_dueDate := dueDate; task_userId := owner;
                     task_createdAt := now |})
  end.

Definition imported_idea (owner : string) (now : Z) (record : value)
    : option (string → Idea) :=
  match record with
  | VUndefined | VNull => None
  | _ =>
      title ← typeof_string (get "title" record);
      description ← typeof_string (get "description" record);
      category ← typeof_string (or (get "category" record) (VStr "general"));
      tags ← (match get "tags" record with
              | VArr tags => mapM typeof_string tags
              | _ => Some []
              end);
      Some (λ id, {| idea_id := id; idea_title := title;
                     idea_description := description;
                     idea_category := category; idea_tags := tags;
                     idea_userId := owner; idea_createdAt := now |})
  end.

(** The table [db'] is [db] with exactly the given rows inserted, each under
    an identifier of its own that [db] did not use. *)
Definition inserted {R} (rows : list (string → R)) (db db' : gmap string R) : Prop :=
  ∃ ids : list string,
    length ids = length rows
    ∧ NoDup ids
    ∧ (∀ k, k ∈ ids → db !! k = None)
    ∧ (∀ n k row, ids !! n = Some k → rows !! n = Some row →
         db' !! k = Some (row k))
    ∧ (∀ k, k ∉ ids → db' !! k = db !! k)
    ∧ size db' = (size db + length rows)%nat.

(** BulkImport of the value found under the list's name in the request:
    without a non-empty array, 400 and nothing changes; with records that
    all fit, 201, a count equal to their number, and one row inserted for
    each of them; with a record that does not fit, 500 and nothing changes. *)
Definition bulk_import_contract {R} (imported : value → option (string → R))
    (list : value) (required failed : string) (db : gmap string R)
    (out : response nat * gmap string R) : Prop :=
  match list with
  | VArr ((_ :: _) as records) =>
      match mapM imported records with
      | Some rows =>
          ∃ db', out = (Reply 201 (length records), db') ∧ inserted rows db db'
      | None => out = (Fail 500 failed, db)
      end
  | _ => out = (Fail 400 required, db)
  end.

(** The count BulkImport returns according to the claim: the records whose
    identifier is not the identifier of an existing row. *)
Definition collides {R} (db : gmap string R) (record : value) : bool :=
  match get "id" record with
  | VStr k => bool_decide (is_Some (db !! k))
  | _ => false
  end.

Definition claimed_count {R} (db : gmap string R) (records : list value) : nat :=
  length (filter (λ r, collides db r = false) records).



(** Guest Add on the Notes store as the claim has it: one note, with a
    color and with the pinned flag false. *)
Definition guest_note_with_defaults (st : Zustand.store) : Prop :=
  ∃ note, Zustand.items (Zustand.state st) = [note]
          ∧ (∃ color, get "color" note = VStr color)
          ∧ get "isPinned" note = VBool false.

(** The records of a list were imported into a table: for some caller and
    time, each record made a row and exactly these rows were inserted. *)
Definition synced {R} (imported : string → Z → value → option (string → R))
    (list : value) (db db' : gmap string R) : Prop :=
  ∃ userId now records rows,
    list = VArr records ∧ records ≠ []
    ∧ mapM (imported userId now) records = Some rows
    ∧ inserted rows db db'.

(** A request left the browser's stores and session as they were. *)
Definition browser_kept (w w' : Client.world) : Prop :=
  Client.authStore w' = Client.authStore w
  ∧ Client.notesStore w' = Client.notesStore w
  ∧ Client.tasksStore w' = Client.tasksStore w
  ∧ Client.ideasStore w' = Client.ideasStore w.

End Spec.

(** ** Sample data *)
Module Sample.
Import NotesController TasksController IdeasController AuthController.

(** Filter objects with one operator, as the database reads them in its
    default, case-sensitive mode; [contains], [startsWith] and [endsWith]
    are [LIKE] tests.  The database client reads more objects than these
    (several operators in one object, [mode], comparisons); this sample
    refuses them. *)
Definition string_filter (fields : obj) : option (string → bool) :=
  match fields with
  | [("equals", VStr s)] => Some (λ x, String.eqb x s)
  | [("not", VStr s)] => Some (λ x, negb (String.eqb x s))
  | [("in", VArr items)] =>
      l ← mapM typeof_string items; Some (λ x, bool_decide (x ∈ l))
  | [("notIn", VArr items)] =>
      l ← mapM typeof_string items; Some (λ x, negb (bool_decide (x ∈ l)))
  | [("contains", VStr s)] =>
      pattern ← Text.like_pattern ("%" +:+ s +:+ "%");
      Some (Text.like_match pattern)
  | [("startsWith", VStr s)] =>
      pattern ← Text.like_pattern (s +:+ "%"); Some (Text.like_match pattern)
  | [("endsWith", VStr s)] =>
      pattern ← Text.like_pattern ("%" +:+ s); Some (Text.like_match pattern)
  | _ => None
  end.

(** A platform to run the model on: dates are numbers of milliseconds, a
    hash is the salted password (the salt is always "s1"), a token names its
    user and never expires, and filter objects are read by
    [string_filter]. *)
#[export] Instance platform : Platform := {|
  new_Date v := match v with VNum t => Some t | _ => None end;
  bcrypt_hash p salt := salt +:+ "$" +:+ p;
  bcrypt_compare p h := String.eqb h ("s1$" +:+ p);
  jwt_sign userId email now := userId +:+ "~" +:+ email;
  jwt_verify token now :=
    match Text.split "~" token with
    | [userId; email] => Decoded userId email
    | _ => JsonWebTokenError
    end;
  toISOString t := pretty t;
  StringFilter := string_filter
|}.

Definition note1 : Note :=
  {| note_id := "n1"; note_title := "Groceries"; note_content := "milk";
     note_color := "#3b82f6"; note_isPinned := false; note_userId := "u1";
     note_createdAt := 5 |}.

Definition task1 : Task :=
  {| task_id := "t1"; task_title := "Call"; task_description := None;
     task_completed := false; task_priority := high; task_dueDate := Some 40;
     task_userId := "u1"; task_createdAt := 6 |}.

Definition idea_Blue : Idea :=
  {| idea_id := "i1"; idea_title := "Sky"; idea_description := "a palette";
     idea_category := "general"; idea_tags := ["Blue"]; idea_userId := "u1";
     idea_createdAt := 7 |}.

Definition idea_blue : Idea :=
  {| idea_id := "i2"; idea_title := "Sea"; idea_description := "waves";
     idea_category := "general"; idea_tags := ["blue"]; idea_userId := "u1";
     idea_createdAt := 8 |}.

Definition user1 : User :=
  {| user_id := "u1"; user_email := "ann@example.com";
     user_password := "s1$secret"; user_name := None |}.

(** A guest with one note and one task, who registers while the request
    that syncs the tasks gets no response. *)
Definition guest_browser : Zustand.browser :=
  {| Zustand.generateId := "1730592000000-k3j9x2abc";
     Zustand.clock := λ _, "2024-11-03T00:00:00.000Z" |}.

Definition offline : Http.method → string → value → Http.axios :=
  λ _ _ _, Http.Rejected None.

Definition guest_world : Client.world :=
  {| Client.server := {| Server.users := ∅; Server.notes := ∅;
                         Server.tasks := ∅; Server.ideas := ∅ |};
     Client.znote_token := None;
     Client.authStore := {| Client.user := VNull; Client.token := VNull;
                            Client.isAuthenticated := false;
                            Client.isGuest := true |};
     Client.notesStore :=
       (NotesStore.addNote offline
          (VObj [("title", VStr "A"); ("content", VStr "B")])
          false guest_browser Zustand.create).2;
     Client.tasksStore :=
       (TasksStore.addTask offline
          (VObj [("title", VStr "T"); ("priority", VStr "high")])
          false guest_browser Zustand.create).2;
     Client.ideasStore := Zustand.create |}.

Definition tasks_sync_lost : Client.network :=
  {| Client.reach_register := Some ("s1", 100);
     Client.reach_notes := Some ("s1", 101);
     Client.reach_tasks := None;
     Client.reach_ideas := Some ("s1", 103) |}.

(** The same registration when every request is answered. *)
Definition online : Client.network :=
  {| Client.reach_register := Some ("s1", 100);
     Client.reach_notes := Some ("s1", 101);
     Client.reach_tasks := Some ("s1", 102);
     Client.reach_ideas := Some ("s1", 103) |}.

End Sample.

(** * Proofs *)

(** ** Ordering of the lists (getNotes, getTasks) *)
Section list_order.
Import NotesController TasksController.

Lemma notes_comes_first_iff a b :
  Prisma.comes_first [Prisma.desc Prisma.cmp_bool note_isPinned;
                      Prisma.desc Z.compare note_createdAt] a b
  ↔ Spec.notes_order a b.
Proof.
  unfold Prisma.comes_first, Prisma.desc, Spec.notes_order; simpl.
  destruct (note_isPinned a), (note_isPinned b); simpl;
    destruct (Z.compare_spec (note_createdAt b) (note_createdAt a));
    split; intros; try congruence; try lia;
    try (left; done); try (right; split; [done | lia]);
    repeat match goal with
           | H : _ ∨ _ |- _ => destruct H
           | H : _ ∧ _ |- _ => destruct H
           end; try congruence; try lia.
Qed.

Lemma due_compare_spec (x y : option Z) :
  match Prisma.cmp_nullable Z.compare x y with
  | Lt => Spec.due_before x y
  | Eq => x = y
  | Gt => Spec.due_before y x
  end.
Proof.
  destruct x as [x|], y as [y|]; simpl; try done.
  destruct (Z.compare_spec x y); [congruence | done | done].
Qed.

Lemma due_before_irrefl x : ¬ Spec.due_before x x.
Proof. destruct x; simpl; lia. Qed.

Lemma due_before_asym x y : Spec.due_before x y → ¬ Spec.due_before y x.
Proof. destruct x, y; simpl; lia. Qed.

Lemma due_before_trans x y z :
  Spec.due_before x y → Spec.due_before y z → Spec.due_before x z.
Proof. destruct x, y, z; simpl; lia. Qed.

Lemma tasks_comes_first_iff a b :
  Prisma.comes_first [Prisma.asc Prisma.cmp_bool task_completed;
                      Prisma.asc (Prisma.cmp_nullable Z.compare) task_dueDate;
                      Prisma.desc Z.compare task_createdAt] a b
  ↔ Spec.tasks_order a b.
Proof.
  unfold Prisma.comes_first, Prisma.asc, Prisma.desc, Spec.tasks_order; simpl.
  pose proof (due_compare_spec (task_dueDate a) (task_dueDate b)) as Hd.
  pose proof (due_before_irrefl (task_dueDate a)) as Hi.
  pose proof (due_before_asym (task_dueDate a) (task_dueDate b)) as Ha.
  destruct (task_completed a), (task_completed b); simpl;
    destruct (Prisma.cmp_nullable Z.compare (task_dueDate a) (task_dueDate b));
    destruct (Z.compare_spec (task_createdAt b) (task_createdAt a));
    split; intros;
    repeat match goal with
           | H : _ ∨ _ |- _ => destruct H
           | H : _ ∧ _ |- _ => destruct H
           end;
    try congruence; try lia; try tauto;
    try (rewrite Hd in *; tauto);
    try (left; done);
    try (right; split; [done|]; first [left; done | right; split; [done | lia]]).
Qed.

Lemma notes_order_total a b : Spec.notes_order a b ∨ Spec.notes_order b a.
Proof.
  unfold Spec.notes_order.
  destruct (note_isPinned a), (note_isPinned b);
    destruct (Z.le_ge_cases (note_createdAt a) (note_createdAt b)); auto.
Qed.

Lemma notes_order_trans a b c :
  Spec.notes_order a b → Spec.notes_order b c → Spec.notes_order a c.
Proof.
  unfold Spec.notes_order.
  destruct (note_isPinned a), (note_isPinned b), (note_isPinned c);
    intros [[??]|[??]] [[??]|[??]]; try congruence; auto;
    (right; split; [done | lia]).
Qed.

Lemma tasks_order_total a b : Spec.tasks_order a b ∨ Spec.tasks_order b a.
Proof.
  unfold Spec.tasks_order.
  pose proof (due_compare_spec (task_dueDate a) (task_dueDate b)) as Hd.
  destruct (task_completed a), (task_completed b); auto;
    destruct (Prisma.cmp_nullable Z.compare (task_dueDate a) (task_dueDate b));
    auto;
    destruct (Z.le_ge_cases (task_createdAt a) (task_createdAt b));
    first [ right; right; split; [done|]; right; split; [done | lia]
          | left; right; split; [done|]; right; split; [done | lia] ].
Qed.

Lemma tasks_order_trans a b c :
  Spec.tasks_order a b → Spec.tasks_order b c → Spec.tasks_order a c.
Proof.
  unfold Spec.tasks_order.
  pose proof (due_before_trans (task_dueDate a) (task_dueDate b) (task_dueDate c)).
  destruct (task_completed a), (task_completed b), (task_completed c);
    intros [[??]|[? [?|[??]]]] [[??]|[? [?|[??]]]]; try congruence; auto;
    right; split; try done.
  all: first [ left; by eauto
             | left; congruence
             | right; split; [congruence | lia] ].
Qed.

(** A list sorted for one order is sorted for any order that contains it. *)
Lemma StronglySorted_weaken {A} (R1 R2 : relation A) l :
  (∀ x y, R1 x y → R2 x y) → StronglySorted R1 l → StronglySorted R2 l.
Proof.
  intros HR. induction 1 as [|x l ? IH Hx]; constructor; [done|].
  eapply Forall_impl; [exact Hx | auto].
Qed.

(** [findMany] returns the selected rows, in the requested order as soon
    as that order is total and transitive. *)
Lemma findMany_spec {R} (where_ : R → bool) entries (policy : relation R)
    (t : gmap string R) :
  (∀ a b, Prisma.comes_first entries a b ↔ policy a b) →
  (∀ a b, policy a b ∨ policy b a) →
  (∀ a b c, policy a b → policy b c → policy a c) →
  Prisma.findMany where_ entries t
    ≡ₚ filter (λ r, where_ r = true) (map_to_list t).*2
  ∧ StronglySorted policy (Prisma.findMany where_ entries t).
Proof.
  intros Hiff Htot Htrans. unfold Prisma.findMany. split.
  - apply merge_sort_Permutation.
  - apply (StronglySorted_weaken (Prisma.comes_first entries));
      [intros; by apply Hiff|].
    apply StronglySorted_merge_sort.
    + intros a b c ? ?. apply Hiff. eapply Htrans; by apply Hiff.
    + intros a b. destruct (Htot a b); [left | right]; by apply Hiff.
Qed.
End list_order.

(** C6.  For every caller, the List of tasks answers 200 with exactly the
    caller's tasks, incomplete before completed, then by ascending due date
    (tasks with no due date after the dated ones), then by descending
    creation time; the List of notes answers 200 with exactly the caller's
    notes, pinned before unpinned, then by descending creation time.
    Neither changes the database. *)
Theorem list_ordering_policy (userId : string)
    (tasks : gmap string TasksController.Task)
    (notes : gmap string NotesController.Note) :
  (∃ l, TasksController.getTasks userId tasks = (Reply 200 l, tasks)
        ∧ l ≡ₚ filter (λ t, TasksController.task_userId t = userId)
                 (map_to_list tasks).*2
        ∧ StronglySorted Spec.tasks_order l)
  ∧ (∃ l, NotesController.getNotes userId notes = (Reply 200 l, notes)
          ∧ l ≡ₚ filter (λ n, NotesController.note_userId n = userId)
                   (map_to_list notes).*2
          ∧ StronglySorted Spec.notes_order l).
Proof.
  split; eexists; (split; [reflexivity|]).
  - destruct (findMany_spec (TasksController.owned_by userId) _ Spec.tasks_order
                tasks tasks_comes_first_iff tasks_order_total tasks_order_trans)
      as [Hp Hs].
    split; [|exact Hs]. rewrite Hp.
    erewrite list_filter_iff; [done|]. intros t. unfold TasksController.owned_by.
    by rewrite String.eqb_eq.
  - destruct (findMany_spec (NotesController.owned_by userId) _ Spec.notes_order
                notes notes_comes_first_iff notes_order_total notes_order_trans)
      as [Hp Hs].
    split; [|exact Hs]. rewrite Hp.
    erewrite list_filter_iff; [done|]. intros t. unfold NotesController.owned_by.
    by rewrite String.eqb_eq.
Qed.

(** ** Owner-scoped lookup, Delete and Update *)
Section owner_scoped.

Lemma findFirst_Some {R} id (conds : R → bool) (t : gmap string R) r :
  t !! id = Some r → conds r = true → Prisma.findFirst id conds t = Some r.
Proof. intros Hl Hc. unfold Prisma.findFirst. by rewrite Hl, Hc. Qed.

Lemma findFirst_None {R} id (conds : R → bool) (t : gmap string R) :
  (∀ r, t !! id = Some r → conds r = false) →
  Prisma.findFirst id conds t = None.
Proof.
  intros H. unfold Prisma.findFirst.
  destruct (t !! id) as [r|] eqn:Hl; [|done]. by rewrite (H r).
Qed.

Lemma eqb_false_of_ne (a b : string) : a ≠ b → String.eqb a b = false.
Proof. intros. by apply String.eqb_neq. Qed.

Lemma field_provided_skip k k' v v' d :
  k ≠ k' → Prisma.field k d = Prisma.Js VUndefined →
  Prisma.field k (provided k' v v' d) = Prisma.Js VUndefined.
Proof.
  intros Hne Hd. unfold provided. destruct v; try done;
    (induction d as [|[k0 v0] d IH]; simpl in *;
     [by rewrite eqb_false_of_ne | destruct (String.eqb k k0); auto]).
Qed.

Lemma field_provided_undefined k v' d :
  Prisma.field k (provided k VUndefined v' d) = Prisma.field k d.
Proof. done. Qed.

Lemma column_absent {A} (ty : Prisma.datum → option A) k d old :
  Prisma.field k d = Prisma.Js VUndefined → Prisma.column ty k d old = Some old.
Proof. intros H. unfold Prisma.column. by rewrite H. Qed.
End owner_scoped.

(** A proof step for the handlers: name the pieces of the request and
    unfold the [try] wrapper. *)
Tactic Notation "handler" reference(f) := unfold f, try_catch; simpl.

Section delete.
Import NotesController TasksController IdeasController.

Lemma deleteNote_owned userId id (db : gmap string Note) n :
  db !! id = Some n → note_userId n = userId →
  deleteNote userId id db = (Reply 200 (), delete id db).
Proof.
  intros Hl Ho. handler deleteNote.
  rewrite (findFirst_Some _ _ _ n Hl); [|by apply String.eqb_eq].
  unfold Prisma.delete_. by rewrite Hl.
Qed.

Lemma deleteNote_missing userId id (db : gmap string Note) :
  (∀ n, db !! id = Some n → note_userId n ≠ userId) →
  deleteNote userId id db = (Fail 404 "Note not found", db).
Proof.
  intros H. handler deleteNote. rewrite findFirst_None; [done|].
  intros n Hn. apply eqb_false_of_ne. eauto.
Qed.

Lemma deleteTask_owned userId id (db : gmap string Task) n :
  db !! id = Some n → task_userId n = userId →
  deleteTask userId id db = (Reply 200 (), delete id db).
Proof.
  intros Hl Ho. handler deleteTask.
  rewrite (findFirst_Some _ _ _ n Hl); [|by apply String.eqb_eq].
  unfold Prisma.delete_. by rewrite Hl.
Qed.

Lemma deleteTask_missing userId id (db : gmap string Task) :
  (∀ n, db !! id = Some n → task_userId n ≠ userId) →
  deleteTask userId id db = (Fail 404 "Task not found", db).
Proof.
  intros H. handler deleteTask. rewrite findFirst_None; [done|].
  intros n Hn. apply eqb_false_of_ne. eauto.
Qed.

Lemma deleteIdea_owned userId id (db : gmap string Idea) n :
  db !! id = Some n → idea_userId n = userId →
  deleteIdea userId id db = (Reply 200 (), delete id db).
Proof.
  intros Hl Ho. handler deleteIdea.
  rewrite (findFirst_Some _ _ _ n Hl); [|by apply String.eqb_eq].
  unfold Prisma.delete_. by rewrite Hl.
Qed.

Lemma deleteIdea_missing userId id (db : gmap string Idea) :
  (∀ n, db !! id = Some n → idea_userId n ≠ userId) →
  deleteIdea userId id db = (Fail 404 "Idea not found", db).
Proof.
  intros H. handler deleteIdea. rewrite findFirst_None; [done|].
  intros n Hn. apply eqb_false_of_ne. eauto.
Qed.
End delete.

(** C7.  For notes, tasks and ideas alike: when the caller owns no record
    with the given id (there is none, or it belongs to another user),
    Delete answers 404 and the table is unchanged; when the caller owns it,
    Delete answers 200, the record is gone and every other record is kept,
    and a second Delete of the same id by the same caller answers 404. *)
Theorem delete_not_found_and_not_idempotent (userId id : string)
    (notes : gmap string NotesController.Note)
    (tasks : gmap string TasksController.Task)
    (ideas : gmap string IdeasController.Idea) :
  ((∀ n, notes !! id = Some n → NotesController.note_userId n ≠ userId) →
     NotesController.deleteNote userId id notes = (Fail 404 "Note not found", notes))
  ∧ (∀ n, notes !! id = Some n → NotesController.note_userId n = userId →
       NotesController.deleteNote userId id notes = (Reply 200 (), delete id notes)
       ∧ delete id notes !! id = None
       ∧ (∀ j, j ≠ id → delete id notes !! j = notes !! j)
       ∧ NotesController.deleteNote userId id (delete id notes)
         = (Fail 404 "Note not found", delete id notes))
  ∧ ((∀ t, tasks !! id = Some t → TasksController.task_userId t ≠ userId) →
       TasksController.deleteTask userId id tasks = (Fail 404 "Task not found", tasks))
  ∧ (∀ t, tasks !! id = Some t → TasksController.task_userId t = userId →
       TasksController.deleteTask userId id tasks = (Reply 200 (), delete id tasks)
       ∧ delete id tasks !! id = None
       ∧ (∀ j, j ≠ id → delete id tasks !! j = tasks !! j)
       ∧ TasksController.deleteTask userId id (delete id tasks)
         = (Fail 404 "Task not found", delete id tasks))
  ∧ ((∀ i, ideas !! id = Some i → IdeasController.idea_userId i ≠ userId) →
       IdeasController.deleteIdea userId id ideas = (Fail 404 "Idea not found", ideas))
  ∧ (∀ i, ideas !! id = Some i → IdeasController.idea_userId i = userId →
       IdeasController.deleteIdea userId id ideas = (Reply 200 (), delete id ideas)
       ∧ delete id ideas !! id = None
       ∧ (∀ j, j ≠ id → delete id ideas !! j = ideas !! j)
       ∧ IdeasController.deleteIdea userId id (delete id ideas)
         = (Fail 404 "Idea not found", delete id ideas)).
Proof.
  repeat split;
    try (by apply lookup_delete_eq);
    try (intros; by apply lookup_delete_ne);
    try (first [apply deleteNote_missing | apply deleteTask_missing
               | apply deleteIdea_missing];
         intros ? Hgone; by rewrite lookup_delete_eq in Hgone);
    eauto using deleteNote_owned, deleteNote_missing, deleteTask_owned,
      deleteTask_missing, deleteIdea_owned, deleteIdea_missing.
Qed.

Section update.
Import NotesController TasksController IdeasController.
Context `{Platform}.

(** A step for the validated changes: split the binds of the option monad. *)
Ltac columns :=
  repeat match goal with
         | H : mbind _ ?c = Some _ |- _ =>
             let E := fresh "E" in destruct c eqn:E; simpl in H; [|done]
         | H : Some _ = Some _ |- _ => injection H as <-
         end.

(** The column of a property the request did not provide keeps its value. *)
Ltac absent E :=
  rewrite column_absent in E;
    [by injection E
    |repeat first [rewrite field_provided_undefined
                  |apply field_provided_skip; [done|]]; done].

Lemma note_change_frame title content color isPinned n n' :
  note_change (provided "isPinned" isPinned (Prisma.Js isPinned)
              (provided "color" color (Prisma.Js color)
              (provided "content" content (Prisma.Js content)
              (provided "title" title (Prisma.Js title) [])))) n = Some n' →
  note_id n' = note_id n ∧ note_userId n' = note_userId n
  ∧ note_createdAt n' = note_createdAt n
  ∧ (title = VUndefined → note_title n' = note_title n)
  ∧ (content = VUndefined → note_content n' = note_content n)
  ∧ (color = VUndefined → note_color n' = note_color n)
  ∧ (isPinned = VUndefined → note_isPinned n' = note_isPinned n).
Proof.
  unfold note_change. intros Hc. columns. simpl.
  repeat split; intros ->; [absent E | absent E0 | absent E1 | absent E2].
Qed.

Lemma updateNote_frame userId id body (db : gmap string Note) n :
  db !! id = Some n → note_userId n = userId →
  ∃ n', (updateNote userId id body db).2 !! id = Some n'
    ∧ ((updateNote userId id body db).1 = Reply 200 n'
       ∨ ((updateNote userId id body db).1 = Fail 500 "Failed to update note"
          ∧ n' = n))
    ∧ note_id n' = note_id n ∧ note_userId n' = note_userId n
    ∧ note_createdAt n' = note_createdAt n
    ∧ (get "title" body = VUndefined → note_title n' = note_title n)
    ∧ (get "content" body = VUndefined → note_content n' = note_content n)
    ∧ (get "color" body = VUndefined → note_color n' = note_color n)
    ∧ (get "isPinned" body = VUndefined → note_isPinned n' = note_isPinned n)
    ∧ (∀ j, j ≠ id → (updateNote userId id body db).2 !! j = db !! j).
Proof.
  intros Hl Ho. handler updateNote.
  rewrite (findFirst_Some _ _ _ n Hl); [|by apply String.eqb_eq].
  unfold Prisma.update. rewrite Hl. simpl.
  match goal with |- context [note_change ?d n] =>
    destruct (note_change d n) as [n'|] eqn:Hc end; simpl.
  - exists n'. rewrite lookup_insert_eq. split; [done|]. split; [by left|].
    destruct (note_change_frame _ _ _ _ _ _ Hc) as (?&?&?&?&?&?&?).
    repeat split; try done. intros j Hj. by rewrite lookup_insert_ne.
  - exists n. repeat split; try done. by right.
Qed.
Lemma task_change_frame title description completed priority dueDate due t t' :
  task_change (provided "dueDate" dueDate due
              (provided "priority" priority (Prisma.Js priority)
              (provided "completed" completed (Prisma.Js completed)
              (provided "description" description (Prisma.Js description)
              (provided "title" title (Prisma.Js title) []))))) t = Some t' →
  task_id t' = task_id t ∧ task_userId t' = task_userId t
  ∧ task_createdAt t' = task_createdAt t
  ∧ (title = VUndefined → task_title t' = task_title t)
  ∧ (description = VUndefined → task_description t' = task_description t)
  ∧ (completed = VUndefined → task_completed t' = task_completed t)
  ∧ (priority = VUndefined → task_priority t' = task_priority t)
  ∧ (dueDate = VUndefined → task_dueDate t' = task_dueDate t).
Proof.
  unfold task_change. intros Hc. columns. simpl.
  repeat split; intros ->;
    [absent E | absent E0 | absent E1 | absent E2 | absent E3].
Qed.

Lemma updateTask_frame userId id body (db : gmap string Task) t :
  db !! id = Some t → task_userId t = userId →
  ∃ t', (updateTask userId id body db).2 !! id = Some t'
    ∧ ((updateTask userId id body db).1 = Reply 200 t'
       ∨ ((updateTask userId id body db).1 = Fail 500 "Failed to update task"
          ∧ t' = t))
    ∧ task_id t' = task_id t ∧ task_userId t' = task_userId t
    ∧ task_createdAt t' = task_createdAt t
    ∧ (get "title" body = VUndefined → task_title t' = task_title t)
    ∧ (get "description" body = VUndefined →
       task_description t' = task_description t)
    ∧ (get "completed" body = VUndefined → task_completed t' = task_completed t)
    ∧ (get "priority" body = VUndefined → task_priority t' = task_priority t)
    ∧ (get "dueDate" body = VUndefined → task_dueDate t' = task_dueDate t)
    ∧ (∀ j, j ≠ id → (updateTask userId id body db).2 !! j = db !! j).
Proof.
  intros Hl Ho. handler updateTask.
  rewrite (findFirst_Some _ _ _ t Hl); [|by apply String.eqb_eq].
  unfold Prisma.update. rewrite Hl. simpl.
  match goal with |- context [task_change ?d t] =>
    destruct (task_change d t) as [t'|] eqn:Hc end; simpl.
  - exists t'. rewrite lookup_insert_eq. split; [done|]. split; [by left|].
    destruct (task_change_frame _ _ _ _ _ _ _ _ Hc) as (?&?&?&?&?&?&?&?).
    repeat split; try done. intros j Hj. by rewrite lookup_insert_ne.
  - exists t. repeat split; try done. by right.
Qed.

Lemma idea_change_frame title description category tags tags' i i' :
  idea_change (provided "tags" tags tags'
              (provided "category" category (Prisma.Js category)
              (provided "description" description (Prisma.Js description)
              (provided "title" title (Prisma.Js title) [])))) i = Some i' →
  idea_id i' = idea_id i ∧ idea_userId i' = idea_userId i
  ∧ idea_createdAt i' = idea_createdAt i
  ∧ (title = VUndefined → idea_title i' = idea_title i)
  ∧ (description = VUndefined → idea_description i' = idea_description i)
  ∧ (category = VUndefined → idea_category i' = idea_category i)
  ∧ (tags = VUndefined → idea_tags i' = idea_tags i).
Proof.
  unfold idea_change. intros Hc. columns. simpl.
  repeat split; intros ->; [absent E | absent E0 | absent E1 | absent E2].
Qed.

Lemma updateIdea_frame userId id body (db : gmap string Idea) i :
  db !! id = Some i → idea_userId i = userId →
  ∃ i', (updateIdea userId id body db).2 !! id = Some i'
    ∧ ((updateIdea userId id body db).1 = Reply 200 i'
       ∨ ((updateIdea userId id body db).1 = Fail 500 "Failed to update idea"
          ∧ i' = i))
    ∧ idea_id i' = idea_id i ∧ idea_userId i' = idea_userId i
    ∧ idea_createdAt i' = idea_createdAt i
    ∧ (get "title" body = VUndefined → idea_title i' = idea_title i)
    ∧ (get "description" body = VUndefined →
       idea_description i' = idea_description i)
    ∧ (get "category" body = VUndefined → idea_category i' = idea_category i)
    ∧ (get "tags" body = VUndefined → idea_tags i' = idea_tags i)
    ∧ (∀ j, j ≠ id → (updateIdea userId id body db).2 !! j = db !! j).
Proof.
  intros Hl Ho. handler updateIdea.
  rewrite (findFirst_Some _ _ _ i Hl); [|by apply String.eqb_eq].
  unfold Prisma.update. rewrite Hl. simpl.
  match goal with |- context [idea_change ?d i] =>
    destruct (idea_change d i) as [i'|] eqn:Hc end; simpl.
  - exists i'. rewrite lookup_insert_eq. split; [done|]. split; [by left|].
    destruct (idea_change_frame _ _ _ _ _ _ _ Hc) as (?&?&?&?&?&?&?).
    repeat split; try done. intros j Hj. by rewrite lookup_insert_ne.
  - exists i. repeat split; try done. by right.
Qed.
End update.

(** C4.  For notes, tasks and ideas alike: an Update of a record the
    caller owns leaves the record under its id with the same identifier,
    owner and creation time, whatever the request supplies; every field the
    request does not supply keeps its stored value; every other record of
    the table is untouched.  (The call answers 200 with the updated record,
    or 500 with nothing changed when a supplied value is not valid for its
    column.) *)
Theorem update_keeps_unsupplied_fields `{Platform} (userId id : string)
    (body : value)
    (notes : gmap string NotesController.Note)
    (tasks : gmap string TasksController.Task)
    (ideas : gmap string IdeasController.Idea) :
  (∀ n, notes !! id = Some n → NotesController.note_userId n = userId →
   let r := NotesController.updateNote userId id body notes in
   ∃ n', r.2 !! id = Some n'
     ∧ (r.1 = Reply 200 n' ∨ (r.1 = Fail 500 "Failed to update note" ∧ n' = n))
     ∧ NotesController.note_id n' = NotesController.note_id n
     ∧ NotesController.note_userId n' = NotesController.note_userId n
     ∧ NotesController.note_createdAt n' = NotesController.note_createdAt n
     ∧ (get "title" body = VUndefined →
        NotesController.note_title n' = NotesController.note_title n)
     ∧ (get "content" body = VUndefined →
        NotesController.note_content n' = NotesController.note_content n)
     ∧ (get "color" body = VUndefined →
        NotesController.note_color n' = NotesController.note_color n)
     ∧ (get "isPinned" body = VUndefined →
        NotesController.note_isPinned n' = NotesController.note_isPinned n)
     ∧ (∀ j, j ≠ id → r.2 !! j = notes !! j))
  ∧ (∀ t, tasks !! id = Some t → TasksController.task_userId t = userId →
     let r := TasksController.updateTask userId id body tasks in
     ∃ t', r.2 !! id = Some t'
       ∧ (r.1 = Reply 200 t' ∨ (r.1 = Fail 500 "Failed to update task" ∧ t' = t))
       ∧ TasksController.task_id t' = TasksController.task_id t
       ∧ TasksController.task_userId t' = TasksController.task_userId t
       ∧ TasksController.task_createdAt t' = TasksController.task_createdAt t
       ∧ (get "title" body = VUndefined →
          TasksController.task_title t' = TasksController.task_title t)
       ∧ (get "description" body = VUndefined →
          TasksController.task_description t' = TasksController.task_description t)
       ∧ (get "completed" body = VUndefined →
          TasksController.task_completed t' = TasksController.task_completed t)
       ∧ (get "priority" body = VUndefined →
          TasksController.task_priority t' = TasksController.task_priority t)
       ∧ (get "dueDate" body = VUndefined →
          TasksController.task_dueDate t' = TasksController.task_dueDate t)
       ∧ (∀ j, j ≠ id → r.2 !! j = tasks !! j))
  ∧ (∀ i, ideas !! id = Some i → IdeasController.idea_userId i = userId →
     let r := IdeasController.updateIdea userId id body ideas in
     ∃ i', r.2 !! id = Some i'
       ∧ (r.1 = Reply 200 i' ∨ (r.1 = Fail 500 "Failed to update idea" ∧ i' = i))
       ∧ IdeasController.idea_id i' = IdeasController.idea_id i
       ∧ IdeasController.idea_userId i' = IdeasController.idea_userId i
       ∧ IdeasController.idea_createdAt i' = IdeasController.idea_createdAt i
       ∧ (get "title" body = VUndefined →
          IdeasController.idea_title i' = IdeasController.idea_title i)
       ∧ (get "description" body = VUndefined →
          IdeasController.idea_description i' = IdeasController.idea_description i)
       ∧ (get "category" body = VUndefined →
          IdeasController.idea_category i' = IdeasController.idea_category i)
       ∧ (get "tags" body = VUndefined →
          IdeasController.idea_tags i' = IdeasController.idea_tags i)
       ∧ (∀ j, j ≠ id → r.2 !! j = ideas !! j)).
Proof.
  split; [|split]; intros x Hl Ho; simpl.
  - by apply updateNote_frame.
  - by apply updateTask_frame.
  - by apply updateIdea_frame.
Qed.

(** ** Login *)
Section login.
Import AuthController.
Context `{Platform}.

Lemma truthy_nonempty s : s ≠ "" → truthy (VStr s) = true.
Proof. intros Hs. simpl. by rewrite eqb_false_of_ne. Qed.


End login.


(** ** Ideas search *)
Section search.
Import IdeasController.

Lemma app_String c p q : String c p +:+ q = String c (p +:+ q).
Proof. reflexivity. Qed.

Lemma app_empty q : "" +:+ q = q.
Proof. reflexivity. Qed.


Lemma includes_unfold needle s :
  Text.includes needle s
  = String.prefix needle s
    || match s with
       | EmptyString => false
       | String _ s' => Text.includes needle s'
       end.
Proof. by destruct s. Qed.



Lemma includes_char_cons sep c a :
  Text.includes (String sep "") (String c a) = false
  ↔ c ≠ sep ∧ Text.includes (String sep "") a = false.
Proof.
  rewrite includes_unfold, orb_false_iff. cbn.
  destruct (Ascii.ascii_dec sep c) as [->|Hne].
  - destruct a; split; intros [? ?]; done.
  - split; intros [? ?]; split; congruence.
Qed.

(** *** Patterns *)

Lemma lower_append a b :
  Text.toLowerCase (a +:+ b) = Text.toLowerCase a +:+ Text.toLowerCase b.
Proof. induction a as [|c a IH]; [done|]. rewrite app_String. cbn. by rewrite IH. Qed.

Lemma append_empty_r a : a +:+ "" = a.
Proof. induction a as [|c a IH]; [done|]. by rewrite app_String, IH. Qed.

Lemma append_assoc (a b c : string) : (a +:+ b) +:+ c = a +:+ b +:+ c.
Proof. induction a as [|x a IH]; [done|]. rewrite !app_String. by rewrite IH. Qed.

Lemma like_pattern_run p :
  Text.like_pattern (String "%" p) = cons Text.any_run <$> Text.like_pattern p.
Proof. reflexivity. Qed.

Lemma like_pattern_one p :
  Text.like_pattern (String "_" p) = cons Text.any_char <$> Text.like_pattern p.
Proof. reflexivity. Qed.

Lemma like_pattern_escaped c p :
  Text.like_pattern (String Text.backslash (String c p))
  = cons (Text.literally c) <$> Text.like_pattern p.
Proof. reflexivity. Qed.

Lemma like_pattern_same c p :
  c ≠ "%"%char → c ≠ "_"%char → c ≠ Text.backslash →
  Text.like_pattern (String c p) = cons (Text.literally c) <$> Text.like_pattern p.
Proof.
  intros H1 H2 H3. cbn [Text.like_pattern].
  by rewrite (proj2 (Ascii.eqb_neq _ _) H1), (proj2 (Ascii.eqb_neq _ _) H2),
    (proj2 (Ascii.eqb_neq _ _) H3).
Qed.

(** The forms of a pattern, by its first token. *)
Lemma like_pattern_Some p ts :
  Text.like_pattern p = Some ts →
  (p = "" ∧ ts = [])
  ∨ (∃ p' ts', p = String "%" p' ∧ ts = Text.any_run :: ts'
               ∧ Text.like_pattern p' = Some ts')
  ∨ (∃ p' ts', p = String "_" p' ∧ ts = Text.any_char :: ts'
               ∧ Text.like_pattern p' = Some ts')
  ∨ (∃ c p' ts', p = String Text.backslash (String c p')
                 ∧ ts = Text.literally c :: ts'
                 ∧ Text.like_pattern p' = Some ts')
  ∨ (∃ c p' ts', p = String c p' ∧ c ≠ "%"%char ∧ c ≠ "_"%char
                 ∧ c ≠ Text.backslash ∧ ts = Text.literally c :: ts'
                 ∧ Text.like_pattern p' = Some ts').
Proof.
  intros Hp. destruct p as [|c p']; [injection Hp as <-; by left|right].
  destruct (decide (c = Text.backslash)) as [->|Hb].
  - destruct p' as [|c' p'']; [done|]. rewrite like_pattern_escaped in Hp.
    apply fmap_Some in Hp as (ts' & Hp & ->).
    right. right. left. by exists c', p'', ts'.
  - destruct (decide (c = "%"%char)) as [->|Hr].
    { rewrite like_pattern_run in Hp. apply fmap_Some in Hp as (ts' & Hp & ->).
      left. by exists p', ts'. }
    destruct (decide (c = "_"%char)) as [->|Ho].
    { rewrite like_pattern_one in Hp. apply fmap_Some in Hp as (ts' & Hp & ->).
      right. left. by exists p', ts'. }
    rewrite like_pattern_same in Hp by done.
    apply fmap_Some in Hp as (ts' & Hp & ->).
    right. right. right. by exists c, p', ts'.
Qed.

Lemma like_match_run ts s :
  Text.like_match (Text.any_run :: ts) s
  = Text.like_match ts s
    || match s with
       | EmptyString => false
       | String _ s' => Text.like_match (Text.any_run :: ts) s'
       end.
Proof. by destruct s. Qed.

Lemma like_match_run_Some ts s :
  Text.like_match (Text.any_run :: ts) s = true →
  ∃ x r, s = x +:+ r ∧ Text.like_match ts r = true.
Proof.
  induction s as [|c s IH]; rewrite like_match_run; intros [Hm|Hm]%orb_true_iff.
  - by exists "", "".
  - done.
  - by exists "", (String c s).
  - destruct (IH Hm) as (x & r & -> & Hr). by exists (String c x), r.
Qed.

Lemma like_match_run_app ts x s :
  Text.like_match ts s = true → Text.like_match (Text.any_run :: ts) (x +:+ s) = true.
Proof.
  intros Hm. induction x as [|c x IH]; rewrite like_match_run.
  - rewrite app_empty. by rewrite Hm.
  - rewrite app_String, IH. apply orb_true_r.
Qed.

Lemma like_match_sound ts : ∀ p s,
  Text.like_pattern p = Some ts → Text.like_match ts s = true → Spec.like p s.
Proof.
  induction ts as [|tok ts IH]; intros p s Hp Hm;
    apply like_pattern_Some in Hp
      as [[-> Hts]|[(p' & ts' & -> & Hts & Hp)|[(p' & ts' & -> & Hts & Hp)
          |[(c & p' & ts' & -> & Hts & Hp)
           |(c & p' & ts' & -> & H1 & H2 & H3 & Hts & Hp)]]]];
    simplify_eq.
  - destruct s; [constructor|done].
  - apply like_match_run_Some in Hm as (x & r & -> & Hr).
    apply Spec.like_run. by apply IH.
  - destruct s as [|d s]; [done|]. apply Spec.like_one. by apply IH.
  - destruct s as [|d s]; [done|]. cbn in Hm.
    apply andb_true_iff in Hm as [->%Ascii.eqb_eq Hm].
    apply Spec.like_escaped. by apply IH.
  - destruct s as [|d s]; [done|]. cbn in Hm.
    apply andb_true_iff in Hm as [->%Ascii.eqb_eq Hm].
    apply Spec.like_same; try done. by apply IH.
Qed.

Lemma like_match_complete p s :
  Spec.like p s → ∀ ts, Text.like_pattern p = Some ts → Text.like_match ts s = true.
Proof.
  induction 1 as [|p s x _ IH|p s c _ IH|p s c _ IH|p s c H1 H2 H3 _ IH];
    intros ts Hp.
  - by injection Hp as <-.
  - rewrite like_pattern_run in Hp. apply fmap_Some in Hp as (ts' & Hp & ->).
    apply like_match_run_app. by apply IH.
  - rewrite like_pattern_one in Hp. apply fmap_Some in Hp as (ts' & Hp & ->).
    cbn. by apply IH.
  - rewrite like_pattern_escaped in Hp. apply fmap_Some in Hp as (ts' & Hp & ->).
    cbn. rewrite Ascii.eqb_refl. by apply IH.
  - rewrite like_pattern_same in Hp by done.
    apply fmap_Some in Hp as (ts' & Hp & ->).
    cbn. rewrite Ascii.eqb_refl. by apply IH.
Qed.

Lemma like_match_iff p ts s :
  Text.like_pattern p = Some ts → Text.like_match ts s = true ↔ Spec.like p s.
Proof.
  intros Hp. split; [by apply like_match_sound|].
  intros Hl. by apply (like_match_complete p s).
Qed.

(** A pattern that ends in [%] is never refused. *)
Lemma like_pattern_closed p :
  is_Some (Text.like_pattern (p +:+ "%"))
  ∧ ∀ c, is_Some (Text.like_pattern (String c (p +:+ "%"))).
Proof.
  assert (∀ c r, is_Some (Text.like_pattern r) →
                 (∀ d r', r = String d r' → is_Some (Text.like_pattern r')) →
                 r ≠ "" → is_Some (Text.like_pattern (String c r))) as Hstep.
  { intros c r Hr Hr' Hne. destruct (decide (c = Text.backslash)) as [->|Hb].
    - destruct r as [|d r']; [done|]. rewrite like_pattern_escaped.
      apply fmap_is_Some. by apply (Hr' d).
    - cbn [Text.like_pattern]. rewrite (proj2 (Ascii.eqb_neq _ _) Hb).
      by apply fmap_is_Some. }
  induction p as [|d p [IH1 IH2]].
  - split; [by eexists|]. intros c. by destruct (decide (c = Text.backslash)) as [->|Hb];
      [|cbn [Text.like_pattern]; rewrite (proj2 (Ascii.eqb_neq _ _) Hb)].
  - split; [apply IH2|]. intros c. rewrite app_String. apply Hstep.
    + apply IH2.
    + by intros d' r' [= <- <-].
    + done.
Qed.

Lemma contains_pattern_Some q : ∃ pattern, Text.contains_pattern q = Some pattern.
Proof.
  unfold Text.contains_pattern. rewrite !lower_append.
  change (Text.toLowerCase "%") with "%". rewrite app_String, app_empty.
  apply (proj2 (like_pattern_closed (Text.toLowerCase q))).
Qed.

Lemma ilike_iff q pattern s :
  Text.contains_pattern q = Some pattern →
  Text.ilike pattern s = true ↔ Spec.contains_ilike q s.
Proof. intros Hp. by apply like_match_iff. Qed.

(** *** Queries without a character that a pattern reads *)

Lemma lower_special c d :
  d = "%"%char ∨ d = "_"%char ∨ d = Text.backslash →
  Text.lower_ascii c = d → c = d.
Proof.
  intros [->|[->| ->]];
    destruct c as [[] [] [] [] [] [] [] []]; by vm_compute.
Qed.

Lemma lower_plain sep q :
  sep = "%"%char ∨ sep = "_"%char ∨ sep = Text.backslash →
  Text.includes (String sep "") q = false →
  Text.includes (String sep "") (Text.toLowerCase q) = false.
Proof.
  intros Hsep. induction q as [|c q IH]; [done|]. cbn [Text.toLowerCase].
  rewrite !includes_char_cons. intros [Hc Hq]. split; [|by apply IH].
  intros Hl. apply Hc. by apply lower_special.
Qed.

Lemma like_run_iff p s :
  Spec.like (String "%" p) s ↔ ∃ x r, s = x +:+ r ∧ Spec.like p r.
Proof.
  split.
  - inversion 1; subst; try done. by eexists _, _.
  - intros (x & r & -> & Hr). by constructor.
Qed.

Lemma like_all s : Spec.like "%" s.
Proof. rewrite <- (append_empty_r s). apply Spec.like_run. constructor. Qed.

Lemma like_plain_iff q p s :
  Text.includes "%" q = false → Text.includes "_" q = false →
  Text.includes (String Text.backslash "") q = false →
  Spec.like (q +:+ p) s ↔ ∃ r, s = q +:+ r ∧ Spec.like p r.
Proof.
  revert s. induction q as [|c q IH]; intros s.
  - intros _ _ _. rewrite app_empty. split; [by exists s|]. by intros (r & -> & Hr).
  - intros [H1 Hq1]%includes_char_cons [H2 Hq2]%includes_char_cons
           [H3 Hq3]%includes_char_cons.
    rewrite app_String. split.
    + inversion 1 as [| | | |p' s' c' _ _ _ Hl]; subst; try done.
      apply IH in Hl as (r & -> & Hr); try done. by exists r.
    + intros (r & -> & Hr). rewrite app_String. apply Spec.like_same; try done.
      apply IH; try done. by exists r.
Qed.

Lemma contains_ilike_plain q s :
  Spec.plain_query q →
  Spec.contains_ilike q s ↔ Spec.substring_insensitive q s.
Proof.
  intros (H1 & H2 & H3). unfold Spec.contains_ilike, Spec.substring_insensitive.
  rewrite !lower_append. change (Text.toLowerCase "%") with "%".
  rewrite app_String, app_empty, like_run_iff.
  split.
  - intros (x & r & Hs & Hl). apply like_plain_iff in Hl as (post & -> & _);
      [|by apply lower_plain; auto..]. by exists x, post.
  - intros (pre & post & Hs). exists pre, (Text.toLowerCase q +:+ post).
    split; [done|]. apply like_plain_iff; [by apply lower_plain; auto..|].
    exists post. split; [done|apply like_all].
Qed.

Lemma contains_ilike_percent s : Spec.contains_ilike "%" s.
Proof.
  unfold Spec.contains_ilike. change (Text.toLowerCase ("%" +:+ "%" +:+ "%")) with "%%%".
  apply (Spec.like_run "%%" (Text.toLowerCase s) "").
  apply (Spec.like_run "%" (Text.toLowerCase s) ""). apply like_all.
Qed.

Lemma contains_ilike_underscore s : s ≠ "" → Spec.contains_ilike "_" s.
Proof.
  intros Hs. unfold Spec.contains_ilike.
  change (Text.toLowerCase ("%" +:+ "_" +:+ "%")) with "%_%".
  destruct s as [|c s]; [done|]. cbn [Text.toLowerCase].
  apply (Spec.like_run "_%" (String (Text.lower_ascii c) (Text.toLowerCase s)) "").
  apply Spec.like_one. apply like_all.
Qed.

Lemma search_where_iff userId q pattern i :
  Text.contains_pattern q = Some pattern →
  owned_by userId i &&
    (Text.ilike pattern (idea_title i)
     || Text.ilike pattern (idea_description i)
     || Text.has q (idea_tags i)) = true
  ↔ idea_userId i = userId ∧ Spec.search_match q i.
Proof.
  intros Hp. unfold owned_by, Spec.search_match, Text.has.
  rewrite andb_true_iff, !orb_true_iff, !(ilike_iff q) by done.
  rewrite String.eqb_eq, bool_decide_eq_true.
  tauto.
Qed.

Lemma newest_first_iff a b :
  Prisma.comes_first [Prisma.desc Z.compare idea_createdAt] a b
  ↔ Spec.newest_first a b.
Proof.
  unfold Prisma.comes_first, Prisma.desc, Spec.newest_first; simpl.
  destruct (Z.compare_spec (idea_createdAt b) (idea_createdAt a));
    split; intros; try done; lia.
Qed.

(** The rows [findMany] returns and the rows it leaves out make up the
    table. *)
Lemma findMany_partition {R} (where_ : R → bool) entries (t : gmap string R) :
  ∃ rest, (map_to_list t).*2 ≡ₚ Prisma.findMany where_ entries t ++ rest
          ∧ Forall (λ r, where_ r = true) (Prisma.findMany where_ entries t)
          ∧ Forall (λ r, where_ r ≠ true) rest.
Proof.
  exists (filter (λ r, ¬ where_ r = true) (map_to_list t).*2).
  unfold Prisma.findMany. rewrite merge_sort_Permutation. split; [|split].
  - by rewrite filter_app_complement.
  - apply Forall_forall. intros r Hr. by apply list_elem_of_filter in Hr as [? _].
  - apply Forall_forall. intros r Hr. by apply list_elem_of_filter in Hr as [? _].
Qed.

Lemma searchIdeas_spec userId q (db : gmap string Idea) :
  q ≠ "" →
  ∃ l rest,
    searchIdeas userId (VStr q) db = (Reply 200 l, db)
    ∧ (map_to_list db).*2 ≡ₚ l ++ rest
    ∧ Forall (λ i, idea_userId i = userId ∧ Spec.search_match q i) l
    ∧ Forall (λ i, ¬ (idea_userId i = userId ∧ Spec.search_match q i)) rest
    ∧ StronglySorted Spec.newest_first l.
Proof.
  intros Hq. handler searchIdeas. rewrite eqb_false_of_ne by done. simpl.
  destruct (contains_pattern_Some q) as [pattern Hp]. rewrite Hp. simpl.
  match goal with |- context [Prisma.findMany ?w ?e db] =>
    destruct (findMany_partition w e db) as (rest & Hperm & Hin & Hout);
    destruct (findMany_spec w e Spec.newest_first db newest_first_iff) as [_ Hs]
  end.
  { intros a b. unfold Spec.newest_first. lia. }
  { intros a b c. unfold Spec.newest_first. lia. }
  eexists _, rest. split; [done|]. split; [done|].
  split; [|split; [|done]].
  - eapply Forall_impl; [exact Hin|]. intros i Hi. by apply (search_where_iff _ _ pattern).
  - eapply Forall_impl; [exact Hout|]. intros i Hi Hm. apply Hi.
    by apply (search_where_iff _ _ pattern).
Qed.
End search.

(** C3, as the code has it.  Ideas search answers 400 when the query is
    missing (undefined or empty).  For a query string it answers 200 with a
    list, newest first, that holds exactly the caller's ideas whose title or
    description holds the query as the database searches for it, or one of
    whose tags is the query letter for letter: the tag test is exact and
    case-sensitive, so "blue" finds the tag "blue" and not the tag "Blue".
    The database reads the query as a pattern, letter case ignored: for a
    query without a percent sign, an underscore or a backslash the test on
    title and description is that the query is a substring; a percent sign
    alone is found in every text and an underscore alone in every text that
    is not empty. *)
Theorem search_ideas_exact_tags (userId : string) (query : value)
    (db : gmap string IdeasController.Idea) :
  (truthy query = false →
   IdeasController.searchIdeas userId query db
   = (Fail 400 "Search query is required", db))
  ∧ (∀ q, query = VStr q → q ≠ "" →
     ∃ l rest,
       IdeasController.searchIdeas userId query db = (Reply 200 l, db)
       ∧ (map_to_list db).*2 ≡ₚ l ++ rest
       ∧ Forall (λ i, IdeasController.idea_userId i = userId
                      ∧ Spec.search_match q i) l
       ∧ Forall (λ i, ¬ (IdeasController.idea_userId i = userId
                         ∧ Spec.search_match q i)) rest
       ∧ StronglySorted Spec.newest_first l)
  ∧ (∀ q s, Spec.plain_query q →
       Spec.contains_ilike q s ↔ Spec.substring_insensitive q s)
  ∧ (∀ s, Spec.contains_ilike "%" s)
  ∧ (∀ s, s ≠ "" → Spec.contains_ilike "_" s).
Proof.
  split_and!.
  - intros Hq. unfold IdeasController.searchIdeas, try_catch. by rewrite Hq.
  - intros q -> Hq. by apply searchIdeas_spec.
  - apply contains_ilike_plain.
  - apply contains_ilike_percent.
  - apply contains_ilike_underscore.
Qed.

(** The search of C3 at work: the query "blue" finds the idea tagged
    "blue". *)
Lemma search_ideas_exact_tags_witness :
  ∃ l rest,
    IdeasController.searchIdeas "u1" (VStr "blue")
      {[ "i1" := Sample.idea_Blue; "i2" := Sample.idea_blue ]}
    = (Reply 200 l, {[ "i1" := Sample.idea_Blue; "i2" := Sample.idea_blue ]})
    ∧ (map_to_list
         ({[ "i1" := Sample.idea_Blue; "i2" := Sample.idea_blue ]}
          : gmap string IdeasController.Idea)).*2 ≡ₚ l ++ rest
    ∧ Forall (λ i, IdeasController.idea_userId i = "u1"
                   ∧ Spec.search_match "blue" i) l
    ∧ Forall (λ i, ¬ (IdeasController.idea_userId i = "u1"
                      ∧ Spec.search_match "blue" i)) rest
    ∧ StronglySorted Spec.newest_first l.
Proof.
  apply (proj1 (proj2 (search_ideas_exact_tags "u1" (VStr "blue")
                         {[ "i1" := Sample.idea_Blue; "i2" := Sample.idea_blue ]}))).
  - reflexivity.
  - discriminate.
Defined.

(** C3 as stated fails: a tag that equals the query only up to letter case
    is a match for the claim, and the search does not return the idea. *)
Lemma search_tag_case_counterexample :
  (Spec.search_match_claimed "blue" Sample.idea_Blue
   ∧ IdeasController.searchIdeas "u1" (VStr "blue") {[ "i1" := Sample.idea_Blue ]}
     = (Reply 200 [], {[ "i1" := Sample.idea_Blue ]}))
  ∧ (Spec.search_match_claimed "BLUE" Sample.idea_blue
     ∧ IdeasController.searchIdeas "u1" (VStr "BLUE") {[ "i2" := Sample.idea_blue ]}
       = (Reply 200 [], {[ "i2" := Sample.idea_blue ]})).
Proof.
  split; (split; [|by vm_compute]);
    right; right; eexists; (split; [by apply list_elem_of_here | done]).
Qed.

(** ** Bulk import *)
Section bulk_import.
Import NotesController TasksController IdeasController.

(** Mapping twice with functions that may throw is mapping once with their
    composition: the first record that fails stops either. *)
Lemma bulk_pipeline {D R} (F : value → option D)
    (G : D → option (option string * (string → R)))
    (imported : value → option (string → R)) (records : list value) :
  (∀ r, F r ≫= G = (λ row, (None, row)) <$> imported r) →
  mapM F records ≫= mapM G
  = fmap (λ row, (None, row)) <$> mapM imported records.
Proof.
  intros Hr. induction records as [|r records IH]; [done|].
  cbn. specialize (Hr r).
  destruct (F r) as [d|]; cbn in *.
  - destruct (mapM F records) as [ds|]; cbn in *.
    + rewrite Hr, IH. destruct (imported r); cbn; [|done].
      by destruct (mapM imported records).
    + destruct (imported r); cbn; [|done].
      destruct (mapM imported records); [done|].
      destruct (G d) as [[??]|]; cbn in *; congruence.
  - by destruct (imported r).
Qed.

(** With no key named, [createMany] inserts every row under a new key. *)
Lemma createMany_inserted {R} (rows : list (string → R)) (db : gmap string R) :
  (Prisma.createMany ((λ row, (None, row)) <$> rows) db).1 = length rows
  ∧ Spec.inserted rows db (Prisma.createMany ((λ row, (None, row)) <$> rows) db).2.
Proof.
  revert db. induction rows as [|row rows IH]; intros db.
  - split; [done|]. exists []. repeat split; try done.
    all: try constructor; try (intros k Hk; by apply elem_of_nil in Hk);
      try (simpl; lia).
  - cbn. unfold Prisma.create, Prisma.new_id. cbn.
    set (k0 := fresh_string "id" db).
    assert (db !! k0 = None) as Hk0 by apply fresh_string_fresh.
    specialize (IH (<[k0 := row k0]> db)).
    destruct (Prisma.createMany _ _) as [n db'] eqn:Hcm. cbn in *.
    destruct IH as [Hn (ids & Hlen & Hnd & Hfresh & Hin & Hout & Hsize)].
    assert (k0 ∉ ids) as Hk0ids.
    { intros Hk. apply Hfresh in Hk. by rewrite lookup_insert_eq in Hk. }
    split; [by rewrite Hn|]. exists (k0 :: ids). repeat split.
    + simpl. by rewrite Hlen.
    + by constructor.
    + intros k [->|Hk]%elem_of_cons; [done|].
      specialize (Hfresh k Hk).
      destruct (decide (k0 = k)) as [->|Hne]; [done|].
      by rewrite lookup_insert_ne in Hfresh.
    + intros [|m] k row' Hk Hrow; cbn in *.
      * injection Hk as <-. injection Hrow as <-.
        by rewrite Hout, lookup_insert_eq.
      * eauto.
    + intros k Hk. apply not_elem_of_cons in Hk as [Hne Hk].
      by rewrite Hout, lookup_insert_ne.
    + rewrite Hsize, map_size_insert_None by done. simpl. lia.
Qed.

(** What the handlers do after the check of the array. *)
Lemma bulk_outcome {D R} (F : value → option D)
    (G : D → option (option string * (string → R)))
    (imported : value → option (string → R)) (records : list value)
    (msg : string) (db : gmap string R) :
  (∀ r, F r ≫= G = (λ row, (None, row)) <$> imported r) →
  let out :=
    try_catch msg db
      (ds ← mapM F records;
       rows ← mapM G ds;
       let '(count, db') := Prisma.createMany rows db in
       Some (Reply 201 count, db')) in
  match mapM imported records with
  | Some rows => ∃ db', out = (Reply 201 (length records), db')
                        ∧ Spec.inserted rows db db'
  | None => out = (Fail 500 msg, db)
  end.
Proof.
  intros Hr out. subst out.
  pose proof (bulk_pipeline F G imported records Hr) as Hp.
  destruct (mapM imported records) as [rows|] eqn:Hrows; cbn in Hp.
  - destruct (mapM F records) as [ds|]; cbn in *; [|done].
    rewrite Hp. cbn.
    destruct (createMany_inserted rows db) as [Hn Hins].
    destruct (Prisma.createMany _ db) as [n db']. cbn in *.
    exists db'. split; [|done]. subst n.
    by rewrite (length_mapM _ _ _ Hrows).
  - destruct (mapM F records) as [ds|]; cbn in *; [|done]. by rewrite Hp.
Qed.
Lemma nullable_or_null (d : value) :
  Prisma.nullable Prisma.String_ (Prisma.Js (or d VNull))
  = if truthy d then Some <$> typeof_string d else Some None.
Proof.
  unfold or. destruct d as [| |[]|n|s| |]; try done; simpl.
  - by destruct (n =? 0).
  - by destruct (String.eqb s "").
Qed.

Lemma nullable_date `{Platform} (d : value) :
  Prisma.nullable Prisma.DateTime_
    (if truthy d then Prisma.Date (new_Date d) else Prisma.Js VNull)
  = if truthy d then Some <$> new_Date d else Some None.
Proof. destruct (truthy d); [|done]. simpl. by destruct (new_Date d). Qed.

Lemma string_list_or_empty (tags : value) :
  Prisma.StringList_ (Prisma.Js (if isArray tags then tags else VArr []))
  = match tags with
    | VArr tags => mapM typeof_string tags
    | _ => Some []
    end.
Proof. by destruct tags. Qed.

Lemma note_record userId now r :
  (title ← prop "title" r;
   content ← prop "content" r;
   color ← prop "color" r;
   isPinned ← prop "isPinned" r;
   Some [("title", Prisma.Js title); ("content", Prisma.Js content);
         ("color", Prisma.Js (or color (VStr "#ffffff")));
         ("isPinned", Prisma.Js (or isPinned (VBool false)));
         ("userId", Prisma.Js (VStr userId))])
  ≫= (λ data, key ← Prisma.key_of_data data;
              row ← note_of_data data now;
              Some (key, row))
  = (λ row, (None, row)) <$> Spec.imported_note userId now r.
Proof. by destruct r. Qed.

Lemma task_record `{Platform} userId now r :
  (title ← prop "title" r;
   description ← prop "description" r;
   completed ← prop "completed" r;
   priority ← prop "priority" r;
   dueDate ← prop "dueDate" r;
   Some [("title", Prisma.Js title);
         ("description", Prisma.Js (or description VNull));
         ("completed", Prisma.Js (or completed (VBool false)));
         ("priority", Prisma.Js (or priority (VStr "medium")));
         ("dueDate", if truthy dueDate then Prisma.Date (new_Date dueDate)
                     else Prisma.Js VNull);
         ("userId", Prisma.Js (VStr userId))])
  ≫= (λ data, key ← Prisma.key_of_data data;
              row ← task_of_data data now;
              Some (key, row))
  = (λ row, (None, row)) <$> Spec.imported_task userId now r.
Proof.
  unfold Spec.imported_task.
  rewrite <- nullable_or_null, <- nullable_date. by destruct r.
Qed.

Lemma idea_record userId now r :
  (title ← prop "title" r;
   description ← prop "description" r;
   category ← prop "category" r;
   tags ← prop "tags" r;
   Some [("title", Prisma.Js title); ("description", Prisma.Js description);
         ("category", Prisma.Js (or category (VStr "general")));
         ("tags", Prisma.Js (if isArray tags then tags else VArr []));
         ("userId", Prisma.Js (VStr userId))])
  ≫= (λ data, key ← Prisma.key_of_data data;
              row ← idea_of_data data now;
              Some (key, row))
  = (λ row, (None, row)) <$> Spec.imported_idea userId now r.
Proof.
  unfold Spec.imported_idea. rewrite <- string_list_or_empty. by destruct r.
Qed.
(** The check of the array passes exactly for a non-empty array. *)
Lemma array_check (list : value) :
  negb (isArray list) || (length (elements list) =? 0)%nat
  = match list with VArr (_ :: _) => false | _ => true end.
Proof. by destruct list as [| | | | |[|]|]. Qed.

Lemma bulkCreateNotes_contract userId body now (db : gmap string Note) :
  Spec.bulk_import_contract (Spec.imported_note userId now) (get "notes" body)
    "Notes array is required" "Failed to sync notes" db
    (bulkCreateNotes userId body now db).
Proof.
  unfold bulkCreateNotes, Spec.bulk_import_contract. rewrite array_check.
  destruct (get "notes" body) as [| | | | |[|r records]|]; try done.
  apply (bulk_outcome _ _ (Spec.imported_note userId now) (r :: records)).
  apply note_record.
Qed.

Lemma bulkCreateTasks_contract `{Platform} userId body now (db : gmap string Task) :
  Spec.bulk_import_contract (Spec.imported_task userId now) (get "tasks" body)
    "Tasks array is required" "Failed to sync tasks" db
    (bulkCreateTasks userId body now db).
Proof.
  unfold bulkCreateTasks, Spec.bulk_import_contract. rewrite array_check.
  destruct (get "tasks" body) as [| | | | |[|r records]|]; try done.
  apply (bulk_outcome _ _ (Spec.imported_task userId now) (r :: records)).
  apply task_record.
Qed.

Lemma bulkCreateIdeas_contract userId body now (db : gmap string Idea) :
  Spec.bulk_import_contract (Spec.imported_idea userId now) (get "ideas" body)
    "Ideas array is required" "Failed to sync ideas" db
    (bulkCreateIdeas userId body now db).
Proof.
  unfold bulkCreateIdeas, Spec.bulk_import_contract. rewrite array_check.
  destruct (get "ideas" body) as [| | | | |[|r records]|]; try done.
  apply (bulk_outcome _ _ (Spec.imported_idea userId now) (r :: records)).
  apply idea_record.
Qed.

(** Create makes the row BulkImport makes of the same record. *)
Lemma createNote_imported userId body now (db : gmap string Note) row :
  Spec.imported_note userId now body = Some row →
  truthy (get "title" body) = true → truthy (get "content" body) = true →
  createNote userId body now db
  = (Reply 201 (row (Prisma.new_id db)),
     <[Prisma.new_id db := row (Prisma.new_id db)]> db).
Proof.
  intros Hrow Ht Hc. unfold createNote, try_catch. rewrite Ht, Hc. cbn.
  pose proof (note_record userId now body) as Hr.
  rewrite Hrow in Hr. destruct body; try done; cbn in Hr;
    match type of Hr with
    | mbind _ ?x = _ => destruct x as [row'|] eqn:Hx; cbn in Hr; [|done]
    end; injection Hr as ->; unfold note_of_data in Hx |- *; cbn in Hx |- *;
    by rewrite Hx.
Qed.
Lemma createTask_imported `{Platform} userId body now (db : gmap string Task) row :
  Spec.imported_task userId now body = Some row →
  truthy (get "title" body) = true →
  createTask userId body now db
  = (Reply 201 (row (Prisma.new_id db)),
     <[Prisma.new_id db := row (Prisma.new_id db)]> db).
Proof.
  intros Hrow Ht. unfold createTask, try_catch. rewrite Ht. cbn.
  pose proof (task_record userId now body) as Hr.
  rewrite Hrow in Hr. destruct body; try done; cbn in Hr;
    match type of Hr with
    | mbind _ ?x = _ => destruct x as [row'|] eqn:Hx; cbn in Hr; [|done]
    end; injection Hr as ->; unfold task_of_data in Hx |- *; cbn in Hx |- *;
    by rewrite Hx.
Qed.

Lemma createIdea_imported userId body now (db : gmap string Idea) row :
  Spec.imported_idea userId now body = Some row →
  truthy (get "title" body) = true → truthy (get "description" body) = true →
  createIdea userId body now db
  = (Reply 201 (row (Prisma.new_id db)),
     <[Prisma.new_id db := row (Prisma.new_id db)]> db).
Proof.
  intros Hrow Ht Hd. unfold createIdea, try_catch. rewrite Ht, Hd. cbn.
  pose proof (idea_record userId now body) as Hr.
  rewrite Hrow in Hr. destruct body; try done; cbn in Hr;
    match type of Hr with
    | mbind _ ?x = _ => destruct x as [row'|] eqn:Hx; cbn in Hr; [|done]
    end; injection Hr as ->; unfold idea_of_data in Hx |- *; cbn in Hx |- *;
    by rewrite Hx.
Qed.
End bulk_import.

(** C1, as the code has it.  For notes, tasks and ideas alike, BulkImport
    fails with 400 and inserts nothing when the request holds no non-empty
    array of records.  Otherwise, when every record fits the columns of its
    type, it answers 201 with a count equal to the number N of records and
    the table is the old one with exactly N rows inserted, one for each
    record, each under an identifier the database assigns (an identifier in
    the request is not read, so no record is skipped), stamped with the
    caller's id and filled with the defaults of its type (notes: color
    '#ffffff', not pinned; tasks: priority 'medium', not completed; ideas:
    category 'general', no tags); when some record does not fit, it answers
    500 and inserts nothing.  Create makes the same row of such a record. *)
Theorem bulk_import_inserts_every_record `{Platform} (userId : string)
    (body : value) (now : Z)
    (notes : gmap string NotesController.Note)
    (tasks : gmap string TasksController.Task)
    (ideas : gmap string IdeasController.Idea) :
  Spec.bulk_import_contract (Spec.imported_note userId now) (get "notes" body)
    "Notes array is required" "Failed to sync notes" notes
    (NotesController.bulkCreateNotes userId body now notes)
  ∧ Spec.bulk_import_contract (Spec.imported_task userId now) (get "tasks" body)
      "Tasks array is required" "Failed to sync tasks" tasks
      (TasksController.bulkCreateTasks userId body now tasks)
  ∧ Spec.bulk_import_contract (Spec.imported_idea userId now) (get "ideas" body)
      "Ideas array is required" "Failed to sync ideas" ideas
      (IdeasController.bulkCreateIdeas userId body now ideas)
  ∧ (∀ row, Spec.imported_note userId now body = Some row →
       truthy (get "title" body) = true → truthy (get "content" body) = true →
       NotesController.createNote userId body now notes
       = (Reply 201 (row (Prisma.new_id notes)),
          <[Prisma.new_id notes := row (Prisma.new_id notes)]> notes))
  ∧ (∀ row, Spec.imported_task userId now body = Some row →
       truthy (get "title" body) = true →
       TasksController.createTask userId body now tasks
       = (Reply 201 (row (Prisma.new_id tasks)),
          <[Prisma.new_id tasks := row (Prisma.new_id tasks)]> tasks))
  ∧ (∀ row, Spec.imported_idea userId now body = Some row →
       truthy (get "title" body) = true →
       truthy (get "description" body) = true →
       IdeasController.createIdea userId body now ideas
       = (Reply 201 (row (Prisma.new_id ideas)),
          <[Prisma.new_id ideas := row (Prisma.new_id ideas)]> ideas)).
Proof.
  repeat split.
  - apply bulkCreateNotes_contract.
  - apply bulkCreateTasks_contract.
  - apply bulkCreateIdeas_contract.
  - intros. by apply createNote_imported.
  - intros. by apply createTask_imported.
  - intros. by apply createIdea_imported.
Qed.

(** C1 at work: a request with one note, whose identifier is that of a
    stored note, inserts one row (with the defaults) and counts it. *)
Lemma bulk_import_inserts_every_record_witness :
  ∃ db',
    NotesController.bulkCreateNotes "u1"
      (VObj [("notes", VArr [VObj [("id", VStr "n1"); ("title", VStr "A");
                                   ("content", VStr "B")]])])
      9 {[ "n1" := Sample.note1 ]}
    = (Reply 201 1%nat, db')
    ∧ Spec.inserted
        [λ id, {| NotesController.note_id := id;
                  NotesController.note_title := "A";
                  NotesController.note_content := "B";
                  NotesController.note_color := "#ffffff";
                  NotesController.note_isPinned := false;
                  NotesController.note_userId := "u1";
                  NotesController.note_createdAt := 9 |}]
        {[ "n1" := Sample.note1 ]} db'.
Proof.
  exact (proj1 (bulk_import_inserts_every_record (H := Sample.platform) "u1"
    (VObj [("notes", VArr [VObj [("id", VStr "n1"); ("title", VStr "A");
                                 ("content", VStr "B")]])])
    9 {[ "n1" := Sample.note1 ]} ∅ ∅)).
Defined.

(** C1 as stated fails: the record carries the identifier of a stored note,
    so the claim has it skipped and the count 0; the handler inserts it under
    a new identifier and counts 1. *)
Lemma bulk_import_collision_counterexample :
  Spec.claimed_count ({[ "n1" := Sample.note1 ]} : gmap string NotesController.Note)
    [VObj [("id", VStr "n1"); ("title", VStr "A"); ("content", VStr "B")]]
  = 0%nat
  ∧ ∃ db',
      NotesController.bulkCreateNotes "u1"
        (VObj [("notes", VArr [VObj [("id", VStr "n1"); ("title", VStr "A");
                                     ("content", VStr "B")]])])
        9 {[ "n1" := Sample.note1 ]}
      = (Reply 201 1%nat, db')
      ∧ size db' = 2%nat
      ∧ db' !! "n1" = Some Sample.note1.
Proof.
  split; [by vm_compute|]. eexists. split; [by vm_compute|].
  split; by vm_compute.
Qed.

(** C7 at work: the owner deletes note n1 once; the second Delete, and the
    Delete by another user, answer 404. *)
Lemma delete_not_found_and_not_idempotent_witness :
  (NotesController.deleteNote "u2" "n1" {[ "n1" := Sample.note1 ]}
   = (Fail 404 "Note not found", {[ "n1" := Sample.note1 ]}))
  ∧ (NotesController.deleteNote "u1" "n1" {[ "n1" := Sample.note1 ]}
     = (Reply 200 (), delete "n1" {[ "n1" := Sample.note1 ]})
     ∧ delete "n1" ({[ "n1" := Sample.note1 ]} : gmap string NotesController.Note)
       !! "n1" = None
     ∧ (∀ j, j ≠ "n1" →
        delete "n1" ({[ "n1" := Sample.note1 ]} : gmap string NotesController.Note)
        !! j = ({[ "n1" := Sample.note1 ]} : gmap string NotesController.Note) !! j)
     ∧ NotesController.deleteNote "u1" "n1" (delete "n1" {[ "n1" := Sample.note1 ]})
       = (Fail 404 "Note not found", delete "n1" {[ "n1" := Sample.note1 ]})).
Proof.
  split.
  - apply (proj1 (delete_not_found_and_not_idempotent "u2" "n1"
                    {[ "n1" := Sample.note1 ]} ∅ ∅)).
    intros n Hn. rewrite lookup_singleton_eq in Hn. injection Hn as <-.
    discriminate.
  - apply (proj1 (proj2 (delete_not_found_and_not_idempotent "u1" "n1"
                           {[ "n1" := Sample.note1 ]} ∅ ∅)) Sample.note1);
      reflexivity.
Defined.

(** C4 at work: an Update of note n1 that supplies only a title. *)
Lemma update_keeps_unsupplied_fields_witness :
  let r := NotesController.updateNote "u1" "n1" (VObj [("title", VStr "New")])
             {[ "n1" := Sample.note1 ]} in
  ∃ n', r.2 !! "n1" = Some n'
    ∧ (r.1 = Reply 200 n'
       ∨ (r.1 = Fail 500 "Failed to update note" ∧ n' = Sample.note1))
    ∧ NotesController.note_id n' = "n1"
    ∧ NotesController.note_userId n' = "u1"
    ∧ NotesController.note_createdAt n' = 5
    ∧ (get "title" (VObj [("title", VStr "New")]) = VUndefined →
       NotesController.note_title n' = "Groceries")
    ∧ (get "content" (VObj [("title", VStr "New")]) = VUndefined →
       NotesController.note_content n' = "milk")
    ∧ (get "color" (VObj [("title", VStr "New")]) = VUndefined →
       NotesController.note_color n' = "#3b82f6")
    ∧ (get "isPinned" (VObj [("title", VStr "New")]) = VUndefined →
       NotesController.note_isPinned n' = false)
    ∧ (∀ j, j ≠ "n1" →
       r.2 !! j = ({[ "n1" := Sample.note1 ]} : gmap string NotesController.Note) !! j).
Proof.
  apply (proj1 (update_keeps_unsupplied_fields (H := Sample.platform) "u1" "n1"
                  (VObj [("title", VStr "New")])
                  {[ "n1" := Sample.note1 ]} ∅ ∅) Sample.note1);
    reflexivity.
Defined.



(** ** The client stores *)
Section stores.
Import Zustand Http.









End stores.



(** C2, as the code has it.  Guest-mode Add of {title: "A", content: "B"}
    to a Notes store whose list is empty returns the new note and leaves a
    list of exactly that note: the generated id, the title and the content,
    the two timestamps, and nothing else; it has no color and no pinned flag
    (both read as undefined, which is falsy).  Loading and error stay as
    they were, and the persisted copy is the list in memory. *)
Theorem guest_add_note_to_empty_store
    (api : Http.method → string → value → Http.axios) (b : Zustand.browser)
    (st : Zustand.store) :
  Zustand.items (Zustand.state st) = [] →
  let note := VObj [("id", VStr (Zustand.generateId b)); ("title", VStr "A");
                    ("content", VStr "B");
                    ("createdAt", VStr (Zustand.clock b 0));
                    ("updatedAt", VStr (Zustand.clock b 1))] in
  let out := NotesStore.addNote api
               (VObj [("title", VStr "A"); ("content", VStr "B")])
               false b st in
  out.1 = Some (Zustand.success note)
  ∧ Zustand.items (Zustand.state out.2) = [note]
  ∧ Zustand.loading (Zustand.state out.2) = Zustand.loading (Zustand.state st)
  ∧ Zustand.error (Zustand.state out.2) = Zustand.error (Zustand.state st)
  ∧ Zustand.storage out.2
    = Some (VObj [("notes", VArr (Zustand.items (Zustand.state out.2)))])
  ∧ get "color" note = VUndefined
  ∧ get "isPinned" note = VUndefined
  ∧ truthy (get "isPinned" note) = false.
Proof.
  intros Hempty note out. subst note out. cbn. rewrite Hempty. by repeat split.
Qed.

(** C2 at work, on a store that was just created. *)
Lemma guest_add_note_to_empty_store_witness :
  let b := Sample.guest_browser in
  let note := VObj [("id", VStr (Zustand.generateId b)); ("title", VStr "A");
                    ("content", VStr "B");
                    ("createdAt", VStr (Zustand.clock b 0));
                    ("updatedAt", VStr (Zustand.clock b 1))] in
  let out := NotesStore.addNote Sample.offline
               (VObj [("title", VStr "A"); ("content", VStr "B")])
               false b Zustand.create in
  out.1 = Some (Zustand.success note)
  ∧ Zustand.items (Zustand.state out.2) = [note]
  ∧ Zustand.loading (Zustand.state out.2) = false
  ∧ Zustand.error (Zustand.state out.2) = VNull
  ∧ Zustand.storage out.2
    = Some (VObj [("notes", VArr (Zustand.items (Zustand.state out.2)))])
  ∧ get "color" note = VUndefined
  ∧ get "isPinned" note = VUndefined
  ∧ truthy (get "isPinned" note) = false.
Proof.
  exact (guest_add_note_to_empty_store Sample.offline Sample.guest_browser
           Zustand.create eq_refl).
Defined.

(** C2 as stated fails: after the guest Add the one note of the list has no
    color and no pinned flag. *)
Lemma guest_add_defaults_counterexample :
  ¬ Spec.guest_note_with_defaults
      (NotesStore.addNote Sample.offline
         (VObj [("title", VStr "A"); ("content", VStr "B")]) false
         Sample.guest_browser Zustand.create).2.
Proof.
  intros (note & Hitems & [color Hcolor] & Hpinned).
  injection Hitems as <-. discriminate Hcolor.
Qed.

(** ** Guest Add and authenticated Create of a task *)
Section task_completed.
Import Zustand Http TasksController.

Lemma assoc_set_eq k v fs : assoc k (JS.set k v fs) = v.
Proof.
  induction fs as [|[k' v'] fs IH]; simpl.
  - by rewrite String.eqb_refl.
  - destruct (String.eqb k k') eqn:Hk; simpl; rewrite ?String.eqb_refl, ?Hk; done.
Qed.

Lemma assoc_set_ne k k' v fs : k ≠ k' → assoc k (JS.set k' v fs) = assoc k fs.
Proof.
  intros Hne. induction fs as [|[k0 v0] fs IH]; simpl.
  - by rewrite eqb_false_of_ne.
  - destruct (String.eqb k' k0) eqn:Hk; simpl.
    + apply String.eqb_eq in Hk as <-. by rewrite !eqb_false_of_ne.
    + by rewrite IH.
Qed.

Lemma guest_addTask_not_completed api taskData b st :
  ∃ task,
    (TasksStore.addTask api taskData false b st).1 = Some (success task)
    ∧ items (state (TasksStore.addTask api taskData false b st).2)
      = task :: items (state st)
    ∧ get "completed" task = VBool false.
Proof.
  eexists. split; [done|]. split; [done|]. simpl.
  rewrite !assoc_set_ne by done. apply assoc_set_eq.
Qed.

Lemma createTask_honors_completed `{Platform} userId body now
    (db : gmap string Task) task db' :
  get "completed" body = VBool true →
  createTask userId body now db = (Reply 201 task, db') →
  task_completed task = true ∧ db' !! task_id task = Some task.
Proof.
  intros Hc. unfold createTask, try_catch. rewrite Hc.
  destruct (negb (truthy (get "title" body))); [done|].
  match goal with |- context [task_of_data ?d now] =>
    destruct (task_of_data d now) as [row|] eqn:Hrow end; cbn; [|done].
  intros [= <- <-]. unfold task_of_data in Hrow. cbn in Hrow.
  repeat match type of Hrow with
         | mbind _ ?c = Some _ =>
             let E := fresh "E" in destruct c eqn:E; cbn in Hrow; [|done]
         end.
  injection Hrow as <-. cbn. split; [done | by rewrite lookup_insert_eq].
Qed.

Lemma authenticated_addTask_prepends `{Platform} api taskData b st reply task :
  api POST "/tasks" taskData = Resolved reply →
  data reply = Server.one "task" Server.task_json task →
  (TasksStore.addTask api taskData true b st).1
  = Some (success (Server.task_json task))
  ∧ items (state (TasksStore.addTask api taskData true b st).2)
    = Server.task_json task :: items (state st)
  ∧ get "completed" (Server.task_json task) = VBool (task_completed task).
Proof.
  intros Hapi Hdata. unfold TasksStore.addTask. cbn. rewrite Hapi, Hdata. done.
Qed.
End task_completed.

(** C9.  Guest-mode Add on the Tasks store always stores the record with
    completed false, whatever the supplied fields say (the store writes the
    flag after spreading them).  The authenticated Create honors a supplied
    completed=true: a task the server creates from such a request is
    completed, and the store prepends the record the server answers. *)
Theorem guest_add_task_resets_completed `{Platform}
    (api : Http.method → string → value → Http.axios)
    (taskData : value) (b : Zustand.browser) (st : Zustand.store)
    (userId : string) (now : Z) (db : gmap string TasksController.Task) :
  (∃ task,
     (TasksStore.addTask api taskData false b st).1 = Some (Zustand.success task)
     ∧ Zustand.items (Zustand.state (TasksStore.addTask api taskData false b st).2)
       = task :: Zustand.items (Zustand.state st)
     ∧ get "completed" task = VBool false)
  ∧ (∀ task db',
     get "completed" taskData = VBool true →
     TasksController.createTask userId taskData now db = (Reply 201 task, db') →
     TasksController.task_completed task = true
     ∧ db' !! TasksController.task_id task = Some task
     ∧ (∀ reply,
        api Http.POST "/tasks" taskData = Http.Resolved reply →
        Http.data reply = Server.one "task" Server.task_json task →
        (TasksStore.addTask api taskData true b st).1
        = Some (Zustand.success (Server.task_json task))
        ∧ Zustand.items (Zustand.state (TasksStore.addTask api taskData true b st).2)
          = Server.task_json task :: Zustand.items (Zustand.state st)
        ∧ get "completed" (Server.task_json task) = VBool true)).
Proof.
  split; [apply guest_addTask_not_completed|].
  intros task db' Hc Hcreate.
  destruct (createTask_honors_completed _ _ _ _ _ _ Hc Hcreate) as [Ht Hdb].
  split; [done|]. split; [done|]. intros reply Hapi Hdata.
  destruct (authenticated_addTask_prepends api taskData b st reply task Hapi Hdata)
    as (?&?&Hg).
  by rewrite Hg, Ht.
Qed.

(** C9 at work: the fields {title: "T", completed: true}, added as a guest
    and created on the server for user u1. *)
Lemma guest_add_task_resets_completed_witness :
  let taskData := VObj [("title", VStr "T"); ("completed", VBool true)] in
  let api : Http.method → string → value → Http.axios := λ _ _ body,
    Http.Resolved
      (Http.json (Server.one "task" (Server.task_json (H := Sample.platform)))
         (TasksController.createTask (H := Sample.platform) "u1" body 9 ∅).1) in
  let b := Sample.guest_browser in
  (∃ task,
     (TasksStore.addTask api taskData false b Zustand.create).1
     = Some (Zustand.success task)
     ∧ get "completed" task = VBool false)
  ∧ (∃ task,
     (TasksStore.addTask api taskData true b Zustand.create).1
     = Some (Zustand.success task)
     ∧ get "completed" task = VBool true).
Proof.
  intros taskData api b.
  pose proof (guest_add_task_resets_completed (H := Sample.platform)
                api taskData b Zustand.create "u1" 9 ∅) as [Hguest Hauth].
  split.
  - destruct Hguest as (task & Hr & _ & Hc). by exists task.
  - destruct (Hauth
                {| TasksController.task_id := "id";
                   TasksController.task_title := "T";
                   TasksController.task_description := None;
                   TasksController.task_completed := true;
                   TasksController.task_priority := TasksController.medium;
                   TasksController.task_dueDate := None;
                   TasksController.task_userId := "u1";
                   TasksController.task_createdAt := 9 |}
                _ eq_refl eq_refl) as (_ & _ & Hstore).
    destruct (Hstore _ eq_refl eq_refl) as (Hr & _ & Hc).
    eexists. split; [exact Hr | exact Hc].
Defined.

(** ** Registration with a sync that fails part-way *)
Section registration.
Import Zustand Http Client.
Context `{Platform}.

(** A registration that is answered with a session has stored the account. *)
Lemma register_Reply body salt now (users users' : gmap string AuthController.User)
    s session :
  AuthController.register body salt now users = (Reply s session, users') →
  s = 201%nat
  ∧ ∃ u, users' !! AuthController.session_email session = Some u
         ∧ AuthController.user_id u = AuthController.session_id session
         ∧ AuthController.user_email u = AuthController.session_email session.
Proof.
  unfold AuthController.register, try_catch.
  destruct (negb _ || negb _); [done|].
  destruct (Prisma.String_ _) as [e|]; cbn; [|done].
  destruct (users !! e); [done|].
  repeat match goal with
         | |- context [mbind _ ?c] => destruct c as [?|]; cbn; [|done]
         end.
  intros [= <- <- <-]. split; [done|]. eexists. cbn.
  rewrite lookup_insert_eq. done.
Qed.

Lemma register_Fail body salt now (users users' : gmap string AuthController.User)
    s e :
  AuthController.register body salt now users = (Fail s e, users') →
  ok s = false.
Proof.
  unfold AuthController.register, try_catch.
  destruct (negb _ || negb _); [by intros [= <- _]|].
  destruct (Prisma.String_ _) as [em|]; cbn; [|by intros [= <- _]].
  destruct (users !! em); [by intros [= <- _]|].
  repeat match goal with
         | |- context [mbind _ ?c] =>
             destruct c as [?|]; cbn; [|by intros [= <- _]]
         end.
  done.
Qed.

(** The two ways a BulkImport ends. *)
Lemma contract_cases {R} (imported : value → option (string → R)) list
    required failed (db : gmap string R) out :
  Spec.bulk_import_contract imported list required failed db out →
  (∃ records rows db',
     list = VArr records ∧ records ≠ []
     ∧ mapM imported records = Some rows
     ∧ out = (Reply 201 (length records), db')
     ∧ Spec.inserted rows db db')
  ∨ (∃ s e, out = (Fail s e, db) ∧ (s = 400 ∨ s = 500)%nat).
Proof.
  unfold Spec.bulk_import_contract. intros Hc.
  destruct list as [| | | | |[|r records]|];
    try (right; eexists _, _; split; [exact Hc | by left]).
  destruct (mapM imported (r :: records)) as [rows|] eqn:Hrows.
  - destruct Hc as (db' & -> & Hins). left. by eexists _, rows, db'.
  - right. eexists _, _. split; [exact Hc | by right].
Qed.
Lemma authMiddleware_status authorization now s e :
  AuthMiddleware.authMiddleware authorization now = AuthMiddleware.Answered s e →
  (s = 401 ∨ s = 500)%nat.
Proof.
  unfold AuthMiddleware.authMiddleware. intros Ha.
  repeat case_match; simplify_eq; auto.
Qed.

(** A protected sync route either answers 201 after importing every record,
    or answers an error and leaves its table as it was. *)
Lemma protected_bulk {R} (imported : string → Z → value → option (string → R))
    (list : value) required failed
    (handler : string → gmap string R → response nat * gmap string R)
    authorization now (t : gmap string R) :
  (∀ userId db, Spec.bulk_import_contract (imported userId now) list
                  required failed db (handler userId db)) →
  let out := Server.protected Server.count_json authorization now handler t in
  (ok (status out.1) = true ∧ Spec.synced imported list t out.2)
  ∨ (ok (status out.1) = false ∧ out.2 = t).
Proof.
  intros Hc. unfold Server.protected.
  destruct (AuthMiddleware.authMiddleware authorization now) as [userId ?|s e] eqn:Ha.
  - destruct (contract_cases _ _ _ _ _ _ (Hc userId t))
      as [(records & rows & db' & -> & Hne & Hrows & -> & Hins)
         |(s & e & -> & [-> | ->])]; cbn.
    + left. split; [done|]. by exists userId, now, records, rows.
    + by right.
    + by right.
  - right. cbn. by destruct (authMiddleware_status _ _ _ _ Ha) as [-> | ->].
Qed.
(** What a sync request does to the world. *)
Lemma post_notes_sync records reach w ax w' :
  post "/notes/sync" (VObj [("notes", VArr records)]) reach w = (ax, w') →
  Spec.browser_kept w w'
  ∧ Server.users (server w') = Server.users (server w)
  ∧ Server.tasks (server w') = Server.tasks (server w)
  ∧ Server.ideas (server w') = Server.ideas (server w)
  ∧ match ax with
    | Resolved _ =>
        Spec.synced Spec.imported_note (jsonify (VArr records))
          (Server.notes (server w)) (Server.notes (server w'))
    | Rejected _ => Server.notes (server w') = Server.notes (server w)
    end.
Proof.
  unfold post. destruct reach as [[salt now]|]; [|by intros [= <- <-]].
  match goal with |- context [Server.post _ ?a ?b _ _ _] =>
    change (Server.post "/notes/sync" a b salt now (server w))
      with (let '(r, t) := Server.protected Server.count_json a now
                (λ userId, NotesController.bulkCreateNotes userId b now)
                (Server.notes (server w)) in
            (r, {| Server.users := Server.users (server w); Server.notes := t;
                   Server.tasks := Server.tasks (server w);
                   Server.ideas := Server.ideas (server w) |}));
    destruct (protected_bulk Spec.imported_note (get "notes" b)
                "Notes array is required" "Failed to sync notes"
                (λ userId, NotesController.bulkCreateNotes userId b now)
                a now (Server.notes (server w))) as [[Hok Hs]|[Hok Hs]]
  end; try (intros; apply bulkCreateNotes_contract);
    destruct (Server.protected _ _ _ _ _) as [r t]; cbn in Hok, Hs; cbn;
    rewrite Hok; intros [= <- <-]; by repeat split.
Qed.
Lemma post_tasks_sync records reach w ax w' :
  post "/tasks/sync" (VObj [("tasks", VArr records)]) reach w = (ax, w') →
  Spec.browser_kept w w'
  ∧ Server.users (server w') = Server.users (server w)
  ∧ Server.notes (server w') = Server.notes (server w)
  ∧ Server.ideas (server w') = Server.ideas (server w)
  ∧ match ax with
    | Resolved _ =>
        Spec.synced Spec.imported_task (jsonify (VArr records))
          (Server.tasks (server w)) (Server.tasks (server w'))
    | Rejected _ => Server.tasks (server w') = Server.tasks (server w)
    end.
Proof.
  unfold post. destruct reach as [[salt now]|]; [|by intros [= <- <-]].
  match goal with |- context [Server.post _ ?a ?b _ _ _] =>
    change (Server.post "/tasks/sync" a b salt now (server w))
      with (let '(r, t) := Server.protected Server.count_json a now
                (λ userId, TasksController.bulkCreateTasks userId b now)
                (Server.tasks (server w)) in
            (r, {| Server.users := Server.users (server w);
                   Server.notes := Server.notes (server w); Server.tasks := t;
                   Server.ideas := Server.ideas (server w) |}));
    destruct (protected_bulk Spec.imported_task (get "tasks" b)
                "Tasks array is required" "Failed to sync tasks"
                (λ userId, TasksController.bulkCreateTasks userId b now)
                a now (Server.tasks (server w))) as [[Hok Hs]|[Hok Hs]]
  end; try (intros; apply bulkCreateTasks_contract);
    destruct (Server.protected _ _ _ _ _) as [r t]; cbn in Hok, Hs; cbn;
    rewrite Hok; intros [= <- <-]; by repeat split.
Qed.

Lemma post_ideas_sync records reach w ax w' :
  post "/ideas/sync" (VObj [("ideas", VArr records)]) reach w = (ax, w') →
  Spec.browser_kept w w'
  ∧ Server.users (server w') = Server.users (server w)
  ∧ Server.notes (server w') = Server.notes (server w)
  ∧ Server.tasks (server w') = Server.tasks (server w)
  ∧ match ax with
    | Resolved _ =>
        Spec.synced Spec.imported_idea (jsonify (VArr records))
          (Server.ideas (server w)) (Server.ideas (server w'))
    | Rejected _ => Server.ideas (server w') = Server.ideas (server w)
    end.
Proof.
  unfold post. destruct reach as [[salt now]|]; [|by intros [= <- <-]].
  match goal with |- context [Server.post _ ?a ?b _ _ _] =>
    change (Server.post "/ideas/sync" a b salt now (server w))
      with (let '(r, t) := Server.protected Server.count_json a now
                (λ userId, IdeasController.bulkCreateIdeas userId b now)
                (Server.ideas (server w)) in
            (r, {| Server.users := Server.users (server w);
                   Server.notes := Server.notes (server w);
                   Server.tasks := Server.tasks (server w); Server.ideas := t |}));
    destruct (protected_bulk Spec.imported_idea (get "ideas" b)
                "Ideas array is required" "Failed to sync ideas"
                (λ userId, IdeasController.bulkCreateIdeas userId b now)
                a now (Server.ideas (server w))) as [[Hok Hs]|[Hok Hs]]
  end; try (intros; apply bulkCreateIdeas_contract);
    destruct (Server.protected _ _ _ _ _) as [r t]; cbn in Hok, Hs; cbn;
    rewrite Hok; intros [= <- <-]; by repeat split.
Qed.

(** A registration request that resolves has created the account. *)
Lemma post_register body reach w response w0 :
  post "/auth/register" body reach w = (Resolved response, w0) →
  Spec.browser_kept w w0
  ∧ Server.notes (server w0) = Server.notes (server w)
  ∧ Server.tasks (server w0) = Server.tasks (server w)
  ∧ Server.ideas (server w0) = Server.ideas (server w)
  ∧ ∃ salt now session,
      reach = Some (salt, now)
      ∧ AuthController.register (jsonify body) salt now (Server.users (server w))
        = (Reply 201 session, Server.users (server w0))
      ∧ data response = Server.session_json session.
Proof.
  unfold post. destruct reach as [[salt now]|]; [|done].
  match goal with |- context [Server.post _ ?a ?b _ _ _] =>
    change (Server.post "/auth/register" a b salt now (server w))
      with (let '(r, t) := AuthController.register b salt now
                             (Server.users (server w)) in
            (json Server.session_json r,
             {| Server.users := t; Server.notes := Server.notes (server w);
                Server.tasks := Server.tasks (server w);
                Server.ideas := Server.ideas (server w) |}))
  end.
  destruct (AuthController.register _ _ _ _) as [[s session|s err] t] eqn:Hr;
    cbn; destruct (ok s) eqn:Hok; intros [= <- <-]; cbn.
  - apply register_Reply in Hr as Hs. destruct Hs as [-> _].
    repeat split. by exists salt, now, session.
  - apply register_Fail in Hr. congruence.
Qed.

(** One step of the sync: skipped for an empty list, otherwise the request. *)
Lemma sync_step url key records reach w x w' :
  sync url key (VArr records) reach w = (x, w') →
  (records = [] ∧ x = inl () ∧ w' = w)
  ∨ (records ≠ []
     ∧ ∃ ax, post url (VObj [(key, VArr records)]) reach w = (ax, w')
             ∧ x = match ax with
                   | Resolved _ => inl ()
                   | Rejected e => inr e
                   end).
Proof.
  unfold sync, when_. destruct records as [|r records]; cbn.
  - intros [= <- <-]. by left.
  - unfold mbind, attempt_bind, await.
    destruct (post url _ reach w) as [[response|e] w2] eqn:Hp;
      intros [= <- <-]; right; (split; [done|]); by eexists.
Qed.
Lemma sync_notes_effect records reach w x w' :
  sync "/notes/sync" "notes" (VArr records) reach w = (x, w') →
  Spec.browser_kept w w'
  ∧ Server.users (server w') = Server.users (server w)
  ∧ Server.tasks (server w') = Server.tasks (server w)
  ∧ Server.ideas (server w') = Server.ideas (server w)
  ∧ match x with
    | inl _ =>
        records ≠ [] →
        Spec.synced Spec.imported_note (jsonify (VArr records))
          (Server.notes (server w)) (Server.notes (server w'))
    | inr _ =>
        records ≠ [] ∧ Server.notes (server w') = Server.notes (server w)
    end.
Proof.
  intros Hs. apply sync_step in Hs as [(-> & -> & ->)|(Hne & ax & Hp & ->)].
  - by repeat split.
  - apply post_notes_sync in Hp as (? & ? & ? & ? & Hax).
    destruct ax; split_and!; done.
Qed.

Lemma sync_tasks_effect records reach w x w' :
  sync "/tasks/sync" "tasks" (VArr records) reach w = (x, w') →
  Spec.browser_kept w w'
  ∧ Server.users (server w') = Server.users (server w)
  ∧ Server.notes (server w') = Server.notes (server w)
  ∧ Server.ideas (server w') = Server.ideas (server w)
  ∧ match x with
    | inl _ =>
        records ≠ [] →
        Spec.synced Spec.imported_task (jsonify (VArr records))
          (Server.tasks (server w)) (Server.tasks (server w'))
    | inr _ =>
        records ≠ [] ∧ Server.tasks (server w') = Server.tasks (server w)
    end.
Proof.
  intros Hs. apply sync_step in Hs as [(-> & -> & ->)|(Hne & ax & Hp & ->)].
  - by repeat split.
  - apply post_tasks_sync in Hp as (? & ? & ? & ? & Hax).
    destruct ax; split_and!; done.
Qed.

Lemma sync_ideas_effect records reach w x w' :
  sync "/ideas/sync" "ideas" (VArr records) reach w = (x, w') →
  Spec.browser_kept w w'
  ∧ Server.users (server w') = Server.users (server w)
  ∧ Server.notes (server w') = Server.notes (server w)
  ∧ Server.tasks (server w') = Server.tasks (server w)
  ∧ match x with
    | inl _ =>
        records ≠ [] →
        Spec.synced Spec.imported_idea (jsonify (VArr records))
          (Server.ideas (server w)) (Server.ideas (server w'))
    | inr _ =>
        records ≠ [] ∧ Server.ideas (server w') = Server.ideas (server w)
    end.
Proof.
  intros Hs. apply sync_step in Hs as [(-> & -> & ->)|(Hne & ax & Hp & ->)].
  - by repeat split.
  - apply post_ideas_sync in Hp as (? & ? & ? & ? & Hax).
    destruct ax; split_and!; done.
Qed.

Lemma browser_kept_trans w1 w2 w3 :
  Spec.browser_kept w1 w2 → Spec.browser_kept w2 w3 → Spec.browser_kept w1 w3.
Proof.
  unfold Spec.browser_kept. intros (?&?&?&?) (?&?&?&?).
  split_and!; congruence.
Qed.

(** The three steps in a row, when one of them fails. *)
Lemma syncGuestData_fails notes tasks ideas net w1 e w' :
  syncGuestData (VObj [("notes", VArr notes); ("tasks", VArr tasks);
                       ("ideas", VArr ideas)]) net w1 = (inr e, w') →
  Spec.browser_kept w1 w'
  ∧ Server.users (server w') = Server.users (server w1)
  ∧ (notes ≠ [] ∨ tasks ≠ [] ∨ ideas ≠ [])
  ∧ (∀ w2,
     sync "/notes/sync" "notes" (VArr notes) (reach_notes net) w1 = (inl (), w2) →
     notes ≠ [] →
     Spec.synced Spec.imported_note (jsonify (VArr notes))
       (Server.notes (server w1)) (Server.notes (server w')))
  ∧ (∀ w2 w3,
     sync "/notes/sync" "notes" (VArr notes) (reach_notes net) w1 = (inl (), w2) →
     sync "/tasks/sync" "tasks" (VArr tasks) (reach_tasks net) w2 = (inl (), w3) →
     tasks ≠ [] →
     Spec.synced Spec.imported_task (jsonify (VArr tasks))
       (Server.tasks (server w1)) (Server.tasks (server w'))).
Proof.
  unfold syncGuestData, when_. cbn [truthy get assoc String.eqb Ascii.eqb Bool.eqb].
  unfold mbind at 1 2, attempt_bind.
  destruct (sync "/notes/sync" _ _ _ w1) as [[[]|e1] w2] eqn:Hn.
  - destruct (sync "/tasks/sync" _ _ _ w2) as [[[]|e2] w3] eqn:Ht.
    + intros Hi.
      apply sync_notes_effect in Hn as Hn'. destruct Hn' as (Hb1 & Hu1 & Ht1 & Hi1 & Hs1).
      apply sync_tasks_effect in Ht as Ht'. destruct Ht' as (Hb2 & Hu2 & Hn2 & Hi2 & Hs2).
      apply sync_ideas_effect in Hi as (Hb3 & Hu3 & Hn3 & Ht3 & Hne & Hs3).
      split_and!.
      * eauto using browser_kept_trans.
      * congruence.
      * auto.
      * intros w2' [= <-] Hnn. rewrite Hn3, Hn2. auto.
      * intros w2' w3' [= <-] Hw3 Htt. rewrite Ht in Hw3. injection Hw3 as <-.
        rewrite Ht3, <- Ht1. auto.
    + intros [= <- <-].
      apply sync_notes_effect in Hn as Hn'. destruct Hn' as (Hb1 & Hu1 & Ht1 & Hi1 & Hs1).
      apply sync_tasks_effect in Ht as Ht'. destruct Ht' as (Hb2 & Hu2 & Hn2 & Hi2 & Hne & Hs2).
      split_and!.
      * eauto using browser_kept_trans.
      * congruence.
      * auto.
      * intros w2' [= <-] Hnn. rewrite Hn2. auto.
      * intros w2' w3' [= <-] Hw3. rewrite Ht in Hw3. done.
  - intros [= <- <-].
    apply sync_notes_effect in Hn as Hn'. destruct Hn' as (Hb1 & Hu1 & Ht1 & Hi1 & Hne & Hs1).
    split_and!; auto.
    + intros w2' Hw2. done.
    + intros w2' w3' Hw2. done.
Qed.
Lemma bind_inl {A B} (m : attempt A) (k : A → attempt B) w a w1 :
  m w = (inl a, w1) → (m ≫= k) w = k a w1.
Proof. intros Hm. unfold mbind, attempt_bind. by rewrite Hm. Qed.

Lemma bind_inr {A B} (m : attempt A) (k : A → attempt B) w e w1 :
  m w = (inr e, w1) → (m ≫= k) w = (inr e, w1).
Proof. intros Hm. unfold mbind, attempt_bind. by rewrite Hm. Qed.

Lemma access_object k v fs w :
  v = VObj fs → access k v w = (inl (get k v), w).
Proof. by intros ->. Qed.

Lemma or_default_twice x d : or (or x d) d = or x d.
Proof.
  unfold or. destruct (truthy x) eqn:Hx; [by rewrite Hx|].
  by destruct (truthy d).
Qed.
End registration.

(** C10.  Take a submission of the register form whose exports of the three
    guest lists succeed and whose registration request resolves (the
    account is created), and let one of the sync requests that follow fail.
    Then the page shows an error (register returned failure) and the three
    guest stores are exactly as before, so nothing was cleared; yet the auth
    store holds the user and the token with isAuthenticated true, the
    server's user table is the one after the registration, and the sync
    steps that succeeded before the failing one have inserted their
    records: their rows are in the server's tables at the end. *)
Theorem register_sync_failure_keeps_guest_data `{Platform}
    (email password name : value) (net : Client.network) (w : Client.world)
    (notes tasks ideas : list value) (response : Http.reply)
    (w0 : Client.world) (e : option Http.reply) (w' : Client.world) :
  NotesStore.getNotesForSync (Client.notesStore w) = Some notes →
  TasksStore.getTasksForSync (Client.tasksStore w) = Some tasks →
  IdeasStore.getIdeasForSync (Client.ideasStore w) = Some ideas →
  Client.post "/auth/register"
    (VObj [("email", email); ("password", password); ("name", name)])
    (Client.reach_register net) w = (Http.Resolved response, w0) →
  let user := get "user" (Http.data response) in
  let token := get "token" (Http.data response) in
  let w1 := (Client.setAuthenticated user token w0).2 in
  Client.syncGuestData
    (VObj [("notes", VArr notes); ("tasks", VArr tasks); ("ideas", VArr ideas)])
    net w1 = (inr e, w') →
  Client.handleSubmit email password name net w
  = (Client.setError (or (Http.response_error e) (VStr "Registration failed")), w')
  ∧ (Client.notesStore w' = Client.notesStore w
     ∧ Client.tasksStore w' = Client.tasksStore w
     ∧ Client.ideasStore w' = Client.ideasStore w)
  ∧ Client.authStore w'
    = {| Client.user := user; Client.token := token;
         Client.isAuthenticated := true; Client.isGuest := false |}
  ∧ (∃ salt now session,
       Client.reach_register net = Some (salt, now)
       ∧ AuthController.register
           (jsonify (VObj [("email", email); ("password", password);
                           ("name", name)]))
           salt now (Server.users (Client.server w))
         = (Reply 201 session, Server.users (Client.server w'))
       ∧ Http.data response = Server.session_json session)
  ∧ (∀ w2,
     Client.sync "/notes/sync" "notes" (VArr notes) (Client.reach_notes net) w1
     = (inl (), w2) →
     notes ≠ [] →
     Spec.synced Spec.imported_note (jsonify (VArr notes))
       (Server.notes (Client.server w)) (Server.notes (Client.server w')))
  ∧ (∀ w2 w3,
     Client.sync "/notes/sync" "notes" (VArr notes) (Client.reach_notes net) w1
     = (inl (), w2) →
     Client.sync "/tasks/sync" "tasks" (VArr tasks) (Client.reach_tasks net) w2
     = (inl (), w3) →
     tasks ≠ [] →
     Spec.synced Spec.imported_task (jsonify (VArr tasks))
       (Server.tasks (Client.server w)) (Server.tasks (Client.server w'))).
Proof.
  intros Hnotes Htasks Hideas Hreg user token w1 Hsync.
  destruct (post_register _ _ _ _ _ Hreg)
    as ((Ha0 & Hn0 & Ht0 & Hi0) & Hsn & Hst & Hsi & salt & now & session
        & Hreach & Hregister & Hdata).
  destruct (syncGuestData_fails _ _ _ _ _ _ _ Hsync)
    as ((Ha1 & Hn1 & Ht1 & Hi1) & Hu1 & Hsome & Hsynced_n & Hsynced_t).
  assert (Client.server w1 = Client.server w0) as Hs1 by done.
  assert (negb (length (Zustand.items (Zustand.state (Client.notesStore w))) =? 0)%nat
          || negb (length (Zustand.items (Zustand.state (Client.tasksStore w))) =? 0)%nat
          || negb (length (Zustand.items (Zustand.state (Client.ideasStore w))) =? 0)%nat
          = true) as Hhas.
  { apply length_mapM in Hnotes, Htasks, Hideas.
    rewrite Hnotes, Htasks, Hideas.
    destruct Hsome as [?|[?|?]]; destruct notes, tasks, ideas; done. }
  split_and!.
  - unfold Client.handleSubmit. rewrite Hhas, Hnotes, Htasks, Hideas. cbn.
    unfold Client.register.
    erewrite bind_inl; [|unfold Client.await; by rewrite Hreg].
    erewrite bind_inl; [|by eapply access_object].
    erewrite bind_inl; [|by eapply access_object].
    erewrite bind_inl; [|reflexivity].
    erewrite bind_inr; [|exact Hsync].
    by rewrite or_default_twice.
  - by rewrite Hn1.
  - by rewrite Ht1.
  - by rewrite Hi1.
  - by rewrite Ha1.
  - exists salt, now, session. by rewrite Hu1, Hs1.
  - intros w2 Hw2 Hne. rewrite <- Hsn, <- Hs1. eauto.
  - intros w2 w3 Hw2 Hw3 Hne. rewrite <- Hst, <- Hs1. eauto.
Qed.

(** C10 at work: a guest with one note and one task registers, the notes
    are synced and the request for the tasks gets no response. *)
Lemma register_sync_failure_keeps_guest_data_witness :
  ∃ message w',
    Client.handleSubmit (H := Sample.platform)
      (VStr "bob@example.com") (VStr "secret") (VStr "")
      Sample.tasks_sync_lost Sample.guest_world
    = (Client.setError message, w')
    ∧ (Client.notesStore w' = Client.notesStore Sample.guest_world
       ∧ Client.tasksStore w' = Client.tasksStore Sample.guest_world
       ∧ Client.ideasStore w' = Client.ideasStore Sample.guest_world)
    ∧ Client.isAuthenticated (Client.authStore w') = true
    ∧ is_Some (Server.users (Client.server w') !! "bob@example.com")
    ∧ size (Server.notes (Client.server w')) = 1%nat
    ∧ size (Server.tasks (Client.server w')) = 0%nat.
Proof.
  edestruct (register_sync_failure_keeps_guest_data (H := Sample.platform)
               (VStr "bob@example.com") (VStr "secret") (VStr "")
               Sample.tasks_sync_lost Sample.guest_world)
    as (Hsubmit & Hstores & Hauth & Haccount & Hnotes & _);
    [reflexivity | reflexivity | reflexivity | reflexivity | reflexivity |].
  eexists _, _. split; [exact Hsubmit|]. split; [exact Hstores|].
  split; [by rewrite Hauth|]. split; [eexists; by vm_compute|].
  split; by vm_compute.
Defined.

(** * Further properties of the code

    ** The controllers: Create, GetById, Update, Delete, BulkImport *)
Section create.
Import NotesController TasksController IdeasController.

Lemma new_id_fresh {R} (t : gmap string R) : t !! Prisma.new_id t = None.
Proof. apply fresh_string_fresh. Qed.

Lemma createNote_Reply userId body now (db db' : gmap string Note) s n :
  createNote userId body now db = (Reply s n, db') →
  s = 201%nat ∧ db !! note_id n = None ∧ db' = <[note_id n := n]> db
  ∧ note_userId n = userId ∧ note_createdAt n = now
  ∧ get "title" body = VStr (note_title n)
  ∧ get "content" body = VStr (note_content n)
  ∧ or (get "color" body) (VStr "#ffffff") = VStr (note_color n)
  ∧ or (get "isPinned" body) (VBool false) = VBool (note_isPinned n).
Proof.
  unfold createNote, try_catch.
  destruct (negb _ || negb _); [done|].
  unfold note_of_data. cbn.
  destruct (get "title" body); try done.
  destruct (get "content" body); try done.
  destruct (or (get "color" body) _); try done.
  destruct (or (get "isPinned" body) _); try done.
  cbn. intros [= <- <- <-]. cbn. split_and!; try done. apply new_id_fresh.
Qed.

Lemma createNote_Fail userId body now (db db' : gmap string Note) s e :
  createNote userId body now db = (Fail s e, db') →
  db' = db
  ∧ ((s = 400%nat ∧ e = "Title and content are required"
      ∧ (truthy (get "title" body) = false ∨ truthy (get "content" body) = false))
     ∨ (s = 500%nat ∧ e = "Failed to create note"
        ∧ truthy (get "title" body) = true ∧ truthy (get "content" body) = true)).
Proof.
  unfold createNote, try_catch.
  destruct (truthy (get "title" body)) eqn:Ht; cbn [negb orb];
    [|intros [= <- <- <-]; split; [done|]; left; auto].
  destruct (truthy (get "content" body)) eqn:Hc; cbn [negb orb];
    [|intros [= <- <- <-]; split; [done|]; left; auto].
  destruct (note_of_data _ _) as [row|]; cbn; [done|].
  intros [= <- <- <-]. split; [done|]. by right.
Qed.

Lemma String_Some v s : Prisma.String_ (Prisma.Js v) = Some s → v = VStr s.
Proof. destruct v; cbn; congruence. Qed.

Lemma Boolean_Some v b : Prisma.Boolean_ (Prisma.Js v) = Some b → v = VBool b.
Proof. destruct v; cbn; congruence. Qed.

Lemma nullable_String_Some v d :
  Prisma.nullable Prisma.String_ (Prisma.Js v) = Some d →
  v = Server.nullable_json VStr d.
Proof.
  destruct v; cbn; try done; intros; simplify_eq; done.
Qed.

Lemma Priority_Some v p : Priority_ (Prisma.Js v) = Some p → v = Server.priority_json p.
Proof.
  unfold Priority_. intros Hp. repeat case_match; simplify_eq; done.
Qed.

Lemma createTask_Reply `{Platform} userId body now (db db' : gmap string Task) s t :
  createTask userId body now db = (Reply s t, db') →
  s = 201%nat ∧ db !! task_id t = None ∧ db' = <[task_id t := t]> db
  ∧ task_userId t = userId ∧ task_createdAt t = now
  ∧ get "title" body = VStr (task_title t)
  ∧ or (get "description" body) VNull
    = Server.nullable_json VStr (task_description t)
  ∧ or (get "completed" body) (VBool false) = VBool (task_completed t)
  ∧ or (get "priority" body) (VStr "medium")
    = Server.priority_json (task_priority t)
  ∧ task_dueDate t = (if truthy (get "dueDate" body)
                      then new_Date (get "dueDate" body) else None).
Proof.
  unfold createTask, try_catch.
  destruct (negb _); [done|].
  destruct (task_of_data _ _) as [row|] eqn:Hrow; cbn; [|done].
  intros [= <- <- <-].
  unfold task_of_data in Hrow.
  cbn [Prisma.field String.eqb Ascii.eqb Bool.eqb] in Hrow.
  apply bind_Some in Hrow as (title & Ht%String_Some & Hrow).
  apply bind_Some in Hrow as (description & Hd%nullable_String_Some & Hrow).
  apply bind_Some in Hrow as (completed & Hc%Boolean_Some & Hrow).
  apply bind_Some in Hrow as (priority & Hp%Priority_Some & Hrow).
  apply bind_Some in Hrow as (dueDate & Hdue & Hrow).
  apply bind_Some in Hrow as (owner & Ho%String_Some & Hrow).
  injection Hrow as <-. injection Ho as <-. cbn.
  split_and!; try done; [apply new_id_fresh|].
  destruct (truthy (get "dueDate" body)); cbn in Hdue.
  - destruct (new_Date _); cbn in Hdue; congruence.
  - congruence.
Qed.

Lemma createTask_Fail `{Platform} userId body now (db db' : gmap string Task) s e :
  createTask userId body now db = (Fail s e, db') →
  db' = db
  ∧ ((s = 400%nat ∧ e = "Title is required" ∧ truthy (get "title" body) = false)
     ∨ (s = 500%nat ∧ e = "Failed to create task"
        ∧ truthy (get "title" body) = true)).
Proof.
  unfold createTask, try_catch.
  destruct (truthy (get "title" body)) eqn:Ht; cbn [negb];
    [|intros [= <- <- <-]; split; [done|]; left; auto].
  destruct (task_of_data _ _) as [row|]; cbn; [done|].
  intros [= <- <- <-]. split; [done|]. by right.
Qed.

Lemma StringList_Some v tags :
  Prisma.StringList_ (Prisma.Js v) = Some tags → v = VArr (VStr <$> tags).
Proof.
  destruct v as [| | | | |items|]; cbn; try done.
  intros Hm%mapM_Some. f_equal.
  induction Hm as [|x y l k Hx%String_Some _ IH]; [done|]. cbn. congruence.
Qed.

Lemma createIdea_Reply userId body now (db db' : gmap string Idea) s i :
  createIdea userId body now db = (Reply s i, db') →
  s = 201%nat ∧ db !! idea_id i = None ∧ db' = <[idea_id i := i]> db
  ∧ idea_userId i = userId ∧ idea_createdAt i = now
  ∧ get "title" body = VStr (idea_title i)
  ∧ get "description" body = VStr (idea_description i)
  ∧ or (get "category" body) (VStr "general") = VStr (idea_category i)
  ∧ (if isArray (get "tags" body) then get "tags" body else VArr [])
    = VArr (VStr <$> idea_tags i).
Proof.
  unfold createIdea, try_catch.
  destruct (negb _ || negb _); [done|].
  destruct (idea_of_data _ _) as [row|] eqn:Hrow; cbn; [|done].
  intros [= <- <- <-].
  unfold idea_of_data in Hrow.
  cbn [Prisma.field String.eqb Ascii.eqb Bool.eqb] in Hrow.
  apply bind_Some in Hrow as (title & Ht%String_Some & Hrow).
  apply bind_Some in Hrow as (description & Hd%String_Some & Hrow).
  apply bind_Some in Hrow as (category & Hc%String_Some & Hrow).
  apply bind_Some in Hrow as (tags & Hg%StringList_Some & Hrow).
  apply bind_Some in Hrow as (owner & Ho%String_Some & Hrow).
  injection Hrow as <-. injection Ho as <-. cbn.
  split_and!; try done. apply new_id_fresh.
Qed.

Lemma createIdea_Fail userId body now (db db' : gmap string Idea) s e :
  createIdea userId body now db = (Fail s e, db') →
  db' = db
  ∧ ((s = 400%nat ∧ e = "Title and description are required"
      ∧ (truthy (get "title" body) = false
         ∨ truthy (get "description" body) = false))
     ∨ (s = 500%nat ∧ e = "Failed to create idea"
        ∧ truthy (get "title" body) = true
        ∧ truthy (get "description" body) = true)).
Proof.
  unfold createIdea, try_catch.
  destruct (truthy (get "title" body)) eqn:Ht; cbn [negb orb];
    [|intros [= <- <- <-]; split; [done|]; left; auto].
  destruct (truthy (get "description" body)) eqn:Hc; cbn [negb orb];
    [|intros [= <- <- <-]; split; [done|]; left; auto].
  destruct (idea_of_data _ _) as [row|]; cbn; [done|].
  intros [= <- <- <-]. split; [done|]. by right.
Qed.

(** Which of the three answers a Create gives, by the request. *)
Lemma createNote_refused userId body now (db : gmap string Note) :
  Spec.imported_note userId now body = None →
  truthy (get "title" body) = true → truthy (get "content" body) = true →
  createNote userId body now db = (Fail 500 "Failed to create note", db).
Proof.
  intros Hrow Ht Hc. unfold createNote, try_catch. rewrite Ht, Hc. cbn.
  pose proof (note_record userId now body) as Hr.
  rewrite Hrow in Hr. destruct body; try done; cbn in Hr;
    match type of Hr with
    | mbind _ ?x = _ => destruct x as [row'|] eqn:Hx; cbn in Hr; [done|]
    end; unfold note_of_data in Hx |- *; cbn in Hx |- *; by rewrite Hx.
Qed.

Lemma createNote_cases userId body now (db : gmap string Note) :
  createNote userId body now db
  = if negb (truthy (get "title" body)) || negb (truthy (get "content" body))
    then (Fail 400 "Title and content are required", db)
    else match Spec.imported_note userId now body with
         | Some row =>
             (Reply 201 (row (Prisma.new_id db)),
              <[Prisma.new_id db := row (Prisma.new_id db)]> db)
         | None => (Fail 500 "Failed to create note", db)
         end.
Proof.
  destruct (truthy (get "title" body)) eqn:Ht; cbn [negb orb];
    [|unfold createNote, try_catch; by rewrite Ht].
  destruct (truthy (get "content" body)) eqn:Hc; cbn [negb orb];
    [|unfold createNote, try_catch; by rewrite Ht, Hc].
  destruct (Spec.imported_note userId now body) as [row|] eqn:Hrow.
  - by apply createNote_imported.
  - by apply createNote_refused.
Qed.

Lemma createTask_refused `{Platform} userId body now (db : gmap string Task) :
  Spec.imported_task userId now body = None →
  truthy (get "title" body) = true →
  createTask userId body now db = (Fail 500 "Failed to create task", db).
Proof.
  intros Hrow Ht. unfold createTask, try_catch. rewrite Ht. cbn.
  pose proof (task_record userId now body) as Hr.
  rewrite Hrow in Hr. destruct body; try done; cbn in Hr;
    match type of Hr with
    | mbind _ ?x = _ => destruct x as [row'|] eqn:Hx; cbn in Hr; [done|]
    end; unfold task_of_data in Hx |- *; cbn in Hx |- *; by rewrite Hx.
Qed.

Lemma createTask_cases `{Platform} userId body now (db : gmap string Task) :
  createTask userId body now db
  = if negb (truthy (get "title" body))
    then (Fail 400 "Title is required", db)
    else match Spec.imported_task userId now body with
         | Some row =>
             (Reply 201 (row (Prisma.new_id db)),
              <[Prisma.new_id db := row (Prisma.new_id db)]> db)
         | None => (Fail 500 "Failed to create task", db)
         end.
Proof.
  destruct (truthy (get "title" body)) eqn:Ht; cbn [negb];
    [|unfold createTask, try_catch; by rewrite Ht].
  destruct (Spec.imported_task userId now body) as [row|] eqn:Hrow.
  - by apply createTask_imported.
  - by apply createTask_refused.
Qed.

Lemma createIdea_refused userId body now (db : gmap string Idea) :
  Spec.imported_idea userId now body = None →
  truthy (get "title" body) = true → truthy (get "description" body) = true →
  createIdea userId body now db = (Fail 500 "Failed to create idea", db).
Proof.
  intros Hrow Ht Hd. unfold createIdea, try_catch. rewrite Ht, Hd. cbn.
  pose proof (idea_record userId now body) as Hr.
  rewrite Hrow in Hr. destruct body; try done; cbn in Hr;
    match type of Hr with
    | mbind _ ?x = _ => destruct x as [row'|] eqn:Hx; cbn in Hr; [done|]
    end; unfold idea_of_data in Hx |- *; cbn in Hx |- *; by rewrite Hx.
Qed.

Lemma createIdea_cases userId body now (db : gmap string Idea) :
  createIdea userId body now db
  = if negb (truthy (get "title" body)) || negb (truthy (get "description" body))
    then (Fail 400 "Title and description are required", db)
    else match Spec.imported_idea userId now body with
         | Some row =>
             (Reply 201 (row (Prisma.new_id db)),
              <[Prisma.new_id db := row (Prisma.new_id db)]> db)
         | None => (Fail 500 "Failed to create idea", db)
         end.
Proof.
  destruct (truthy (get "title" body)) eqn:Ht; cbn [negb orb];
    [|unfold createIdea, try_catch; by rewrite Ht].
  destruct (truthy (get "description" body)) eqn:Hd; cbn [negb orb];
    [|unfold createIdea, try_catch; by rewrite Ht, Hd].
  destruct (Spec.imported_idea userId now body) as [row|] eqn:Hrow.
  - by apply createIdea_imported.
  - by apply createIdea_refused.
Qed.
End create.

Section more_crud.
Import NotesController TasksController IdeasController.

Lemma elem_of_findMany {R} (where_ : R → bool) entries (t : gmap string R) r :
  r ∈ Prisma.findMany where_ entries t ↔ where_ r = true ∧ ∃ k, t !! k = Some r.
Proof.
  unfold Prisma.findMany. rewrite merge_sort_Permutation, list_elem_of_filter.
  rewrite list_elem_of_fmap. split.
  - intros [? ([k r'] & -> & ?%elem_of_map_to_list)]. eauto.
  - intros [? [k ?]]. split; [done|]. exists (k, r). by rewrite elem_of_map_to_list.
Qed.

Lemma findFirst_inv {R} id (conds : R → bool) (t : gmap string R) r :
  Prisma.findFirst id conds t = Some r → t !! id = Some r ∧ conds r = true.
Proof.
  unfold Prisma.findFirst. destruct (t !! id) as [r'|]; [|done].
  destruct (conds r') eqn:Hc; [|done]. by intros [= <-].
Qed.

Lemma column_again {A} (ty : Prisma.datum → option A) k d old x :
  Prisma.column ty k d old = Some x → Prisma.column ty k d x = Some x.
Proof.
  unfold Prisma.column. destruct (Prisma.field k d) as [[]|]; congruence.
Qed.

Lemma note_change_again d n n' :
  note_change d n = Some n' →
  note_change d n' = Some n' ∧ note_userId n' = note_userId n.
Proof.
  unfold note_change. intros Hc.
  apply bind_Some in Hc as (title & Ht%column_again & Hc).
  apply bind_Some in Hc as (content & Hn%column_again & Hc).
  apply bind_Some in Hc as (color & Hl%column_again & Hc).
  apply bind_Some in Hc as (isPinned & Hp%column_again & Hc).
  injection Hc as <-. cbn. by rewrite Ht, Hn, Hl, Hp.
Qed.

Lemma task_change_again d t t' :
  task_change d t = Some t' →
  task_change d t' = Some t' ∧ task_userId t' = task_userId t.
Proof.
  unfold task_change. intros Hc.
  apply bind_Some in Hc as (title & Ht%column_again & Hc).
  apply bind_Some in Hc as (description & Hd%column_again & Hc).
  apply bind_Some in Hc as (completed & Hn%column_again & Hc).
  apply bind_Some in Hc as (priority & Hp%column_again & Hc).
  apply bind_Some in Hc as (dueDate & Hu%column_again & Hc).
  injection Hc as <-. cbn. by rewrite Ht, Hd, Hn, Hp, Hu.
Qed.

Lemma idea_change_again d i i' :
  idea_change d i = Some i' →
  idea_change d i' = Some i' ∧ idea_userId i' = idea_userId i.
Proof.
  unfold idea_change. intros Hc.
  apply bind_Some in Hc as (title & Ht%column_again & Hc).
  apply bind_Some in Hc as (description & Hd%column_again & Hc).
  apply bind_Some in Hc as (category & Hn%column_again & Hc).
  apply bind_Some in Hc as (tags & Hp%column_again & Hc).
  injection Hc as <-. cbn. by rewrite Ht, Hd, Hn, Hp.
Qed.

(** An owner-scoped update handler applied to its own result. *)
Lemma update_handler_twice {R} (owner : R → string) (change : R → option R)
    userId id (missing failed : string) (db : gmap string R) :
  (∀ r r', change r = Some r' → change r' = Some r' ∧ owner r' = owner r) →
  let handler db :=
    try_catch failed db
      (match Prisma.findFirst id (λ x, String.eqb (owner x) userId) db with
       | None => Some (Fail 404 missing, db)
       | Some _ =>
           '(x, db') ← Prisma.update id change db;
           Some (Reply 200 x, db')
       end) in
  handler (handler db).2 = handler db.
Proof.
  intros Hch. cbn zeta. unfold try_catch.
  destruct (Prisma.findFirst id _ db) as [r|] eqn:Hf; cbn; [|by rewrite Hf].
  pose proof Hf as [Hl Ho]%findFirst_inv.
  destruct (change r) as [r'|] eqn:Hc.
  - assert (Prisma.update id change db = Some (r', <[id := r']> db)) as ->.
    { unfold Prisma.update. rewrite Hl. cbn. by rewrite Hc. }
    cbn. destruct (Hch _ _ Hc) as [Hc' Hsame].
    rewrite (findFirst_Some _ _ _ r'); [|apply lookup_insert_eq|by rewrite Hsame].
    unfold Prisma.update. rewrite lookup_insert_eq. cbn. rewrite Hc'. cbn.
    by rewrite insert_insert_eq.
  - assert (Prisma.update id change db = None) as ->.
    { unfold Prisma.update. rewrite Hl. cbn. by rewrite Hc. }
    cbn. rewrite Hf. unfold Prisma.update. rewrite Hl. cbn. by rewrite Hc.
Qed.

Lemma updateNote_twice userId id body (db : gmap string Note) :
  updateNote userId id body (updateNote userId id body db).2
  = updateNote userId id body db.
Proof.
  apply (update_handler_twice note_userId). apply note_change_again.
Qed.

Lemma updateTask_twice `{Platform} userId id body (db : gmap string Task) :
  updateTask userId id body (updateTask userId id body db).2
  = updateTask userId id body db.
Proof.
  apply (update_handler_twice task_userId). apply task_change_again.
Qed.

Lemma updateIdea_twice userId id body (db : gmap string Idea) :
  updateIdea userId id body (updateIdea userId id body db).2
  = updateIdea userId id body db.
Proof.
  apply (update_handler_twice idea_userId). apply idea_change_again.
Qed.
End more_crud.

Section isolation.
Import NotesController TasksController IdeasController.

(** An owner-scoped handler on a record the caller does not own. *)
Lemma findFirst_foreign {R} (owner : R → string) userId id (db : gmap string R) :
  (∀ r, db !! id = Some r → owner r ≠ userId) →
  Prisma.findFirst id (λ x, String.eqb (owner x) userId) db = None.
Proof.
  intros Hn. apply findFirst_None. intros r Hr. apply eqb_false_of_ne. eauto.
Qed.

Lemma update_handler_others {R} (owner : R → string) (change : R → option R)
    userId id (missing failed : string) (db : gmap string R) k r :
  db !! k = Some r → owner r ≠ userId →
  (try_catch failed db
     (match Prisma.findFirst id (λ x, String.eqb (owner x) userId) db with
      | None => Some (Fail 404 missing, db)
      | Some _ =>
          '(x, db') ← Prisma.update id change db;
          Some (Reply 200 x, db')
      end)).2 !! k = Some r.
Proof.
  intros Hk Ho. unfold try_catch.
  destruct (Prisma.findFirst id _ db) as [x|] eqn:Hf; cbn; [|done].
  apply findFirst_inv in Hf as [Hl Hx%String.eqb_eq].
  unfold Prisma.update. rewrite Hl. cbn.
  destruct (change x) as [x'|]; cbn; [|done].
  rewrite lookup_insert_ne; [done|]. intros <-. congruence.
Qed.

Lemma delete_handler_others {R} (owner : R → string)
    userId id (missing failed : string) (db : gmap string R) k r :
  db !! k = Some r → owner r ≠ userId →
  (try_catch failed db
     (match Prisma.findFirst id (λ x, String.eqb (owner x) userId) db with
      | None => Some (Fail 404 missing, db)
      | Some _ =>
          db' ← Prisma.delete_ id db;
          Some (Reply 200 (), db')
      end)).2 !! k = Some r.
Proof.
  intros Hk Ho. unfold try_catch.
  destruct (Prisma.findFirst id _ db) as [x|] eqn:Hf; cbn; [|done].
  apply findFirst_inv in Hf as [Hl Hx%String.eqb_eq].
  unfold Prisma.delete_. rewrite Hl. cbn.
  rewrite lookup_delete_ne; [done|]. intros <-. congruence.
Qed.

Lemma contract_keeps {R} (imported : value → option (string → R)) list
    required failed (db : gmap string R) out k r :
  Spec.bulk_import_contract imported list required failed db out →
  db !! k = Some r → out.2 !! k = Some r.
Proof.
  intros [(records & rows & db' & _ & _ & _ & -> & Hins)
         |(s & e & -> & _)]%contract_cases Hk; [|done].
  destruct Hins as (ids & _ & _ & Hfresh & _ & Hkeep & _). cbn.
  rewrite Hkeep; [done|]. intros Hin%Hfresh. congruence.
Qed.

Lemma createNote_keeps userId body now (db : gmap string Note) k r :
  db !! k = Some r → (createNote userId body now db).2 !! k = Some r.
Proof.
  intros Hk. destruct (createNote userId body now db) as [[s n|s e] db'] eqn:Hc.
  - apply createNote_Reply in Hc as (_ & Hfresh & -> & _). cbn.
    rewrite lookup_insert_ne; [done|]. intros <-. congruence.
  - by apply createNote_Fail in Hc as [-> _].
Qed.

Lemma createTask_keeps `{Platform} userId body now (db : gmap string Task) k r :
  db !! k = Some r → (createTask userId body now db).2 !! k = Some r.
Proof.
  intros Hk. destruct (createTask userId body now db) as [[s n|s e] db'] eqn:Hc.
  - apply createTask_Reply in Hc as (_ & Hfresh & -> & _). cbn.
    rewrite lookup_insert_ne; [done|]. intros <-. congruence.
  - by apply createTask_Fail in Hc as [-> _].
Qed.

Lemma createIdea_keeps userId body now (db : gmap string Idea) k r :
  db !! k = Some r → (createIdea userId body now db).2 !! k = Some r.
Proof.
  intros Hk. destruct (createIdea userId body now db) as [[s n|s e] db'] eqn:Hc.
  - apply createIdea_Reply in Hc as (_ & Hfresh & -> & _). cbn.
    rewrite lookup_insert_ne; [done|]. intros <-. congruence.
  - by apply createIdea_Fail in Hc as [-> _].
Qed.
End isolation.

(** X4.  No write reaches another user's data: whatever the request, a
    Create, Update, Delete or BulkImport made by a caller leaves every row
    owned by somebody else in the table, unchanged and under its key. *)
Theorem writes_leave_other_owners_rows `{Platform} (userId id : string)
    (body : value) (now : Z)
    (notes : gmap string NotesController.Note)
    (tasks : gmap string TasksController.Task)
    (ideas : gmap string IdeasController.Idea) :
  (∀ k r, notes !! k = Some r → NotesController.note_userId r ≠ userId →
     (NotesController.createNote userId body now notes).2 !! k = Some r
     ∧ (NotesController.updateNote userId id body notes).2 !! k = Some r
     ∧ (NotesController.deleteNote userId id notes).2 !! k = Some r
     ∧ (NotesController.bulkCreateNotes userId body now notes).2 !! k = Some r)
  ∧ (∀ k r, tasks !! k = Some r → TasksController.task_userId r ≠ userId →
       (TasksController.createTask userId body now tasks).2 !! k = Some r
       ∧ (TasksController.updateTask userId id body tasks).2 !! k = Some r
       ∧ (TasksController.deleteTask userId id tasks).2 !! k = Some r
       ∧ (TasksController.bulkCreateTasks userId body now tasks).2 !! k = Some r)
  ∧ (∀ k r, ideas !! k = Some r → IdeasController.idea_userId r ≠ userId →
       (IdeasController.createIdea userId body now ideas).2 !! k = Some r
       ∧ (IdeasController.updateIdea userId id body ideas).2 !! k = Some r
       ∧ (IdeasController.deleteIdea userId id ideas).2 !! k = Some r
       ∧ (IdeasController.bulkCreateIdeas userId body now ideas).2 !! k = Some r).
Proof.
  split_and!; intros k r Hk Ho; split_and!.
  - by apply createNote_keeps.
  - by apply (update_handler_others NotesController.note_userId).
  - by apply (delete_handler_others NotesController.note_userId).
  - eapply contract_keeps; [apply bulkCreateNotes_contract|done].
  - by apply createTask_keeps.
  - by apply (update_handler_others TasksController.task_userId).
  - by apply (delete_handler_others TasksController.task_userId).
  - eapply contract_keeps; [apply bulkCreateTasks_contract|done].
  - by apply createIdea_keeps.
  - by apply (update_handler_others IdeasController.idea_userId).
  - by apply (delete_handler_others IdeasController.idea_userId).
  - eapply contract_keeps; [apply bulkCreateIdeas_contract|done].
Qed.

(** X4 at work: user u2 creates, updates, deletes and imports against a
    table that holds note n1 of user u1; n1 stays as it is. *)
Lemma writes_leave_other_owners_rows_witness :
  let notes : gmap string NotesController.Note := {[ "n1" := Sample.note1 ]} in
  let body := VObj [("title", VStr "Mine"); ("content", VStr "now");
                    ("notes", VArr [VObj [("id", VStr "n1");
                                          ("title", VStr "Mine");
                                          ("content", VStr "now")]])] in
  (NotesController.createNote "u2" body 9 notes).2 !! "n1" = Some Sample.note1
  ∧ (NotesController.updateNote "u2" "n1" body notes).2 !! "n1" = Some Sample.note1
  ∧ (NotesController.deleteNote "u2" "n1" notes).2 !! "n1" = Some Sample.note1
  ∧ (NotesController.bulkCreateNotes "u2" body 9 notes).2 !! "n1"
    = Some Sample.note1.
Proof.
  intros notes body.
  apply (proj1 (writes_leave_other_owners_rows (H := Sample.platform)
                  "u2" "n1" body 9 notes ∅ ∅) "n1" Sample.note1);
    [reflexivity|discriminate].
Defined.

Section reads.
Import NotesController TasksController IdeasController.

Lemma getById_foreign {R} (owner : R → string) userId id (missing failed : string)
    (db : gmap string R) :
  (∀ r, db !! id = Some r → owner r ≠ userId) →
  try_catch failed db
    (match Prisma.findFirst id (λ x, String.eqb (owner x) userId) db with
     | None => Some (Fail 404 missing, db)
     | Some x => Some (Reply 200 x, db)
     end) = (Fail 404 missing, db).
Proof. intros Hn. by rewrite findFirst_foreign. Qed.

Lemma getById_owned {R} (owner : R → string) userId id (missing failed : string)
    (db : gmap string R) r :
  db !! id = Some r → owner r = userId →
  try_catch failed db
    (match Prisma.findFirst id (λ x, String.eqb (owner x) userId) db with
     | None => Some (Fail 404 missing, db)
     | Some x => Some (Reply 200 x, db)
     end) = (Reply 200 r, db).
Proof.
  intros Hl Ho. by rewrite (findFirst_Some _ _ _ r Hl); [|apply String.eqb_eq].
Qed.

Lemma update_foreign {R} (owner : R → string) (change : R → option R)
    userId id (missing failed : string) (db : gmap string R) :
  (∀ r, db !! id = Some r → owner r ≠ userId) →
  try_catch failed db
    (match Prisma.findFirst id (λ x, String.eqb (owner x) userId) db with
     | None => Some (Fail 404 missing, db)
     | Some _ =>
         '(x, db') ← Prisma.update id change db;
         Some (Reply 200 x, db')
     end) = (Fail 404 missing, db).
Proof. intros Hn. by rewrite findFirst_foreign. Qed.
End reads.

(** X6.  GetById and Update are scoped to the caller: when no record with
    the given id belongs to the caller (there is none, or it is another
    user's), both answer 404 and change nothing; when the caller owns the
    record, GetById answers 200 with it. *)
Theorem get_and_update_are_owner_scoped `{Platform} (userId id : string)
    (body : value)
    (notes : gmap string NotesController.Note)
    (tasks : gmap string TasksController.Task)
    (ideas : gmap string IdeasController.Idea) :
  ((∀ n, notes !! id = Some n → NotesController.note_userId n ≠ userId) →
     NotesController.getNoteById userId id notes
     = (Fail 404 "Note not found", notes)
     ∧ NotesController.updateNote userId id body notes
       = (Fail 404 "Note not found", notes))
  ∧ (∀ n, notes !! id = Some n → NotesController.note_userId n = userId →
       NotesController.getNoteById userId id notes = (Reply 200 n, notes))
  ∧ ((∀ t, tasks !! id = Some t → TasksController.task_userId t ≠ userId) →
       TasksController.getTaskById userId id tasks
       = (Fail 404 "Task not found", tasks)
       ∧ TasksController.updateTask userId id body tasks
         = (Fail 404 "Task not found", tasks))
  ∧ (∀ t, tasks !! id = Some t → TasksController.task_userId t = userId →
       TasksController.getTaskById userId id tasks = (Reply 200 t, tasks))
  ∧ ((∀ i, ideas !! id = Some i → IdeasController.idea_userId i ≠ userId) →
       IdeasController.getIdeaById userId id ideas
       = (Fail 404 "Idea not found", ideas)
       ∧ IdeasController.updateIdea userId id body ideas
         = (Fail 404 "Idea not found", ideas))
  ∧ (∀ i, ideas !! id = Some i → IdeasController.idea_userId i = userId →
       IdeasController.getIdeaById userId id ideas = (Reply 200 i, ideas)).
Proof.
  split_and!.
  - intros Hn. split.
    + by apply (getById_foreign NotesController.note_userId).
    + by apply (update_foreign NotesController.note_userId).
  - intros n. apply (getById_owned NotesController.note_userId).
  - intros Hn. split.
    + by apply (getById_foreign TasksController.task_userId).
    + by apply (update_foreign TasksController.task_userId).
  - intros n. apply (getById_owned TasksController.task_userId).
  - intros Hn. split.
    + by apply (getById_foreign IdeasController.idea_userId).
    + by apply (update_foreign IdeasController.idea_userId).
  - intros n. apply (getById_owned IdeasController.idea_userId).
Qed.

(** X6 at work: note n1 of user u1, read and updated by u2, then read by
    u1. *)
Lemma get_and_update_are_owner_scoped_witness :
  (NotesController.getNoteById "u2" "n1" {[ "n1" := Sample.note1 ]}
   = (Fail 404 "Note not found", {[ "n1" := Sample.note1 ]})
   ∧ NotesController.updateNote "u2" "n1" (VObj [("title", VStr "Mine")])
       {[ "n1" := Sample.note1 ]}
     = (Fail 404 "Note not found", {[ "n1" := Sample.note1 ]}))
  ∧ NotesController.getNoteById "u1" "n1" {[ "n1" := Sample.note1 ]}
    = (Reply 200 Sample.note1, {[ "n1" := Sample.note1 ]}).
Proof.
  split.
  - apply (proj1 (get_and_update_are_owner_scoped (H := Sample.platform)
                    "u2" "n1" (VObj [("title", VStr "Mine")])
                    {[ "n1" := Sample.note1 ]} ∅ ∅)).
    intros n Hn. rewrite lookup_singleton_eq in Hn. injection Hn as <-.
    discriminate.
  - apply (proj1 (proj2 (get_and_update_are_owner_scoped (H := Sample.platform)
                           "u1" "n1" VUndefined
                           {[ "n1" := Sample.note1 ]} ∅ ∅)) Sample.note1);
      reflexivity.
Defined.

(** X5.  Update is idempotent: sending the same Update a second time
    gives the same answer as the first time and leaves the table as the
    first Update left it (also when the answer is 404 or 500).  This is
    about the columns the controllers read or write; a modification stamp
    that the database keeps by itself is not part of the rows here. *)
Theorem update_twice_is_update_once `{Platform} (userId id : string)
    (body : value)
    (notes : gmap string NotesController.Note)
    (tasks : gmap string TasksController.Task)
    (ideas : gmap string IdeasController.Idea) :
  NotesController.updateNote userId id body
    (NotesController.updateNote userId id body notes).2
  = NotesController.updateNote userId id body notes
  ∧ TasksController.updateTask userId id body
      (TasksController.updateTask userId id body tasks).2
    = TasksController.updateTask userId id body tasks
  ∧ IdeasController.updateIdea userId id body
      (IdeasController.updateIdea userId id body ideas).2
    = IdeasController.updateIdea userId id body ideas.
Proof.
  split_and!; [apply updateNote_twice | apply updateTask_twice | apply updateIdea_twice].
Qed.

(** X1.  Create, for notes, tasks and ideas alike, gives one of three
    answers, and the request decides which.  When a required field of the
    request is falsy (missing, empty, null, 0 or false) the answer is 400
    and the table stays as it was.  Otherwise, when every value fits its
    column (a string where a string is stored, a boolean for a flag, one of
    the three priorities, a valid date, strings as tags), the answer is 201
    with the one record that was stored, under an identifier that the
    database chose and no row had before, so that no existing row is
    overwritten; and when a value does not fit, the answer is 500 and the
    table stays as it was.  The stored record is owned by the caller,
    created at the time of the call, holds the request's required fields as
    they were sent, and every optional field is the request's value or its
    default. *)
Theorem create_inserts_one_fresh_row `{Platform} (userId : string)
    (body : value) (now : Z)
    (notes : gmap string NotesController.Note)
    (tasks : gmap string TasksController.Task)
    (ideas : gmap string IdeasController.Idea) :
  (NotesController.createNote userId body now notes
   = (if negb (truthy (get "title" body)) || negb (truthy (get "content" body))
      then (Fail 400 "Title and content are required", notes)
      else match Spec.imported_note userId now body with
           | Some row =>
               (Reply 201 (row (Prisma.new_id notes)),
                <[Prisma.new_id notes := row (Prisma.new_id notes)]> notes)
           | None => (Fail 500 "Failed to create note", notes)
           end)
   ∧ notes !! Prisma.new_id notes = None
   ∧ match NotesController.createNote userId body now notes with
     | (Reply s n, notes') =>
         s = 201%nat
         ∧ notes !! NotesController.note_id n = None
         ∧ notes' = <[NotesController.note_id n := n]> notes
         ∧ NotesController.note_userId n = userId
         ∧ NotesController.note_createdAt n = now
         ∧ get "title" body = VStr (NotesController.note_title n)
         ∧ get "content" body = VStr (NotesController.note_content n)
         ∧ or (get "color" body) (VStr "#ffffff")
           = VStr (NotesController.note_color n)
         ∧ or (get "isPinned" body) (VBool false)
           = VBool (NotesController.note_isPinned n)
     | (Fail s e, notes') =>
         notes' = notes
         ∧ ((s = 400%nat ∧ e = "Title and content are required"
             ∧ (truthy (get "title" body) = false
                ∨ truthy (get "content" body) = false))
            ∨ (s = 500%nat ∧ e = "Failed to create note"
               ∧ truthy (get "title" body) = true
               ∧ truthy (get "content" body) = true))
     end)
  ∧ (TasksController.createTask userId body now tasks
     = (if negb (truthy (get "title" body))
        then (Fail 400 "Title is required", tasks)
        else match Spec.imported_task userId now body with
             | Some row =>
                 (Reply 201 (row (Prisma.new_id tasks)),
                  <[Prisma.new_id tasks := row (Prisma.new_id tasks)]> tasks)
             | None => (Fail 500 "Failed to create task", tasks)
             end)
     ∧ tasks !! Prisma.new_id tasks = None
     ∧ match TasksController.createTask userId body now tasks with
       | (Reply s t, tasks') =>
           s = 201%nat
           ∧ tasks !! TasksController.task_id t = None
           ∧ tasks' = <[TasksController.task_id t := t]> tasks
           ∧ TasksController.task_userId t = userId
           ∧ TasksController.task_createdAt t = now
           ∧ get "title" body = VStr (TasksController.task_title t)
           ∧ or (get "description" body) VNull
             = Server.nullable_json VStr (TasksController.task_description t)
           ∧ or (get "completed" body) (VBool false)
             = VBool (TasksController.task_completed t)
           ∧ or (get "priority" body) (VStr "medium")
             = Server.priority_json (TasksController.task_priority t)
           ∧ TasksController.task_dueDate t
             = (if truthy (get "dueDate" body)
                then new_Date (get "dueDate" body) else None)
       | (Fail s e, tasks') =>
           tasks' = tasks
           ∧ ((s = 400%nat ∧ e = "Title is required"
               ∧ truthy (get "title" body) = false)
              ∨ (s = 500%nat ∧ e = "Failed to create task"
                 ∧ truthy (get "title" body) = true))
       end)
  ∧ (IdeasController.createIdea userId body now ideas
     = (if negb (truthy (get "title" body))
           || negb (truthy (get "description" body))
        then (Fail 400 "Title and description are required", ideas)
        else match Spec.imported_idea userId now body with
             | Some row =>
                 (Reply 201 (row (Prisma.new_id ideas)),
                  <[Prisma.new_id ideas := row (Prisma.new_id ideas)]> ideas)
             | None => (Fail 500 "Failed to create idea", ideas)
             end)
     ∧ ideas !! Prisma.new_id ideas = None
     ∧ match IdeasController.createIdea userId body now ideas with
       | (Reply s i, ideas') =>
           s = 201%nat
           ∧ ideas !! IdeasController.idea_id i = None
           ∧ ideas' = <[IdeasController.idea_id i := i]> ideas
           ∧ IdeasController.idea_userId i = userId
           ∧ IdeasController.idea_createdAt i = now
           ∧ get "title" body = VStr (IdeasController.idea_title i)
           ∧ get "description" body = VStr (IdeasController.idea_description i)
           ∧ or (get "category" body) (VStr "general")
             = VStr (IdeasController.idea_category i)
           ∧ (if isArray (get "tags" body) then get "tags" body else VArr [])
             = VArr (VStr <$> IdeasController.idea_tags i)
       | (Fail s e, ideas') =>
           ideas' = ideas
           ∧ ((s = 400%nat ∧ e = "Title and description are required"
               ∧ (truthy (get "title" body) = false
                  ∨ truthy (get "description" body) = false))
              ∨ (s = 500%nat ∧ e = "Failed to create idea"
                 ∧ truthy (get "title" body) = true
                 ∧ truthy (get "description" body) = true))
       end).
Proof.
  split_and!.
  - apply createNote_cases.
  - apply new_id_fresh.
  - destruct (NotesController.createNote _ _ _ _) as [[s n|s e] notes'] eqn:Hc.
    + by apply createNote_Reply in Hc.
    + by apply createNote_Fail in Hc.
  - apply createTask_cases.
  - apply new_id_fresh.
  - destruct (TasksController.createTask _ _ _ _) as [[s n|s e] tasks'] eqn:Hc.
    + by apply createTask_Reply in Hc.
    + by apply createTask_Fail in Hc.
  - apply createIdea_cases.
  - apply new_id_fresh.
  - destruct (IdeasController.createIdea _ _ _ _) as [[s n|s e] ideas'] eqn:Hc.
    + by apply createIdea_Reply in Hc.
    + by apply createIdea_Fail in Hc.
Qed.

Section round_trip.
Import NotesController TasksController IdeasController.

(** What a handler that looks a record up finds after the record was
    inserted under a key. *)
Lemma findFirst_insert {R} (owner : R → string) userId id (db : gmap string R) r :
  Prisma.findFirst id (λ x, String.eqb (owner x) userId) (<[id := r]> db)
  = if String.eqb (owner r) userId then Some r else None.
Proof. unfold Prisma.findFirst. by rewrite lookup_insert_eq. Qed.

Lemma createNote_read_back userId body now (db db' : gmap string Note) s n :
  createNote userId body now db = (Reply s n, db') →
  getNoteById userId (note_id n) db' = (Reply 200 n, db')
  ∧ (∀ other, other ≠ userId →
       getNoteById other (note_id n) db' = (Fail 404 "Note not found", db'))
  ∧ (∃ l, getNotes userId db' = (Reply 200 l, db') ∧ n ∈ l)
  ∧ deleteNote userId (note_id n) db' = (Reply 200 (), db).
Proof.
  intros (_ & Hfresh & -> & Ho & _)%createNote_Reply. split_and!.
  - apply (getById_owned note_userId); [apply lookup_insert_eq|done].
  - intros other Hne. apply (getById_foreign note_userId).
    intros r. rewrite lookup_insert_eq. intros [= <-]. congruence.
  - eexists. split; [reflexivity|]. apply elem_of_findMany. split.
    + by apply String.eqb_eq.
    + exists (note_id n). apply lookup_insert_eq.
  - rewrite (deleteNote_owned userId _ _ n); [|apply lookup_insert_eq|done].
    by rewrite delete_insert_id.
Qed.

Lemma createTask_read_back `{Platform} userId body now (db db' : gmap string Task) s t :
  createTask userId body now db = (Reply s t, db') →
  getTaskById userId (task_id t) db' = (Reply 200 t, db')
  ∧ (∀ other, other ≠ userId →
       getTaskById other (task_id t) db' = (Fail 404 "Task not found", db'))
  ∧ (∃ l, getTasks userId db' = (Reply 200 l, db') ∧ t ∈ l)
  ∧ deleteTask userId (task_id t) db' = (Reply 200 (), db).
Proof.
  intros (_ & Hfresh & -> & Ho & _)%createTask_Reply. split_and!.
  - apply (getById_owned task_userId); [apply lookup_insert_eq|done].
  - intros other Hne. apply (getById_foreign task_userId).
    intros r. rewrite lookup_insert_eq. intros [= <-]. congruence.
  - eexists. split; [reflexivity|]. apply elem_of_findMany. split.
    + by apply String.eqb_eq.
    + exists (task_id t). apply lookup_insert_eq.
  - rewrite (deleteTask_owned userId _ _ t); [|apply lookup_insert_eq|done].
    by rewrite delete_insert_id.
Qed.

Lemma createIdea_read_back `{Platform} userId body now (db db' : gmap string Idea) s i :
  createIdea userId body now db = (Reply s i, db') →
  getIdeaById userId (idea_id i) db' = (Reply 200 i, db')
  ∧ (∀ other, other ≠ userId →
       getIdeaById other (idea_id i) db' = (Fail 404 "Idea not found", db'))
  ∧ (∃ l, getIdeas userId VUndefined db' = (Reply 200 l, db') ∧ i ∈ l)
  ∧ deleteIdea userId (idea_id i) db' = (Reply 200 (), db).
Proof.
  intros (_ & Hfresh & -> & Ho & _)%createIdea_Reply. split_and!.
  - apply (getById_owned idea_userId); [apply lookup_insert_eq|done].
  - intros other Hne. apply (getById_foreign idea_userId).
    intros r. rewrite lookup_insert_eq. intros [= <-]. congruence.
  - eexists. split; [reflexivity|]. apply elem_of_findMany. split.
    + by apply String.eqb_eq.
    + exists (idea_id i). apply lookup_insert_eq.
  - rewrite (deleteIdea_owned userId _ _ i); [|apply lookup_insert_eq|done].
    by rewrite delete_insert_id.
Qed.
End round_trip.

(** X2.  A record that Create answered with can be read back: GetById by
    the same caller under the record's identifier answers 200 with exactly
    that record, GetById by any other caller answers 404, and the caller's
    List contains the record. *)
Theorem created_record_is_read_back `{Platform} (userId : string)
    (body : value) (now : Z)
    (notes : gmap string NotesController.Note)
    (tasks : gmap string TasksController.Task)
    (ideas : gmap string IdeasController.Idea) :
  (∀ s n notes',
     NotesController.createNote userId body now notes = (Reply s n, notes') →
     NotesController.getNoteById userId (NotesController.note_id n) notes'
     = (Reply 200 n, notes')
     ∧ (∀ other, other ≠ userId →
          NotesController.getNoteById other (NotesController.note_id n) notes'
          = (Fail 404 "Note not found", notes'))
     ∧ (∃ l, NotesController.getNotes userId notes' = (Reply 200 l, notes')
             ∧ n ∈ l))
  ∧ (∀ s t tasks',
       TasksController.createTask userId body now tasks = (Reply s t, tasks') →
       TasksController.getTaskById userId (TasksController.task_id t) tasks'
       = (Reply 200 t, tasks')
       ∧ (∀ other, other ≠ userId →
            TasksController.getTaskById other (TasksController.task_id t) tasks'
            = (Fail 404 "Task not found", tasks'))
       ∧ (∃ l, TasksController.getTasks userId tasks' = (Reply 200 l, tasks')
               ∧ t ∈ l))
  ∧ (∀ s i ideas',
       IdeasController.createIdea userId body now ideas = (Reply s i, ideas') →
       IdeasController.getIdeaById userId (IdeasController.idea_id i) ideas'
       = (Reply 200 i, ideas')
       ∧ (∀ other, other ≠ userId →
            IdeasController.getIdeaById other (IdeasController.idea_id i) ideas'
            = (Fail 404 "Idea not found", ideas'))
       ∧ (∃ l, IdeasController.getIdeas userId VUndefined ideas'
               = (Reply 200 l, ideas')
               ∧ i ∈ l)).
Proof.
  split_and!; intros s x db' Hc.
  - apply createNote_read_back in Hc as (? & ? & ? & _). done.
  - apply createTask_read_back in Hc as (? & ? & ? & _). done.
  - apply createIdea_read_back in Hc as (? & ? & ? & _). done.
Qed.

(** X2 at work: u1 creates a note beside n1 and reads it back; u2 does not
    get it. *)
Lemma created_record_is_read_back_witness :
  let notes : gmap string NotesController.Note := {[ "n1" := Sample.note1 ]} in
  let n := {| NotesController.note_id := Prisma.new_id notes;
              NotesController.note_title := "A";
              NotesController.note_content := "B";
              NotesController.note_color := "#ffffff";
              NotesController.note_isPinned := false;
              NotesController.note_userId := "u1";
              NotesController.note_createdAt := 9 |} in
  NotesController.getNoteById "u1" (NotesController.note_id n)
    (<[Prisma.new_id notes := n]> notes)
  = (Reply 200 n, <[Prisma.new_id notes := n]> notes)
  ∧ NotesController.getNoteById "u2" (NotesController.note_id n)
      (<[Prisma.new_id notes := n]> notes)
    = (Fail 404 "Note not found", <[Prisma.new_id notes := n]> notes).
Proof.
  intros notes n.
  destruct (proj1 (created_record_is_read_back (H := Sample.platform) "u1"
                     (VObj [("title", VStr "A"); ("content", VStr "B")]) 9
                     notes ∅ ∅) 201%nat n (<[Prisma.new_id notes := n]> notes))
    as (Hget & Hother & _); [reflexivity|].
  split; [exact Hget|]. by apply Hother.
Defined.

(** X3.  Delete undoes Create: deleting, as the same caller, the record
    that a Create just answered with answers 200 and gives back the table
    as it was before the Create. *)
Theorem delete_undoes_create `{Platform} (userId : string)
    (body : value) (now : Z)
    (notes : gmap string NotesController.Note)
    (tasks : gmap string TasksController.Task)
    (ideas : gmap string IdeasController.Idea) :
  (∀ s n notes',
     NotesController.createNote userId body now notes = (Reply s n, notes') →
     NotesController.deleteNote userId (NotesController.note_id n) notes'
     = (Reply 200 (), notes))
  ∧ (∀ s t tasks',
       TasksController.createTask userId body now tasks = (Reply s t, tasks') →
       TasksController.deleteTask userId (TasksController.task_id t) tasks'
       = (Reply 200 (), tasks))
  ∧ (∀ s i ideas',
       IdeasController.createIdea userId body now ideas = (Reply s i, ideas') →
       IdeasController.deleteIdea userId (IdeasController.idea_id i) ideas'
       = (Reply 200 (), ideas)).
Proof.
  split_and!; intros s x db' Hc.
  - by apply createNote_read_back in Hc as (_ & _ & _ & ?).
  - by apply createTask_read_back in Hc as (_ & _ & _ & ?).
  - by apply createIdea_read_back in Hc as (_ & _ & _ & ?).
Qed.

(** X3 at work: u1 creates a task beside t1 and deletes it again. *)
Lemma delete_undoes_create_witness :
  let tasks : gmap string TasksController.Task := {[ "t1" := Sample.task1 ]} in
  let t := {| TasksController.task_id := Prisma.new_id tasks;
              TasksController.task_title := "Call";
              TasksController.task_description := None;
              TasksController.task_completed := false;
              TasksController.task_priority := TasksController.medium;
              TasksController.task_dueDate := Some 40;
              TasksController.task_userId := "u1";
              TasksController.task_createdAt := 9 |} in
  TasksController.deleteTask "u1" (TasksController.task_id t)
    (<[Prisma.new_id tasks := t]> tasks)
  = (Reply 200 (), tasks).
Proof.
  intros tasks t.
  apply (proj1 (proj2 (delete_undoes_create (H := Sample.platform) "u1"
                         (VObj [("title", VStr "Call"); ("dueDate", VNum 40)]) 9
                         ∅ tasks ∅)) 201%nat t).
  reflexivity.
Defined.
Section accounts.
Import AuthController.
Context `{Platform}.

Lemma typeof_string_Some v s : typeof_string v = Some s → v = VStr s.
Proof. destruct v; cbn; congruence. Qed.

Lemma truthy_VStr s : truthy (VStr s) = true → s ≠ "".
Proof. cbn. intros Hs ->. done. Qed.

Lemma register_inv body salt now (users users' : gmap string User) s session :
  register body salt now users = (Reply s session, users') →
  ∃ e p name,
    get "email" body = VStr e ∧ e ≠ ""
    ∧ get "password" body = VStr p ∧ p ≠ ""
    ∧ Prisma.nullable Prisma.String_ (Prisma.Js (or (get "name" body) VNull))
      = Some name
    ∧ users !! e = None
    ∧ s = 201%nat
    ∧ session = {| session_id := new_user_id users; session_email := e;
                   session_name := name;
                   session_token := jwt_sign (new_user_id users) e now |}
    ∧ users' = <[e := {| user_id := new_user_id users; user_email := e;
                         user_password := bcrypt_hash p salt;
                         user_name := name |}]> users.
Proof.
  unfold register, try_catch.
  destruct (truthy (get "email" body)) eqn:Hte; [|done].
  destruct (truthy (get "password" body)) eqn:Htp; [|done].
  cbn [negb orb].
  destruct (Prisma.String_ _) as [e|] eqn:He; cbn [mbind option_bind]; [|done].
  apply String_Some in He.
  destruct (users !! e) eqn:Hu; [done|].
  destruct (typeof_string _) as [p|] eqn:Hp; cbn [mbind option_bind]; [|done].
  apply typeof_string_Some in Hp.
  destruct (Prisma.nullable _ _) as [n|] eqn:Hn; cbn; [|done].
  intros [= <- <- <-]. exists e, p, n.
  rewrite He in Hte. rewrite Hp in Htp.
  split_and!; try done; by apply truthy_VStr.
Qed.

Lemma login_inv body now (users users' : gmap string User) s session :
  login body now users = (Reply s session, users') →
  s = 200%nat ∧ users' = users
  ∧ ∃ e p u,
      get "email" body = VStr e ∧ get "password" body = VStr p
      ∧ users !! e = Some u
      ∧ bcrypt_compare p (user_password u) = true
      ∧ session = {| session_id := user_id u; session_email := user_email u;
                     session_name := user_name u;
                     session_token := jwt_sign (user_id u) (user_email u) now |}.
Proof.
  unfold login, try_catch.
  destruct (negb _ || negb _); [done|].
  destruct (Prisma.String_ _) as [e|] eqn:He; cbn [mbind option_bind]; [|done].
  apply String_Some in He.
  destruct (users !! e) as [u|] eqn:Hu; [|done].
  destruct (typeof_string _) as [p|] eqn:Hp; cbn [mbind option_bind]; [|done].
  apply typeof_string_Some in Hp.
  destruct (bcrypt_compare p (user_password u)) eqn:Hc; cbn [negb]; [|done].
  intros [= <- <- <-]. split_and!; try done. by exists e, p, u.
Qed.

Lemma login_keeps_users body now (users : gmap string User) :
  (login body now users).2 = users.
Proof.
  unfold login, try_catch.
  destruct (negb _ || negb _); [done|].
  destruct (Prisma.String_ _) as [e|]; cbn [mbind option_bind]; [|done].
  destruct (users !! e) as [u|]; [|done].
  destruct (typeof_string _) as [p|]; cbn [mbind option_bind]; [|done].
  by destruct (negb _).
Qed.

Lemma login_known body now (users : gmap string User) e p u :
  get "email" body = VStr e → e ≠ "" → get "password" body = VStr p → p ≠ "" →
  users !! e = Some u →
  login body now users
  = (if bcrypt_compare p (user_password u)
     then Reply 200 {| session_id := user_id u; session_email := user_email u;
                       session_name := user_name u;
                       session_token := jwt_sign (user_id u) (user_email u) now |}
     else Fail 401 "Invalid email or password", users).
Proof.
  intros He Hne Hp Hnp Hu. unfold login, try_catch. rewrite He, Hp.
  rewrite !truthy_nonempty by done. cbn. rewrite Hu. cbn.
  by destruct (bcrypt_compare _ _).
Qed.

Lemma register_known body salt now (users : gmap string User) e u :
  get "email" body = VStr e → e ≠ "" → truthy (get "password" body) = true →
  users !! e = Some u →
  register body salt now users
  = (Fail 400 "User already exists with this email", users).
Proof.
  intros He Hne Hp Hu. unfold register, try_catch. rewrite He, Hp.
  rewrite truthy_nonempty by done. cbn. by rewrite Hu.
Qed.

Lemma new_user_id_fresh (users : gmap string User) e u :
  users !! e = Some u → user_id u ≠ new_user_id users.
Proof.
  intros Hu Heq. unfold new_user_id in Heq.
  eapply (fresh_string_of_set_fresh
            (list_to_set (user_id <$> (map_to_list users).*2)) "id").
  rewrite <- Heq. apply elem_of_list_to_set, list_elem_of_fmap.
  exists u. split; [done|]. apply list_elem_of_fmap. exists (e, u).
  split; [done|]. by apply elem_of_map_to_list.
Qed.
End accounts.

(** X8.  Whoever registered can log in.  Provided that bcrypt accepts a
    password against the hash it made of it (with the salt drawn by the
    registration), a Login with the body of a Register that was answered
    with a session answers 200 with the same user id, email and name, a
    token signed for that user at the time of the login, and an unchanged
    users table. *)
Theorem login_after_register `{Platform} (body : value) (salt : string)
    (now now' : Z) (users users' : gmap string AuthController.User)
    (s : nat) (session : AuthController.Session) :
  (∀ p, bcrypt_compare p (bcrypt_hash p salt) = true) →
  AuthController.register body salt now users = (Reply s session, users') →
  AuthController.login body now' users'
  = (Reply 200
       {| AuthController.session_id := AuthController.session_id session;
          AuthController.session_email := AuthController.session_email session;
          AuthController.session_name := AuthController.session_name session;
          AuthController.session_token :=
            jwt_sign (AuthController.session_id session)
              (AuthController.session_email session) now' |},
     users').
Proof.
  intros Hhash (e & p & name & He & Hne & Hp & Hnp & _ & _ & _ & -> & ->)%register_inv.
  erewrite login_known; [|done..|apply lookup_insert_eq]. cbn.
  by rewrite Hhash.
Qed.

(** X8 at work: Bob registers beside Ann and logs in. *)
Lemma login_after_register_witness :
  let users : gmap string AuthController.User :=
    {[ "ann@example.com" := Sample.user1 ]} in
  let body := VObj [("email", VStr "bob@example.com");
                    ("password", VStr "hunter2"); ("name", VStr "Bob")] in
  let bob := {| AuthController.user_id := AuthController.new_user_id users;
                AuthController.user_email := "bob@example.com";
                AuthController.user_password := "s1$hunter2";
                AuthController.user_name := Some "Bob" |} in
  AuthController.login (H := Sample.platform) body 200
    (<["bob@example.com" := bob]> users)
  = (Reply 200
       {| AuthController.session_id := AuthController.new_user_id users;
          AuthController.session_email := "bob@example.com";
          AuthController.session_name := Some "Bob";
          AuthController.session_token :=
            jwt_sign (Platform := Sample.platform) (AuthController.new_user_id users) "bob@example.com" 200 |},
     <["bob@example.com" := bob]> users).
Proof.
  intros users body bob.
  apply (login_after_register (H := Sample.platform) body "s1" 100 200 users
           (<["bob@example.com" := bob]> users) 201
           {| AuthController.session_id := AuthController.new_user_id users;
              AuthController.session_email := "bob@example.com";
              AuthController.session_name := Some "Bob";
              AuthController.session_token :=
                jwt_sign (Platform := Sample.platform) (AuthController.new_user_id users) "bob@example.com" 100 |}).
  - intros p. apply String.eqb_refl.
  - reflexivity.
Defined.

(** X9.  An email registers once.  A Register whose email is that of a
    stored user answers 400 and leaves the users table as it was, whatever
    password it carries; in particular, after a Register that was answered
    with a session, any further Register with the same email is refused,
    so the stored account and its password hash are never replaced. *)
Theorem register_refuses_known_email `{Platform} (body body' : value)
    (salt salt' : string) (now now' : Z)
    (users users' : gmap string AuthController.User) :
  (∀ e u, get "email" body = VStr e → e ≠ "" →
     truthy (get "password" body) = true → users !! e = Some u →
     AuthController.register body salt now users
     = (Fail 400 "User already exists with this email", users))
  ∧ (∀ s session,
       AuthController.register body salt now users = (Reply s session, users') →
       get "email" body' = get "email" body →
       truthy (get "password" body') = true →
       AuthController.register body' salt' now' users'
       = (Fail 400 "User already exists with this email", users')).
Proof.
  split.
  - intros e u. apply register_known.
  - intros s session (e & p & name & He & Hne & _ & _ & _ & _ & _ & _ & ->)%register_inv
      Hsame Hp.
    eapply register_known; [by rewrite Hsame|done..|apply lookup_insert_eq].
Qed.

(** X9 at work: a second registration under Ann's email. *)
Lemma register_refuses_known_email_witness :
  AuthController.register (H := Sample.platform)
    (VObj [("email", VStr "ann@example.com"); ("password", VStr "other")])
    "s2" 300 {[ "ann@example.com" := Sample.user1 ]}
  = (Fail 400 "User already exists with this email",
     {[ "ann@example.com" := Sample.user1 ]}).
Proof.
  apply (proj1 (register_refuses_known_email (H := Sample.platform)
                  (VObj [("email", VStr "ann@example.com");
                         ("password", VStr "other")]) VUndefined
                  "s2" "s2" 300 300 {[ "ann@example.com" := Sample.user1 ]} ∅)
           "ann@example.com" Sample.user1); [reflexivity|discriminate|reflexivity..].
Defined.

(** X10.  Login never changes the users table, and it answers with a
    session only when the request carries, as strings, the email of a
    stored user and a password that bcrypt accepts against that user's
    stored hash; the session then names that user and carries a token
    signed for that user. *)
Theorem login_needs_the_stored_password `{Platform} (body : value) (now : Z)
    (users : gmap string AuthController.User) :
  (AuthController.login body now users).2 = users
  ∧ (∀ s session users',
       AuthController.login body now users = (Reply s session, users') →
       s = 200%nat
       ∧ ∃ e p u,
           get "email" body = VStr e ∧ get "password" body = VStr p
           ∧ users !! e = Some u
           ∧ bcrypt_compare p (AuthController.user_password u) = true
           ∧ session
             = {| AuthController.session_id := AuthController.user_id u;
                  AuthController.session_email := AuthController.user_email u;
                  AuthController.session_name := AuthController.user_name u;
                  AuthController.session_token :=
                    jwt_sign (AuthController.user_id u)
                      (AuthController.user_email u) now |}).
Proof.
  split; [apply login_keeps_users|].
  intros s session users' (? & _ & ?)%login_inv. done.
Qed.

(** X10 at work: Ann's login with her password. *)
Lemma login_needs_the_stored_password_witness :
  ∃ e p u,
    get "email" (VObj [("email", VStr "ann@example.com");
                       ("password", VStr "secret")]) = VStr e
    ∧ get "password" (VObj [("email", VStr "ann@example.com");
                            ("password", VStr "secret")]) = VStr p
    ∧ ({[ "ann@example.com" := Sample.user1 ]}
         : gmap string AuthController.User) !! e = Some u
    ∧ bcrypt_compare (Platform := Sample.platform) p
        (AuthController.user_password u) = true.
Proof.
  destruct (proj2 (login_needs_the_stored_password (H := Sample.platform)
                     (VObj [("email", VStr "ann@example.com");
                            ("password", VStr "secret")]) 7
                     {[ "ann@example.com" := Sample.user1 ]})
              200%nat
              {| AuthController.session_id := "u1";
                 AuthController.session_email := "ann@example.com";
                 AuthController.session_name := None;
                 AuthController.session_token :=
                   jwt_sign (Platform := Sample.platform) "u1" "ann@example.com" 7 |}
              {[ "ann@example.com" := Sample.user1 ]})
    as (_ & e & p & u & He & Hp & Hu & Hc & _); [reflexivity|].
  by exists e, p, u.
Defined.

(** X11.  Register keeps the accounts apart.  If every user is stored
    under its own email and no two users share an identifier, the same
    holds of the users table after any Register, and every account that was
    there before is still there unchanged. *)
Theorem register_keeps_accounts_apart `{Platform} (body : value) (salt : string)
    (now : Z) (users : gmap string AuthController.User) :
  (∀ e u, users !! e = Some u → AuthController.user_email u = e) →
  (∀ e1 e2 u1 u2, users !! e1 = Some u1 → users !! e2 = Some u2 →
     AuthController.user_id u1 = AuthController.user_id u2 → e1 = e2) →
  let users' := (AuthController.register body salt now users).2 in
  (∀ e u, users' !! e = Some u → AuthController.user_email u = e)
  ∧ (∀ e1 e2 u1 u2, users' !! e1 = Some u1 → users' !! e2 = Some u2 →
       AuthController.user_id u1 = AuthController.user_id u2 → e1 = e2)
  ∧ (∀ e u, users !! e = Some u → users' !! e = Some u).
Proof.
  intros Hemail Hids users'. subst users'.
  destruct (AuthController.register body salt now users) as [[s session|s e] users']
    eqn:Hr; cbn.
  - apply register_inv in Hr
      as (e & p & name & He & Hne & _ & _ & _ & Hfresh & _ & _ & ->).
    split_and!.
    + intros e' u. destruct (decide (e' = e)) as [->|Hd].
      * rewrite lookup_insert_eq. by intros [= <-].
      * rewrite lookup_insert_ne by done. apply Hemail.
    + intros e1 e2 u1 u2.
      destruct (decide (e1 = e)) as [->|H1], (decide (e2 = e)) as [->|H2];
        rewrite ?lookup_insert_eq, ?lookup_insert_ne by done; try done.
      * intros [= <-] Hu2 Hid. cbn in Hid.
        by destruct (new_user_id_fresh _ _ _ Hu2).
      * intros Hu1 [= <-] Hid. cbn in Hid.
        by destruct (new_user_id_fresh _ _ _ Hu1).
      * apply Hids.
    + intros e' u Hu. rewrite lookup_insert_ne; [done|]. intros <-. congruence.
  - assert (users' = users) as ->; [|done].
    revert Hr. unfold AuthController.register, try_catch.
    destruct (negb _ || negb _); [by intros [= _ _ <-]|].
    destruct (Prisma.String_ _) as [em|]; cbn [mbind option_bind];
      [|by intros [= _ _ <-]].
    destruct (users !! em); [by intros [= _ _ <-]|].
    destruct (typeof_string _); cbn [mbind option_bind]; [|by intros [= _ _ <-]].
    destruct (Prisma.nullable _ _); cbn [mbind option_bind]; [done|].
    by intros [= _ _ <-].
Qed.

(** X11 at work: Bob registers beside Ann. *)
Lemma register_keeps_accounts_apart_witness :
  let users : gmap string AuthController.User :=
    {[ "ann@example.com" := Sample.user1 ]} in
  let users' :=
    (AuthController.register (H := Sample.platform)
       (VObj [("email", VStr "bob@example.com"); ("password", VStr "hunter2")])
       "s1" 100 users).2 in
  (∀ e u, users' !! e = Some u → AuthController.user_email u = e)
  ∧ (∀ e1 e2 u1 u2, users' !! e1 = Some u1 → users' !! e2 = Some u2 →
       AuthController.user_id u1 = AuthController.user_id u2 → e1 = e2)
  ∧ (∀ e u, users !! e = Some u → users' !! e = Some u).
Proof.
  intros users.
  apply (register_keeps_accounts_apart (H := Sample.platform)
           (VObj [("email", VStr "bob@example.com"); ("password", VStr "hunter2")])
           "s1" 100 users).
  - intros e u [<- <-]%lookup_singleton_Some. reflexivity.
  - intros e1 e2 u1 u2 [<- _]%lookup_singleton_Some [<- _]%lookup_singleton_Some _.
    reflexivity.
Defined.

Section ideas_list.
Import IdeasController.

Lemma newest_first_total a b : Spec.newest_first a b ∨ Spec.newest_first b a.
Proof. unfold Spec.newest_first. lia. Qed.

Lemma newest_first_trans a b c :
  Spec.newest_first a b → Spec.newest_first b c → Spec.newest_first a c.
Proof. unfold Spec.newest_first. lia. Qed.

Lemma getIdeas_all `{Platform} userId category (db : gmap string Idea) :
  truthy category = false →
  ∃ l, getIdeas userId category db = (Reply 200 l, db)
       ∧ l ≡ₚ filter (λ i, idea_userId i = userId) (map_to_list db).*2
       ∧ StronglySorted Spec.newest_first l.
Proof.
  intros Hc. unfold getIdeas, try_catch. rewrite Hc. cbn.
  eexists. split; [reflexivity|].
  destruct (findMany_spec (IdeasController.owned_by userId)
              [Prisma.desc Z.compare idea_createdAt] Spec.newest_first db
              newest_first_iff newest_first_total newest_first_trans) as [Hp Hs].
  split; [|exact Hs]. rewrite Hp. erewrite list_filter_iff; [done|].
  intros i. unfold IdeasController.owned_by. by rewrite String.eqb_eq.
Qed.

(** A category that the database client reads as a test on the column. *)
Lemma getIdeas_filtered `{Platform} userId category test (db : gmap string Idea) :
  truthy category = true → where_category category = Some test →
  ∃ l, getIdeas userId category db = (Reply 200 l, db)
       ∧ l ≡ₚ filter (λ i, idea_userId i = userId ∧ test (idea_category i) = true)
                (map_to_list db).*2
       ∧ StronglySorted Spec.newest_first l.
Proof.
  intros Hc Hw. unfold getIdeas, try_catch. rewrite Hc, Hw. cbn.
  eexists. split; [reflexivity|].
  match goal with |- context [Prisma.findMany ?w ?e db] =>
    destruct (findMany_spec w e Spec.newest_first db
                newest_first_iff newest_first_total newest_first_trans) as [Hp Hs]
  end.
  split; [|exact Hs]. rewrite Hp. erewrite list_filter_iff; [done|].
  intros i. unfold IdeasController.owned_by.
  by rewrite andb_true_iff, String.eqb_eq.
Qed.

Lemma getIdeas_category `{Platform} userId c (db : gmap string Idea) :
  c ≠ "" →
  ∃ l, getIdeas userId (VStr c) db = (Reply 200 l, db)
       ∧ l ≡ₚ filter (λ i, idea_userId i = userId ∧ idea_category i = c)
                (map_to_list db).*2
       ∧ StronglySorted Spec.newest_first l.
Proof.
  intros Hc.
  destruct (getIdeas_filtered userId (VStr c) (λ x, String.eqb x c) db)
    as (l & Hl & Hp & Hs); [by apply truthy_nonempty|done|].
  exists l. split; [done|]. split; [|done]. rewrite Hp.
  erewrite list_filter_iff; [done|]. intros i. by rewrite String.eqb_eq.
Qed.

Lemma getIdeas_refused `{Platform} userId category (db : gmap string Idea) :
  truthy category = true → where_category category = None →
  getIdeas userId category db = (Fail 500 "Failed to fetch ideas", db).
Proof. intros Hc Hw. unfold getIdeas, try_catch. by rewrite Hc, Hw. Qed.
End ideas_list.

(** X7.  The List of ideas.  Without a category in the query (or with an
    empty one) it answers 200 with exactly the caller's ideas; with a
    category string it answers 200 with exactly the caller's ideas whose
    category is that string, letter for letter; in both cases newest first,
    and the table is untouched.  A category that reaches the handler as an
    object (a bracketed query parameter) goes to the database client as a
    filter: when the client reads it as a test on the category, the answer
    is 200 with exactly the caller's ideas that pass the test, newest
    first, and when the client refuses it the answer is 500.  Any other
    category (an array, from a repeated parameter) is answered 500. *)
Theorem list_ideas_by_category `{Platform} (userId : string) (category : value)
    (ideas : gmap string IdeasController.Idea) :
  if truthy category then
    match category with
    | VStr c =>
        ∃ l, IdeasController.getIdeas userId category ideas = (Reply 200 l, ideas)
             ∧ l ≡ₚ filter (λ i, IdeasController.idea_userId i = userId
                                 ∧ IdeasController.idea_category i = c)
                      (map_to_list ideas).*2
             ∧ StronglySorted Spec.newest_first l
    | VObj fields =>
        match StringFilter fields with
        | Some test =>
            ∃ l, IdeasController.getIdeas userId category ideas
                 = (Reply 200 l, ideas)
                 ∧ l ≡ₚ filter (λ i, IdeasController.idea_userId i = userId
                                     ∧ test (IdeasController.idea_category i) = true)
                          (map_to_list ideas).*2
                 ∧ StronglySorted Spec.newest_first l
        | None =>
            IdeasController.getIdeas userId category ideas
            = (Fail 500 "Failed to fetch ideas", ideas)
        end
    | _ =>
        IdeasController.getIdeas userId category ideas
        = (Fail 500 "Failed to fetch ideas", ideas)
    end
  else
    ∃ l, IdeasController.getIdeas userId category ideas = (Reply 200 l, ideas)
         ∧ l ≡ₚ filter (λ i, IdeasController.idea_userId i = userId)
                  (map_to_list ideas).*2
         ∧ StronglySorted Spec.newest_first l.
Proof.
  destruct (truthy category) eqn:Ht; [|by apply getIdeas_all].
  destruct category as [| |b|n|c|items|fields]; try done;
    try (by apply getIdeas_refused).
  - apply getIdeas_category. by apply truthy_VStr.
  - destruct (StringFilter fields) as [test|] eqn:Hf.
    + by apply getIdeas_filtered.
    + by apply getIdeas_refused.
Qed.

Section header.
Context `{Platform}.

Lemma rev_app_append a b x : String.rev_app a b +:+ x = String.rev_app a (b +:+ x).
Proof. revert b. induction a as [|c a IH]; intros b; [done|]. cbn. by rewrite IH. Qed.

Lemma split_go_word sep cur a :
  Text.includes (String sep "") a = false →
  Text.split_go sep cur a = [String.rev cur +:+ a].
Proof.
  revert cur. induction a as [|c a IH]; intros cur.
  - intros _. cbn. unfold String.rev. by rewrite rev_app_append.
  - intros [Hc Ha]%includes_char_cons. cbn [Text.split_go].
    rewrite (proj2 (Ascii.eqb_neq c sep) Hc), IH by done.
    unfold String.rev. cbn [String.rev_app]. by rewrite !rev_app_append.
Qed.

Lemma split_go_sep sep cur a b :
  Text.includes (String sep "") a = false →
  Text.split_go sep cur (a +:+ String sep b)
  = (String.rev cur +:+ a) :: Text.split_go sep "" b.
Proof.
  revert cur. induction a as [|c a IH]; intros cur.
  - intros _. rewrite app_empty. cbn [Text.split_go]. rewrite Ascii.eqb_refl.
    unfold String.rev. by rewrite rev_app_append.
  - intros [Hc Ha]%includes_char_cons. rewrite app_String. cbn [Text.split_go].
    rewrite (proj2 (Ascii.eqb_neq c sep) Hc), IH by done.
    unfold String.rev. cbn [String.rev_app]. by rewrite !rev_app_append.
Qed.

Lemma authMiddleware_token authHeader token now :
  authHeader ≠ "" → token ≠ "" →
  Text.split_space authHeader !! 1%nat = Some token →
  AuthMiddleware.authMiddleware (Some authHeader) now
  = match jwt_verify token now with
    | Decoded userId email => AuthMiddleware.Next userId email
    | JsonWebTokenError => AuthMiddleware.Answered 401 "Invalid token"
    | TokenExpiredError => AuthMiddleware.Answered 401 "Token expired"
    | OtherError => AuthMiddleware.Answered 500 "Authentication failed"
    end.
Proof.
  intros Hh Ht Hs. unfold AuthMiddleware.authMiddleware. rewrite Hs.
  destruct authHeader; [done|]. by destruct token.
Qed.

Lemma append_nonempty a c b : a +:+ String c b ≠ "".
Proof. by destruct a. Qed.

Lemma space_app t : " " +:+ t = String " " t.
Proof. reflexivity. Qed.
End header.

(** X12.  The middleware reads the token as the second space-separated
    word of the Authorization header.  For a first word and a non-empty
    token that hold no space, the verdict on "first token" is that of
    jwt.verify on the token, whatever the first word is (it need not be
    Bearer) and whatever follows the token after another space; a header of
    one word, or with nothing after the space, is answered 401 "No token
    provided". *)
Theorem token_is_second_word_of_header `{Platform} (scheme token rest : string)
    (now : Z) :
  Text.includes " " scheme = false → Text.includes " " token = false →
  token ≠ "" →
  let verdict :=
    match jwt_verify token now with
    | Decoded userId email => AuthMiddleware.Next userId email
    | JsonWebTokenError => AuthMiddleware.Answered 401 "Invalid token"
    | TokenExpiredError => AuthMiddleware.Answered 401 "Token expired"
    | OtherError => AuthMiddleware.Answered 500 "Authentication failed"
    end in
  AuthMiddleware.authMiddleware (Some (scheme +:+ " " +:+ token)) now = verdict
  ∧ AuthMiddleware.authMiddleware
      (Some (scheme +:+ " " +:+ token +:+ " " +:+ rest)) now = verdict
  ∧ (scheme ≠ "" →
     AuthMiddleware.authMiddleware (Some scheme) now
     = AuthMiddleware.Answered 401 "No token provided")
  ∧ AuthMiddleware.authMiddleware (Some (scheme +:+ " ")) now
    = AuthMiddleware.Answered 401 "No token provided".
Proof.
  intros Hs Ht Hne verdict. rewrite !space_app. split_and!.
  - apply authMiddleware_token; [apply append_nonempty|done|].
    unfold Text.split_space, Text.split.
    by rewrite (split_go_sep " " "" scheme), split_go_word.
  - apply authMiddleware_token; [apply append_nonempty|done|].
    unfold Text.split_space, Text.split.
    by rewrite (split_go_sep " " "" scheme), (split_go_sep " " "" token).
  - intros Hsn. unfold AuthMiddleware.authMiddleware, Text.split_space, Text.split.
    rewrite split_go_word by done. by destruct scheme.
  - unfold AuthMiddleware.authMiddleware, Text.split_space, Text.split.
    rewrite (split_go_sep " " "" scheme) by done. cbn.
    pose proof (append_nonempty scheme " " "").
    by destruct (scheme +:+ " ").
Qed.

(** X12 at work: the same token after Bearer, and after Basic with words
    behind it. *)
Lemma token_is_second_word_of_header_witness :
  AuthMiddleware.authMiddleware (H := Sample.platform)
    (Some ("Bearer" +:+ " " +:+ "u1~ann@example.com")) 7
  = AuthMiddleware.Next "u1" "ann@example.com"
  ∧ AuthMiddleware.authMiddleware (H := Sample.platform)
      (Some ("Basic" +:+ " " +:+ "u1~ann@example.com" +:+ " " +:+ "x y")) 7
    = AuthMiddleware.Next "u1" "ann@example.com".
Proof.
  split.
  - apply (proj1 (token_is_second_word_of_header (H := Sample.platform)
                    "Bearer" "u1~ann@example.com" "" 7 eq_refl eq_refl
                    ltac:(discriminate))).
  - apply (proj1 (proj2 (token_is_second_word_of_header (H := Sample.platform)
                           "Basic" "u1~ann@example.com" "x y" 7 eq_refl eq_refl
                           ltac:(discriminate)))).
Defined.

(** ** The guest side of the client stores *)
Section objects.

Lemma assoc_set k k' v fs :
  assoc k (JS.set k' v fs) = if String.eqb k k' then v else assoc k fs.
Proof.
  destruct (String.eqb k k') eqn:Hk.
  - apply String.eqb_eq in Hk as ->. apply assoc_set_eq.
  - apply assoc_set_ne. by apply String.eqb_neq.
Qed.

Lemma assoc_absent k (fs : obj) : k ∉ fs.*1 → assoc k fs = VUndefined.
Proof.
  induction fs as [|[k' v] fs IH]; [done|]. cbn.
  intros [Hne Hin]%not_elem_of_cons. rewrite eqb_false_of_ne by done. auto.
Qed.

Lemma assoc_app k (l1 l2 : obj) :
  assoc k (l1 ++ l2) = if decide (k ∈ l1.*1) then assoc k l1 else assoc k l2.
Proof.
  induction l1 as [|[k' v] l1 IH]; cbn.
  - rewrite decide_False; [done|]. apply not_elem_of_nil.
  - destruct (String.eqb k k') eqn:Hk.
    + apply String.eqb_eq in Hk as ->. rewrite decide_True; [done|]. by left.
    + apply String.eqb_neq in Hk. rewrite IH.
      destruct (decide (k ∈ l1.*1)) as [Hin|Hin].
      * rewrite decide_True; [done|]. by right.
      * rewrite decide_False; [done|]. by intros [?|?]%elem_of_cons.
Qed.

(** In [{ ...fs, ...src }] a property of [src] wins over one of [fs]. *)
Lemma assoc_spread k src fs :
  NoDup (own_fields src).*1 →
  assoc k (spread src fs)
  = if decide (k ∈ (own_fields src).*1) then assoc k (own_fields src)
    else assoc k fs.
Proof.
  unfold spread. generalize (own_fields src). intros l.
  induction l as [|[k' v] l IH] using rev_ind; [done|].
  rewrite fmap_app, NoDup_app. cbn. intros (Hl & Hnot & _).
  rewrite foldl_app. cbn. rewrite assoc_set, IH by done.
  rewrite assoc_app. destruct (String.eqb k k') eqn:Hk.
  - apply String.eqb_eq in Hk as ->.
    assert (k' ∉ l.*1) as Hout by (intros ?; eapply Hnot; [done|by left]).
    rewrite decide_True by (apply elem_of_app; right; by left).
    rewrite decide_False by done. cbn. by rewrite String.eqb_refl.
  - apply String.eqb_neq in Hk. destruct (decide (k ∈ l.*1)) as [Hin|Hin].
    + rewrite decide_True; [done|]. apply elem_of_app. by left.
    + rewrite decide_False; [done|].
      intros [?|[?|[]%elem_of_nil]%elem_of_cons]%elem_of_app; done.
Qed.

Lemma assoc_without k k' (fs : obj) :
  assoc k (filter (λ kv, negb (String.eqb k' kv.1) = true) fs)
  = if String.eqb k k' then VUndefined else assoc k fs.
Proof.
  induction fs as [|[k0 v] fs IH]; [by destruct (String.eqb k k')|].
  rewrite filter_cons. cbn. destruct (String.eqb k' k0) eqn:H0; cbn.
  - apply String.eqb_eq in H0 as <-. rewrite decide_False by done.
    rewrite IH. by destruct (String.eqb k k').
  - rewrite decide_True by done. cbn. rewrite IH.
    destruct (String.eqb k k') eqn:Hk; [|done].
    apply String.eqb_eq in Hk as ->. by rewrite H0.
Qed.
End objects.

Section export.
Import Zustand.

Lemma rest_without_Some k x r :
  rest_without k x = Some r →
  x ≠ VNull ∧ x ≠ VUndefined ∧ get k r = VUndefined
  ∧ ∀ k', k' ≠ k → get k' r = assoc k' (own_fields x).
Proof.
  unfold rest_without. intros Hr.
  assert (x ≠ VNull ∧ x ≠ VUndefined) as [??] by (by destruct x).
  assert (r = VObj (filter (λ kv, negb (String.eqb k kv.1) = true) (own_fields x)))
    as -> by (destruct x; congruence).
  split_and!; try done; cbn.
  - by rewrite assoc_without, String.eqb_refl.
  - intros k' Hne. by rewrite assoc_without, eqb_false_of_ne.
Qed.

Lemma export_outcome (l : list value) :
  match mapM (rest_without "id") l with
  | Some records =>
      Forall2 (λ x r, x ≠ VNull ∧ x ≠ VUndefined ∧ get "id" r = VUndefined
                      ∧ ∀ k, k ≠ "id" → get k r = assoc k (own_fields x))
        l records
  | None => ∃ x, x ∈ l ∧ (x = VNull ∨ x = VUndefined)
  end.
Proof.
  induction l as [|x l IH]; cbn; [constructor|].
  destruct (rest_without "id" x) as [r|] eqn:Hx; cbn.
  - destruct (mapM _ l) as [records|]; cbn.
    + constructor; [by apply rest_without_Some|done].
    + destruct IH as (y & Hy & Hnull). exists y. split; [by right|done].
  - exists x. split; [by left|]. destruct x; cbn in Hx; auto; done.
Qed.
End export.

(** X13.  The export of a guest list for the sync drops the local
    identifier of every record and nothing else: the exported list has one
    record for each record of the store, in the same order, without an id
    property and with every other property as the store has it.  The export
    throws exactly when the list holds a null or undefined entry. *)
Theorem export_for_sync_drops_only_the_id (notes tasks ideas : Zustand.store) :
  let exported (st : Zustand.store) (out : option (list value)) :=
    match out with
    | Some records =>
        Forall2 (λ x r, x ≠ VNull ∧ x ≠ VUndefined ∧ get "id" r = VUndefined
                        ∧ ∀ k, k ≠ "id" → get k r = assoc k (own_fields x))
          (Zustand.items (Zustand.state st)) records
    | None =>
        ∃ x, x ∈ Zustand.items (Zustand.state st)
             ∧ (x = VNull ∨ x = VUndefined)
    end in
  exported notes (NotesStore.getNotesForSync notes)
  ∧ exported tasks (TasksStore.getTasksForSync tasks)
  ∧ exported ideas (IdeasStore.getIdeasForSync ideas).
Proof. cbn zeta. split_and!; apply export_outcome. Qed.

Section guest_delete.
Import Zustand.

Lemma filter_out_outcome id l :
  match filter_out id l with
  | Some l' =>
      Forall (λ x, x ≠ VNull ∧ x ≠ VUndefined) l
      ∧ l' = filter (λ x, is_string id (get "id" x) = false) l
  | None => ∃ x, x ∈ l ∧ (x = VNull ∨ x = VUndefined)
  end.
Proof.
  induction l as [|x l IH]; cbn [filter_out]; [by split|].
  destruct (prop "id" x) as [xid|] eqn:Hx; cbn [mbind option_bind].
  - assert (x ≠ VNull ∧ x ≠ VUndefined ∧ xid = get "id" x) as (Hn & Hu & ->).
    { destruct x; cbn in Hx; by simplify_eq. }
    destruct (filter_out id l) as [l'|]; cbn [mbind option_bind].
    + destruct IH as [Hall ->]. split; [by constructor|].
      rewrite filter_cons. destruct (is_string id (get "id" x)) eqn:Hs.
      * by rewrite decide_False.
      * by rewrite decide_True.
    + destruct IH as (y & Hy & Hnull). exists y. split; [by right|done].
  - exists x. split; [by left|]. destruct x; cbn in Hx; auto; done.
Qed.

Lemma filter_out_again id l l' :
  filter_out id l = Some l' → filter_out id l' = Some l'.
Proof.
  intros Hl. pose proof (filter_out_outcome id l) as Ho. rewrite Hl in Ho.
  destruct Ho as [Hall ->].
  pose proof (filter_out_outcome id (filter (λ x, is_string id (get "id" x) = false) l))
    as Ho.
  destruct (filter_out id (filter _ l)) as [l''|].
  - destruct Ho as [_ ->]. f_equal. apply list_filter_filter_l. done.
  - destruct Ho as (x & [_ Hx]%list_elem_of_filter & Hnull).
    rewrite Forall_forall in Hall. destruct (Hall x Hx), Hnull; done.
Qed.

(** The guest branch of a Delete action, for the list kept under [key]. *)
Lemma guest_delete key id st :
  let out :=
    match filter_out id (items (state st)) with
    | Some l =>
        (Some (success VUndefined),
         set key (λ _, {| set_items := Some l; set_loading := None;
                          set_error := None |}) st)
    | None => (None, st)
    end in
  match out.1 with
  | Some r =>
      r = success VUndefined
      ∧ Forall (λ x, x ≠ VNull ∧ x ≠ VUndefined) (items (state st))
      ∧ items (state out.2)
        = filter (λ x, is_string id (get "id" x) = false) (items (state st))
      ∧ loading (state out.2) = loading (state st)
      ∧ error (state out.2) = error (state st)
      ∧ storage out.2 = Some (jsonify (VObj [(key, VArr (items (state out.2)))]))
  | None =>
      out.2 = st
      ∧ ∃ x, x ∈ items (state st) ∧ (x = VNull ∨ x = VUndefined)
  end
  ∧ state (match filter_out id (items (state out.2)) with
           | Some l =>
               (Some (success VUndefined),
                set key (λ _, {| set_items := Some l; set_loading := None;
                                 set_error := None |}) out.2)
           | None => (None, out.2)
           end).2 = state out.2.
Proof.
  cbn zeta. pose proof (filter_out_outcome id (items (state st))) as Ho.
  destruct (filter_out id (items (state st))) as [l|] eqn:Hl; cbn.
  - destruct Ho as [Hall ->]. split; [done|].
    rewrite (filter_out_again _ _ _ Hl). done.
  - split; [done|]. by rewrite Hl.
Qed.
End guest_delete.

(** X14.  A guest Delete, on the notes, tasks and ideas stores alike, makes
    no request: it removes from the list exactly the records whose id is
    the given string, keeps the others in their order, leaves loading and
    error as they were, persists the new list and reports success; it
    throws, changing nothing, exactly when the list holds a null or
    undefined entry.  It is idempotent: the same Delete once more leaves the
    state as it is (where the server's Delete answers 404 the second
    time). *)
Theorem guest_delete_removes_every_match
    (api : Http.method → string → value → Http.axios) (id : string)
    (notes tasks ideas : Zustand.store) :
  let removed (key : string) (st : Zustand.store)
      (out : option Zustand.result * Zustand.store) :=
    match out.1 with
    | Some r =>
        r = Zustand.success VUndefined
        ∧ Forall (λ x, x ≠ VNull ∧ x ≠ VUndefined)
            (Zustand.items (Zustand.state st))
        ∧ Zustand.items (Zustand.state out.2)
          = filter (λ x, is_string id (get "id" x) = false)
              (Zustand.items (Zustand.state st))
        ∧ Zustand.loading (Zustand.state out.2)
          = Zustand.loading (Zustand.state st)
        ∧ Zustand.error (Zustand.state out.2) = Zustand.error (Zustand.state st)
        ∧ Zustand.storage out.2
          = Some (jsonify (VObj [(key, VArr (Zustand.items (Zustand.state out.2)))]))
    | None =>
        out.2 = st
        ∧ ∃ x, x ∈ Zustand.items (Zustand.state st)
               ∧ (x = VNull ∨ x = VUndefined)
    end in
  (removed "notes" notes (NotesStore.deleteNote api id false notes)
   ∧ Zustand.state
       (NotesStore.deleteNote api id false
          (NotesStore.deleteNote api id false notes).2).2
     = Zustand.state (NotesStore.deleteNote api id false notes).2)
  ∧ (removed "tasks" tasks (TasksStore.deleteTask api id false tasks)
     ∧ Zustand.state
         (TasksStore.deleteTask api id false
            (TasksStore.deleteTask api id false tasks).2).2
       = Zustand.state (TasksStore.deleteTask api id false tasks).2)
  ∧ (removed "ideas" ideas (IdeasStore.deleteIdea api id false ideas)
     ∧ Zustand.state
         (IdeasStore.deleteIdea api id false
            (IdeasStore.deleteIdea api id false ideas).2).2
       = Zustand.state (IdeasStore.deleteIdea api id false ideas).2).
Proof.
  cbn zeta. split_and!;
    first [exact (proj1 (guest_delete _ id _)) | exact (proj2 (guest_delete _ id _))].
Qed.

Section guest_add.
Import Zustand.
Context (api : Http.method → string → value → Http.axios).

(** What [{ id, ...data }] holds under a key. *)
Lemma assoc_spread_id k data gid :
  NoDup (own_fields data).*1 →
  assoc k (spread data [("id", VStr gid)])
  = if decide (k ∈ (own_fields data).*1) then assoc k (own_fields data)
    else if String.eqb k "id" then VStr gid else VUndefined.
Proof. intros Hd. by rewrite assoc_spread. Qed.

Lemma other_key k data gid :
  NoDup (own_fields data).*1 → k ≠ "id" →
  assoc k (spread data [("id", VStr gid)]) = assoc k (own_fields data).
Proof.
  intros Hd Hk. rewrite assoc_spread_id by done.
  destruct (decide _) as [|Hout]; [done|].
  by rewrite eqb_false_of_ne, assoc_absent.
Qed.

Lemma guest_addNote data b st :
  NoDup (own_fields data).*1 →
  ∃ note,
    NotesStore.addNote api data false b st
    = (Some (success note),
       set "notes" (λ s, {| set_items := Some (note :: items s);
                            set_loading := None; set_error := None |}) st)
    ∧ get "id" note
      = (if decide ("id" ∈ (own_fields data).*1)
         then assoc "id" (own_fields data) else VStr (generateId b))
    ∧ get "createdAt" note = VStr (clock b 0)
    ∧ get "updatedAt" note = VStr (clock b 1)
    ∧ ∀ k, k ≠ "id" → k ≠ "createdAt" → k ≠ "updatedAt" →
        get k note = assoc k (own_fields data).
Proof.
  intros Hd. eexists. split; [reflexivity|]. cbn [get]. split_and!.
  - rewrite !assoc_set_ne by done. by rewrite assoc_spread_id.
  - rewrite assoc_set_ne by done. apply assoc_set_eq.
  - apply assoc_set_eq.
  - intros k ? ? ?. rewrite !assoc_set_ne by done. by apply other_key.
Qed.

Lemma guest_addTask data b st :
  NoDup (own_fields data).*1 →
  ∃ task,
    TasksStore.addTask api data false b st
    = (Some (success task),
       set "tasks" (λ s, {| set_items := Some (task :: items s);
                            set_loading := None; set_error := None |}) st)
    ∧ get "id" task
      = (if decide ("id" ∈ (own_fields data).*1)
         then assoc "id" (own_fields data) else VStr (generateId b))
    ∧ get "completed" task = VBool false
    ∧ get "createdAt" task = VStr (clock b 0)
    ∧ get "updatedAt" task = VStr (clock b 1)
    ∧ ∀ k, k ≠ "id" → k ≠ "completed" → k ≠ "createdAt" → k ≠ "updatedAt" →
        get k task = assoc k (own_fields data).
Proof.
  intros Hd. eexists. split; [reflexivity|]. cbn [get]. split_and!.
  - rewrite !assoc_set_ne by done. by rewrite assoc_spread_id.
  - rewrite !assoc_set_ne by done. apply assoc_set_eq.
  - rewrite assoc_set_ne by done. apply assoc_set_eq.
  - apply assoc_set_eq.
  - intros k ? ? ? ?. rewrite !assoc_set_ne by done. by apply other_key.
Qed.

Lemma guest_addIdea data b st :
  NoDup (own_fields data).*1 →
  match data with
  | VUndefined | VNull => IdeasStore.addIdea api data false b st = (None, st)
  | _ =>
      ∃ idea,
        IdeasStore.addIdea api data false b st
        = (Some (success idea),
           set "ideas" (λ s, {| set_items := Some (idea :: items s);
                                set_loading := None; set_error := None |}) st)
        ∧ get "id" idea
          = (if decide ("id" ∈ (own_fields data).*1)
             then assoc "id" (own_fields data) else VStr (generateId b))
        ∧ get "tags" idea = or (get "tags" data) (VArr [])
        ∧ get "category" idea = or (get "category" data) (VStr "general")
        ∧ get "createdAt" idea = VStr (clock b 0)
        ∧ get "updatedAt" idea = VStr (clock b 1)
        ∧ ∀ k, k ≠ "id" → k ≠ "tags" → k ≠ "category" → k ≠ "createdAt" →
            k ≠ "updatedAt" → get k idea = assoc k (own_fields data)
  end.
Proof.
  intros Hd.
  assert (∀ tags category,
    let idea := VObj (JS.set "updatedAt" (VStr (clock b 1))
                     (JS.set "createdAt" (VStr (clock b 0))
                     (JS.set "category" category
                     (JS.set "tags" tags
                     (spread data [("id", VStr (generateId b))]))))) in
    get "id" idea
    = (if decide ("id" ∈ (own_fields data).*1)
       then assoc "id" (own_fields data) else VStr (generateId b))
    ∧ get "tags" idea = tags ∧ get "category" idea = category
    ∧ get "createdAt" idea = VStr (clock b 0)
    ∧ get "updatedAt" idea = VStr (clock b 1)
    ∧ ∀ k, k ≠ "id" → k ≠ "tags" → k ≠ "category" → k ≠ "createdAt" →
        k ≠ "updatedAt" → get k idea = assoc k (own_fields data)) as Hidea.
  { intros tags category. cbn [get]. split_and!.
    - rewrite !assoc_set_ne by done. by rewrite assoc_spread_id.
    - rewrite !assoc_set_ne by done. apply assoc_set_eq.
    - rewrite !assoc_set_ne by done. apply assoc_set_eq.
    - rewrite assoc_set_ne by done. apply assoc_set_eq.
    - apply assoc_set_eq.
    - intros k ? ? ? ? ?. rewrite !assoc_set_ne by done. by apply other_key. }
  destruct data; try done;
    (eexists; split; [reflexivity|]; apply Hidea).
Qed.
End guest_add.

(** X15.  What a guest Add stores, on the notes, tasks and ideas stores
    alike (for supplied fields in which no key occurs twice).  It makes no
    request, puts one new record in front of the list and returns it.  The
    record's id is the generated identifier unless the supplied fields
    carry an id of their own, which then wins; createdAt and updatedAt are
    always the two readings of the clock, whatever was supplied; a task is
    always stored with completed false; an idea gets tags [] and category
    'general' where the supplied value is falsy; every other property is
    the supplied one.  Adding an idea with null or undefined in place of the
    fields throws and changes nothing (notes and tasks accept it). *)
Theorem guest_add_takes_fields_and_stamps
    (api : Http.method → string → value → Http.axios) (data : value)
    (b : Zustand.browser) (notes tasks ideas : Zustand.store) :
  NoDup (own_fields data).*1 →
  let new_id :=
    if decide ("id" ∈ (own_fields data).*1)
    then assoc "id" (own_fields data) else VStr (Zustand.generateId b) in
  (∃ note,
     (NotesStore.addNote api data false b notes).1 = Some (Zustand.success note)
     ∧ Zustand.items (Zustand.state (NotesStore.addNote api data false b notes).2)
       = note :: Zustand.items (Zustand.state notes)
     ∧ get "id" note = new_id
     ∧ get "createdAt" note = VStr (Zustand.clock b 0)
     ∧ get "updatedAt" note = VStr (Zustand.clock b 1)
     ∧ ∀ k, k ≠ "id" → k ≠ "createdAt" → k ≠ "updatedAt" →
         get k note = assoc k (own_fields data))
  ∧ (∃ task,
       (TasksStore.addTask api data false b tasks).1 = Some (Zustand.success task)
       ∧ Zustand.items (Zustand.state (TasksStore.addTask api data false b tasks).2)
         = task :: Zustand.items (Zustand.state tasks)
       ∧ get "id" task = new_id
       ∧ get "completed" task = VBool false
       ∧ get "createdAt" task = VStr (Zustand.clock b 0)
       ∧ get "updatedAt" task = VStr (Zustand.clock b 1)
       ∧ ∀ k, k ≠ "id" → k ≠ "completed" → k ≠ "createdAt" → k ≠ "updatedAt" →
           get k task = assoc k (own_fields data))
  ∧ match data with
    | VUndefined | VNull =>
        IdeasStore.addIdea api data false b ideas = (None, ideas)
    | _ =>
        ∃ idea,
          (IdeasStore.addIdea api data false b ideas).1
          = Some (Zustand.success idea)
          ∧ Zustand.items
              (Zustand.state (IdeasStore.addIdea api data false b ideas).2)
            = idea :: Zustand.items (Zustand.state ideas)
          ∧ get "id" idea = new_id
          ∧ get "tags" idea = or (get "tags" data) (VArr [])
          ∧ get "category" idea = or (get "category" data) (VStr "general")
          ∧ get "createdAt" idea = VStr (Zustand.clock b 0)
          ∧ get "updatedAt" idea = VStr (Zustand.clock b 1)
          ∧ ∀ k, k ≠ "id" → k ≠ "tags" → k ≠ "category" → k ≠ "createdAt" →
              k ≠ "updatedAt" → get k idea = assoc k (own_fields data)
    end.
Proof.
  intros Hd new_id. split_and!.
  - destruct (guest_addNote api data b notes Hd) as (note & -> & ?). by exists note.
  - destruct (guest_addTask api data b tasks Hd) as (task & -> & ?). by exists task.
  - pose proof (guest_addIdea api data b ideas Hd) as Hi.
    destruct data; try done; destruct Hi as (idea & -> & ?); by exists idea.
Qed.

(** X15 at work: a task added with an id, a completed flag and a creation
    time of its own keeps the id and loses the other two. *)
Lemma guest_add_takes_fields_and_stamps_witness :
  ∃ task,
    (TasksStore.addTask Sample.offline
       (VObj [("id", VStr "mine"); ("title", VStr "T");
              ("completed", VBool true); ("createdAt", VStr "1999")])
       false Sample.guest_browser Zustand.create).1
    = Some (Zustand.success task)
    ∧ get "id" task = VStr "mine"
    ∧ get "title" task = VStr "T"
    ∧ get "completed" task = VBool false
    ∧ get "createdAt" task = VStr "2024-11-03T00:00:00.000Z".
Proof.
  destruct (guest_add_takes_fields_and_stamps Sample.offline
              (VObj [("id", VStr "mine"); ("title", VStr "T");
                     ("completed", VBool true); ("createdAt", VStr "1999")])
              Sample.guest_browser Zustand.create Zustand.create Zustand.create)
    as (_ & (task & Hr & _ & Hid & Hc & Ht & _ & Hk) & _).
  { apply (bool_decide_unpack _). by vm_compute. }
  exists task. split; [exact Hr|]. split; [exact Hid|].
  split; [by apply Hk|]. split; [exact Hc|exact Ht].
Defined.

Section guest_update.
Import Zustand.

Lemma assoc_copy k x :
  NoDup (own_fields x).*1 → assoc k (spread x []) = assoc k (own_fields x).
Proof.
  intros Hx. rewrite assoc_spread by done.
  destruct (decide _); [done|]. by rewrite (assoc_absent k (own_fields x)).
Qed.

(** The record [{ ...x, ...updates, updatedAt }]. *)
Lemma merged_record x updates stamp :
  NoDup (own_fields updates).*1 →
  let y := VObj (JS.set "updatedAt" stamp (spread updates (spread x []))) in
  get "updatedAt" y = stamp
  ∧ (∀ k, k ≠ "updatedAt" → k ∈ (own_fields updates).*1 →
       get k y = assoc k (own_fields updates))
  ∧ (NoDup (own_fields x).*1 →
     ∀ k, k ≠ "updatedAt" → k ∉ (own_fields updates).*1 →
       get k y = assoc k (own_fields x)).
Proof.
  intros Hu. cbn [get]. split_and!.
  - apply assoc_set_eq.
  - intros k Hk Hin. rewrite assoc_set_ne, assoc_spread by done.
    by rewrite decide_True.
  - intros Hx k Hk Hout. rewrite assoc_set_ne, assoc_spread by done.
    rewrite decide_False by done. by apply assoc_copy.
Qed.

Lemma map_merge_outcome id updates clock n l :
  NoDup (own_fields updates).*1 →
  match map_merge id updates clock n l with
  | Some l' =>
      Forall (λ x, x ≠ VNull ∧ x ≠ VUndefined) l
      ∧ Forall2 (λ x y,
          if is_string id (get "id" x) then
            (∃ m, get "updatedAt" y = VStr (clock m))
            ∧ (∀ k, k ≠ "updatedAt" → k ∈ (own_fields updates).*1 →
                 get k y = assoc k (own_fields updates))
            ∧ (NoDup (own_fields x).*1 →
               ∀ k, k ≠ "updatedAt" → k ∉ (own_fields updates).*1 →
                 get k y = assoc k (own_fields x))
          else y = x) l l'
  | None => ∃ x, x ∈ l ∧ (x = VNull ∨ x = VUndefined)
  end.
Proof.
  intros Hu. revert n. induction l as [|x l IH]; intros n; cbn [map_merge].
  - split; constructor.
  - destruct (prop "id" x) as [xid|] eqn:Hx; cbn [mbind option_bind].
    + assert (x ≠ VNull ∧ x ≠ VUndefined ∧ xid = get "id" x) as (Hn & Hd & ->).
      { destruct x; cbn in Hx; by simplify_eq. }
      destruct (is_string id (get "id" x)) eqn:Hs.
      * specialize (IH (S n)).
        destruct (map_merge id updates clock (S n) l) as [l'|];
          cbn [mbind option_bind].
        -- destruct IH as [Hall Hrel]. split; [by constructor|].
           constructor; [|done]. rewrite Hs.
           destruct (merged_record x updates (VStr (clock n)) Hu) as (? & ? & ?).
           split; [by exists n|done].
        -- destruct IH as (y & Hy & Hnull). exists y. split; [by right|done].
      * specialize (IH n).
        destruct (map_merge id updates clock n l) as [l'|];
          cbn [mbind option_bind].
        -- destruct IH as [Hall Hrel]. split; [by constructor|].
           constructor; [|done]. by rewrite Hs.
        -- destruct IH as (y & Hy & Hnull). exists y. split; [by right|done].
    + exists x. split; [by left|]. destruct x; cbn in Hx; auto; done.
Qed.

(** The guest branch of an Update action, for the list kept under [key]. *)
Lemma guest_update key id updates (b : browser) st :
  NoDup (own_fields updates).*1 →
  let out :=
    match map_merge id updates (clock b) 0 (items (state st)) with
    | Some l =>
        (Some (success VUndefined),
         set key (λ _, {| set_items := Some l; set_loading := None;
                          set_error := None |}) st)
    | None => (None, st)
    end in
  match out.1 with
  | Some r =>
      r = success VUndefined
      ∧ Forall (λ x, x ≠ VNull ∧ x ≠ VUndefined) (items (state st))
      ∧ Forall2 (λ x y,
          if is_string id (get "id" x) then
            (∃ m, get "updatedAt" y = VStr (clock b m))
            ∧ (∀ k, k ≠ "updatedAt" → k ∈ (own_fields updates).*1 →
                 get k y = assoc k (own_fields updates))
            ∧ (NoDup (own_fields x).*1 →
               ∀ k, k ≠ "updatedAt" → k ∉ (own_fields updates).*1 →
                 get k y = assoc k (own_fields x))
          else y = x) (items (state st)) (items (state out.2))
      ∧ loading (state out.2) = loading (state st)
      ∧ error (state out.2) = error (state st)
      ∧ storage out.2 = Some (jsonify (VObj [(key, VArr (items (state out.2)))]))
  | None =>
      out.2 = st
      ∧ ∃ x, x ∈ items (state st) ∧ (x = VNull ∨ x = VUndefined)
  end.
Proof.
  intros Hu. cbn zeta.
  pose proof (map_merge_outcome id updates (clock b) 0 (items (state st)) Hu) as Ho.
  destruct (map_merge id updates (clock b) 0 (items (state st))) as [l|]; cbn.
  - by destruct Ho.
  - done.
Qed.
End guest_update.

(** X16.  A guest Update, on the notes, tasks and ideas stores alike (for
    updates in which no key occurs twice), makes no request.  It keeps the
    number and the order of the records and leaves every record whose id is
    not the given string exactly as it is.  In every record with that id,
    updatedAt becomes a reading of the clock, each property the updates
    carry takes their value (the id included), and each other property
    keeps its value.  Loading and error stay as they were and the new list
    is persisted.  It throws, changing nothing, exactly when the list holds
    a null or undefined entry. *)
Theorem guest_update_merges_into_every_match
    (api : Http.method → string → value → Http.axios) (id : string)
    (updates : value) (b : Zustand.browser) (notes tasks ideas : Zustand.store) :
  NoDup (own_fields updates).*1 →
  let merged (key : string) (st : Zustand.store)
      (out : option Zustand.result * Zustand.store) :=
    match out.1 with
    | Some r =>
        r = Zustand.success VUndefined
        ∧ Forall (λ x, x ≠ VNull ∧ x ≠ VUndefined)
            (Zustand.items (Zustand.state st))
        ∧ Forall2 (λ x y,
            if is_string id (get "id" x) then
              (∃ m, get "updatedAt" y = VStr (Zustand.clock b m))
              ∧ (∀ k, k ≠ "updatedAt" → k ∈ (own_fields updates).*1 →
                   get k y = assoc k (own_fields updates))
              ∧ (NoDup (own_fields x).*1 →
                 ∀ k, k ≠ "updatedAt" → k ∉ (own_fields updates).*1 →
                   get k y = assoc k (own_fields x))
            else y = x)
            (Zustand.items (Zustand.state st))
            (Zustand.items (Zustand.state out.2))
        ∧ Zustand.loading (Zustand.state out.2)
          = Zustand.loading (Zustand.state st)
        ∧ Zustand.error (Zustand.state out.2) = Zustand.error (Zustand.state st)
        ∧ Zustand.storage out.2
          = Some (jsonify (VObj [(key, VArr (Zustand.items (Zustand.state out.2)))]))
    | None =>
        out.2 = st
        ∧ ∃ x, x ∈ Zustand.items (Zustand.state st)
               ∧ (x = VNull ∨ x = VUndefined)
    end in
  merged "notes" notes (NotesStore.updateNote api id updates false b notes)
  ∧ merged "tasks" tasks (TasksStore.updateTask api id updates false b tasks)
  ∧ merged "ideas" ideas (IdeasStore.updateIdea api id updates false b ideas).
Proof.
  intros Hu. cbn zeta. split_and!; by apply guest_update.
Qed.

(** X16 at work: the guest's note gets a new title and keeps its content. *)
Lemma guest_update_merges_into_every_match_witness :
  let st := Client.notesStore Sample.guest_world in
  let out := NotesStore.updateNote Sample.offline "1730592000000-k3j9x2abc"
               (VObj [("title", VStr "New")]) false Sample.guest_browser st in
  ∃ y, Zustand.items (Zustand.state out.2) = [y]
       ∧ get "title" y = VStr "New" ∧ get "content" y = VStr "B".
Proof.
  intros st out.
  destruct (guest_update_merges_into_every_match Sample.offline
              "1730592000000-k3j9x2abc" (VObj [("title", VStr "New")])
              Sample.guest_browser st Zustand.create Zustand.create)
    as (Hn & _ & _).
  { apply (bool_decide_unpack _). by vm_compute. }
  change (NotesStore.updateNote _ _ _ _ _ _) with out in Hn.
  assert (out.1 = Some (Zustand.success VUndefined)) as Hout by reflexivity.
  rewrite Hout in Hn. destruct Hn as (_ & _ & Hrel & _).
  remember (Zustand.items (Zustand.state out.2)) as l' eqn:Hl'.
  remember (Zustand.items (Zustand.state st)) as l eqn:Hl.
  vm_compute in Hl. subst l.
  apply Forall2_cons_inv_l in Hrel as (y & l'' & Hxy & Hnil%Forall2_nil_inv_l & ->).
  subst l''. change (is_string _ _) with true in Hxy.
  destruct Hxy as (_ & Hnew & Hold).
  exists y. split; [done|]. split.
  - apply Hnew; [done|]. by left.
  - rewrite Hold; [reflexivity|..].
    + apply (bool_decide_unpack _). by vm_compute.
    + done.
    + by intros [?|[]%elem_of_nil]%elem_of_cons.
Defined.

Section guest_toggle.
Import Zustand.

Lemma keys_set k v (fs : obj) :
  (JS.set k v fs).*1 = if decide (k ∈ fs.*1) then fs.*1 else (fs.*1 ++ [k])%list.
Proof.
  induction fs as [|[k' v'] fs IH]; cbn.
  - rewrite decide_False; [done|]. apply not_elem_of_nil.
  - destruct (String.eqb k k') eqn:Hk; cbn.
    + apply String.eqb_eq in Hk as ->. rewrite decide_True; [done|]. by left.
    + apply String.eqb_neq in Hk. rewrite IH.
      destruct (decide (k ∈ fs.*1)) as [Hin|Hin].
      * rewrite decide_True; [done|]. by right.
      * rewrite decide_False; [done|]. by intros [?|?]%elem_of_cons.
Qed.

Lemma NoDup_set k v (fs : obj) : NoDup fs.*1 → NoDup (JS.set k v fs).*1.
Proof.
  intros Hfs. rewrite keys_set. destruct (decide _) as [|Hout]; [done|].
  apply NoDup_app. split_and!; [done| |apply NoDup_singleton].
  intros x Hx [->|[]%elem_of_nil]%elem_of_cons. done.
Qed.

Lemma NoDup_spread src (fs : obj) : NoDup fs.*1 → NoDup (spread src fs).*1.
Proof.
  unfold spread. generalize (own_fields src). intros l. revert fs.
  induction l as [|[k v] l IH]; intros fs Hfs; cbn; [done|].
  apply IH. by apply NoDup_set.
Qed.

(** One pass of [map] that writes a completed flag into the matches. *)
Lemma flag_pass (c : bool) id clock n l l' :
  Forall (λ x, NoDup (own_fields x).*1) l →
  map_merge id (VObj [("completed", VBool c)]) clock n l = Some l' →
  Forall (λ x, NoDup (own_fields x).*1) l'
  ∧ Forall (λ x, x ≠ VNull ∧ x ≠ VUndefined) l'
  ∧ Forall2 (λ x y,
      if is_string id (get "id" x)
      then get "completed" y = VBool c ∧ get "id" y = get "id" x
      else y = x) l l'
  ∧ ∀ task, find id l = Some task → truthy task = true →
      ∃ task', find id l' = Some task' ∧ truthy task' = true
               ∧ get "completed" task' = VBool c.
Proof.
  intros Hkeys. revert n l'.
  induction Hkeys as [|x l Hx Hkeys IH]; intros n l'; cbn [map_merge find].
  { intros [= <-]. split_and!; [constructor..|]. by intros task [= <-]. }
  destruct (prop "id" x) as [xid|] eqn:Hp; cbn [mbind option_bind]; [|done].
  assert (x ≠ VNull ∧ x ≠ VUndefined ∧ xid = get "id" x) as (Hnull & Hundef & ->)
    by (destruct x; cbn in Hp; by simplify_eq).
  assert (NoDup (own_fields (VObj [("completed", VBool c)])).*1) as Hu.
  { apply NoDup_singleton. }
  destruct (is_string id (get "id" x)) eqn:Hs.
  - destruct (map_merge id _ clock (S n) l) as [l''|] eqn:Hm;
      cbn [mbind option_bind]; [|done].
    intros [= <-]. destruct (IH _ _ Hm) as (Hk' & Hnn & Hrel & _).
    destruct (merged_record x (VObj [("completed", VBool c)]) (VStr (clock n)) Hu)
      as (_ & Hnew & Hold).
    assert (get "id" (VObj (JS.set "updatedAt" (VStr (clock n))
                              (spread (VObj [("completed", VBool c)]) (spread x []))))
            = get "id" x) as Hid.
    { rewrite Hold; [|done|done|by apply (bool_decide_unpack _)].
      destruct x; cbn in Hs; try done. }
    split_and!.
    + constructor; [|done]. cbn [own_fields].
      apply NoDup_set, NoDup_spread, NoDup_spread. constructor.
    + by constructor.
    + constructor; [|done]. rewrite Hs. split; [|done].
      apply Hnew; [done|by left].
    + intros task _ _. eexists. cbn [find prop mbind option_bind].
      rewrite Hid, Hs. split; [done|]. split; [done|].
      apply Hnew; [done|by left].
  - destruct (map_merge id _ clock n l) as [l''|] eqn:Hm;
      cbn [mbind option_bind]; [|done].
    intros [= <-]. destruct (IH _ _ Hm) as (Hk' & Hnn & Hrel & Hfind).
    split_and!.
    + by constructor.
    + by constructor.
    + constructor; [|done]. by rewrite Hs.
    + intros task Ht Htruthy. cbn [find]. rewrite Hp. cbn [mbind option_bind].
      rewrite Hs. by apply (Hfind task).
Qed.

Lemma map_merge_total id updates clock n l :
  Forall (λ x, x ≠ VNull ∧ x ≠ VUndefined) l →
  is_Some (map_merge id updates clock n l).
Proof.
  intros Hl. revert n. induction Hl as [|x l [Hn Hu] Hl IH]; intros n;
    cbn [map_merge]; [by eexists|].
  assert (prop "id" x = Some (get "id" x)) as -> by (by destruct x).
  cbn [mbind option_bind]. destruct (is_string id (get "id" x)).
  - destruct (IH (S n)) as [l' ->]. by eexists.
  - destruct (IH n) as [l' ->]. by eexists.
Qed.

Lemma flag_twice (c : bool) id (l l' l'' : list value) :
  Forall2 (λ x y,
      if is_string id (get "id" x)
      then get "completed" y = VBool (negb c) ∧ get "id" y = get "id" x
      else y = x) l l' →
  Forall2 (λ x y,
      if is_string id (get "id" x)
      then get "completed" y = VBool c ∧ get "id" y = get "id" x
      else y = x) l' l'' →
  Forall2 (λ x y,
      if is_string id (get "id" x)
      then get "completed" y = VBool c ∧ get "id" y = get "id" x
      else y = x) l l''.
Proof.
  intros H1. revert l''. induction H1 as [|x y l l' Hxy _ IH]; intros l'' H2.
  - by apply Forall2_nil_inv_l in H2 as ->.
  - apply Forall2_cons_inv_l in H2 as (z & l3 & Hyz & H3 & ->).
    constructor; [|by apply IH].
    destruct (is_string id (get "id" x)) eqn:Hs.
    + destruct Hxy as [_ Hid]. rewrite Hid, Hs in Hyz.
      destruct Hyz as [? Hid']. split; congruence.
    + subst y. by rewrite Hs in Hyz.
Qed.

(** The guest branch of a toggle that finds its task. *)
Lemma guest_toggle api id (b : browser) st task :
  Forall (λ x, NoDup (own_fields x).*1) (items (state st)) →
  Forall (λ x, x ≠ VNull ∧ x ≠ VUndefined) (items (state st)) →
  find id (items (state st)) = Some task → truthy task = true →
  let out := TasksStore.toggleTask api id false b st in
  out.1 = Some (success VUndefined)
  ∧ Forall (λ x, NoDup (own_fields x).*1) (items (state out.2))
  ∧ Forall (λ x, x ≠ VNull ∧ x ≠ VUndefined) (items (state out.2))
  ∧ Forall2 (λ x y,
        if is_string id (get "id" x)
        then get "completed" y = VBool (negb (truthy (get "completed" task)))
             ∧ get "id" y = get "id" x
        else y = x) (items (state st)) (items (state out.2))
  ∧ ∃ task', find id (items (state out.2)) = Some task'
             ∧ truthy task' = true
             ∧ get "completed" task'
               = VBool (negb (truthy (get "completed" task))).
Proof.
  intros Hkeys Hnn Hfind Htruthy. cbn zeta.
  unfold TasksStore.toggleTask, TasksStore.updateTask.
  rewrite Hfind, Htruthy. cbn [negb].
  destruct (map_merge_total id
              (VObj [("completed", VBool (negb (truthy (get "completed" task))))])
              (clock b) 0 (items (state st)) Hnn) as [l' Hl'].
  rewrite Hl'. cbn.
  destruct (flag_pass _ _ _ _ _ _ Hkeys Hl') as (? & ? & ? & Hf).
  split_and!; try done. by apply (Hf task).
Qed.
End guest_toggle.

(** X17.  Toggling a task in guest mode.  When the list (of records that
    are not null or undefined and name each key once) holds a task with the
    given id, the toggle reports success and writes into every task with
    that id the negation of the completed flag of the first one, as a
    boolean; the id stays and every other record is left as it is.  A
    second toggle writes the flag's original truth value back. *)
Theorem guest_toggle_flips_completed
    (api : Http.method → string → value → Http.axios) (id : string)
    (b : Zustand.browser) (st : Zustand.store) (task : value) :
  Forall (λ x, NoDup (own_fields x).*1) (Zustand.items (Zustand.state st)) →
  Forall (λ x, x ≠ VNull ∧ x ≠ VUndefined) (Zustand.items (Zustand.state st)) →
  Zustand.find id (Zustand.items (Zustand.state st)) = Some task →
  truthy task = true →
  let flag := truthy (get "completed" task) in
  let once := TasksStore.toggleTask api id false b st in
  let twice := TasksStore.toggleTask api id false b once.2 in
  once.1 = Some (Zustand.success VUndefined)
  ∧ Forall2 (λ x y,
        if is_string id (get "id" x)
        then get "completed" y = VBool (negb flag) ∧ get "id" y = get "id" x
        else y = x)
      (Zustand.items (Zustand.state st)) (Zustand.items (Zustand.state once.2))
  ∧ twice.1 = Some (Zustand.success VUndefined)
  ∧ Forall2 (λ x z,
        if is_string id (get "id" x)
        then get "completed" z = VBool flag ∧ get "id" z = get "id" x
        else z = x)
      (Zustand.items (Zustand.state st)) (Zustand.items (Zustand.state twice.2)).
Proof.
  intros Hkeys Hnn Hfind Htruthy flag once twice.
  destruct (guest_toggle api id b st task Hkeys Hnn Hfind Htruthy)
    as (Hr1 & Hkeys1 & Hnn1 & Hrel1 & task' & Hfind1 & Htruthy1 & Hflag1).
  fold once in Hr1, Hkeys1, Hnn1, Hrel1, Hfind1.
  destruct (guest_toggle api id b once.2 task' Hkeys1 Hnn1 Hfind1 Htruthy1)
    as (Hr2 & _ & _ & Hrel2 & _).
  fold twice in Hr2, Hrel2. rewrite Hflag1 in Hrel2. cbn [truthy] in Hrel2.
  rewrite negb_involutive in Hrel2. fold flag in Hrel1, Hrel2.
  split_and!; try done. by eapply flag_twice.
Qed.

(** X17 at work: the guest's task is completed by one toggle and open again
    after the second. *)
Lemma guest_toggle_flips_completed_witness :
  let st := Client.tasksStore Sample.guest_world in
  let once := TasksStore.toggleTask Sample.offline "1730592000000-k3j9x2abc"
                false Sample.guest_browser st in
  let twice := TasksStore.toggleTask Sample.offline "1730592000000-k3j9x2abc"
                 false Sample.guest_browser once.2 in
  ∃ y z, Zustand.items (Zustand.state once.2) = [y]
         ∧ get "completed" y = VBool true
         ∧ Zustand.items (Zustand.state twice.2) = [z]
         ∧ get "completed" z = VBool false.
Proof.
  intros st once twice.
  edestruct (guest_toggle_flips_completed Sample.offline
               "1730592000000-k3j9x2abc" Sample.guest_browser st)
    as (_ & Hrel1 & _ & Hrel2).
  - apply (bool_decide_unpack _). by vm_compute.
  - repeat constructor; discriminate.
  - reflexivity.
  - reflexivity.
  - fold once in Hrel1, Hrel2. fold twice in Hrel2.
    remember (Zustand.items (Zustand.state st)) as l eqn:Hl.
    vm_compute in Hl. subst l.
    apply Forall2_cons_inv_l in Hrel1 as (y & l1 & [Hy _] & ->%Forall2_nil_inv_l & Hl1).
    apply Forall2_cons_inv_l in Hrel2 as (z & l2 & [Hz _] & ->%Forall2_nil_inv_l & Hl2).
    exists y, z. done.
Defined.

Section guest_add_delete.
Import Zustand.

Lemma filter_out_fresh id x l :
  x ≠ VNull → x ≠ VUndefined → is_string id (get "id" x) = true →
  Forall (λ y, y ≠ VNull ∧ y ≠ VUndefined) l →
  Forall (λ y, is_string id (get "id" y) = false) l →
  filter_out id (x :: l) = Some l.
Proof.
  intros Hn Hu Hx Hl Hfresh.
  pose proof (filter_out_outcome id (x :: l)) as Ho.
  destruct (filter_out id (x :: l)) as [l'|].
  - destruct Ho as [_ ->]. rewrite filter_cons, decide_False by by rewrite Hx.
    f_equal. clear Hl. induction Hfresh as [|y l Hy _ IH]; [done|].
    by rewrite filter_cons, decide_True, IH.
  - destruct Ho as (y & [->|Hy]%elem_of_cons & Hnull).
    + by destruct Hnull.
    + rewrite Forall_forall in Hl. destruct (Hl y Hy), Hnull; done.
Qed.

Lemma id_of_new_record data gid :
  NoDup (own_fields data).*1 → "id" ∉ (own_fields data).*1 →
  assoc "id" (spread data [("id", VStr gid)]) = VStr gid.
Proof.
  intros Hd Hid. rewrite assoc_spread_id by done. by rewrite decide_False.
Qed.
Lemma filter_keeps_all id (l : list value) :
  Forall (λ y, is_string id (get "id" y) = false) l →
  filter (λ y, is_string id (get "id" y) = false) l = l.
Proof.
  induction 1 as [|y l Hy _ IH]; [done|]. by rewrite filter_cons, decide_True, IH.
Qed.

Lemma guest_add_then_delete api data (b : browser) st :
  NoDup (own_fields data).*1 → "id" ∉ (own_fields data).*1 →
  Forall (λ x, x ≠ VNull ∧ x ≠ VUndefined) (items (state st)) →
  Forall (λ x, is_string (generateId b) (get "id" x) = false) (items (state st)) →
  items (state (NotesStore.deleteNote api (generateId b) false
                  (NotesStore.addNote api data false b st).2).2)
  = items (state st)
  ∧ items (state (TasksStore.deleteTask api (generateId b) false
                    (TasksStore.addTask api data false b st).2).2)
    = items (state st)
  ∧ items (state (IdeasStore.deleteIdea api (generateId b) false
                    (IdeasStore.addIdea api data false b st).2).2)
    = items (state st).
Proof.
  intros Hd Hid Hnn Hfresh. split_and!.
  - unfold NotesStore.deleteNote, NotesStore.addNote. cbn [negb].
    cbn [snd state set merge items default set_items id].
    rewrite filter_out_fresh; [done|done|done| |done|done].
    cbn [get]. rewrite !assoc_set_ne by done.
    rewrite id_of_new_record by done; apply String.eqb_refl.
  - unfold TasksStore.deleteTask, TasksStore.addTask. cbn [negb].
    cbn [snd state set merge items default set_items id].
    rewrite filter_out_fresh; [done|done|done| |done|done].
    cbn [get]. rewrite !assoc_set_ne by done.
    rewrite id_of_new_record by done; apply String.eqb_refl.
  - unfold IdeasStore.deleteIdea, IdeasStore.addIdea. cbn [negb].
    destruct data; cbn [prop];
      cbn [snd state set merge items default set_items id];
      try (rewrite filter_out_fresh; [done|done|done| |done|done];
           cbn [get]; rewrite !assoc_set_ne by done;
           rewrite id_of_new_record by done; apply String.eqb_refl).
    all: pose proof (filter_out_outcome (generateId b) (items (state st))) as Ho.
    all: destruct (filter_out _ _) as [l|]; [|done].
    all: destruct Ho as [_ ->]; cbn.
    all: by apply filter_keeps_all.
Qed.
End guest_add_delete.

(** X18.  A guest Delete undoes a guest Add.  Take a store whose records
    are not null or undefined and do not carry the identifier that the Add
    generates, and fields that name each key once and no id.  After the Add
    and a Delete of the generated identifier the list is the one before the
    Add, on the notes, tasks and ideas stores alike. *)
Theorem guest_delete_undoes_guest_add
    (api : Http.method → string → value → Http.axios) (data : value)
    (b : Zustand.browser) (st : Zustand.store) :
  NoDup (own_fields data).*1 → "id" ∉ (own_fields data).*1 →
  Forall (λ x, x ≠ VNull ∧ x ≠ VUndefined) (Zustand.items (Zustand.state st)) →
  Forall (λ x, is_string (Zustand.generateId b) (get "id" x) = false)
    (Zustand.items (Zustand.state st)) →
  Zustand.items
    (Zustand.state
       (NotesStore.deleteNote api (Zustand.generateId b) false
          (NotesStore.addNote api data false b st).2).2)
  = Zustand.items (Zustand.state st)
  ∧ Zustand.items
      (Zustand.state
         (TasksStore.deleteTask api (Zustand.generateId b) false
            (TasksStore.addTask api data false b st).2).2)
    = Zustand.items (Zustand.state st)
  ∧ Zustand.items
      (Zustand.state
         (IdeasStore.deleteIdea api (Zustand.generateId b) false
            (IdeasStore.addIdea api data false b st).2).2)
    = Zustand.items (Zustand.state st).
Proof. apply guest_add_then_delete. Qed.

(** X18 at work: a note added to the guest's notes and deleted again. *)
Lemma guest_delete_undoes_guest_add_witness :
  let st := Client.notesStore Sample.guest_world in
  let b := {| Zustand.generateId := "1730592000001-zzzzzzzzz";
              Zustand.clock := λ _, "2024-11-03T00:00:01.000Z" |} in
  Zustand.items
    (Zustand.state
       (NotesStore.deleteNote Sample.offline (Zustand.generateId b) false
          (NotesStore.addNote Sample.offline
             (VObj [("title", VStr "C"); ("content", VStr "D")]) false b st).2).2)
  = Zustand.items (Zustand.state st).
Proof.
  intros st b.
  apply (proj1 (guest_delete_undoes_guest_add Sample.offline
                  (VObj [("title", VStr "C"); ("content", VStr "D")]) b st
                  ltac:(apply (bool_decide_unpack _); by vm_compute)
                  ltac:(apply (bool_decide_unpack _); by vm_compute)
                  ltac:(repeat constructor; discriminate)
                  ltac:(repeat constructor))).
Defined.

(** ** Registration with a sync that succeeds *)
Section registration_succeeds.
Import Zustand Http Client.
Context `{Platform}.




End registration_succeeds.



(** ** The auth store: login and logout *)
Section session.
Import Zustand Http Client.
Context `{Platform}.

Lemma login_Fail body now (users users' : gmap string AuthController.User) s e :
  AuthController.login body now users = (Fail s e, users') →
  (s = 400%nat ∧ e = "Email and password are required")
  ∨ (s = 401%nat ∧ e = "Invalid email or password")
  ∨ (s = 500%nat ∧ e = "Failed to login").
Proof.
  unfold AuthController.login, try_catch.
  destruct (negb _ || negb _); [intros [= <- <- _]; auto|].
  destruct (Prisma.String_ _) as [em|]; cbn [mbind option_bind];
    [|intros [= <- <- _]; auto].
  destruct (users !! em); [|intros [= <- <- _]; auto].
  destruct (typeof_string _); cbn [mbind option_bind];
    [|intros [= <- <- _]; auto].
  destruct (negb _); [intros [= <- <- _]; auto|done].
Qed.

Lemma same_world (w : world) :
  {| server := server w; znote_token := znote_token w; authStore := authStore w;
     notesStore := notesStore w; tasksStore := tasksStore w;
     ideasStore := ideasStore w |} = w.
Proof. by destruct w. Qed.

Lemma same_server (s : Server.state) :
  {| Server.users := Server.users s; Server.notes := Server.notes s;
     Server.tasks := Server.tasks s; Server.ideas := Server.ideas s |} = s.
Proof. by destruct s. Qed.

(** What the request of a login gives. *)
Lemma post_login body salt now w :
  post "/auth/login" body (Some (salt, now)) w
  = match (AuthController.login (jsonify body) now (Server.users (server w))).1 with
    | Reply _ session =>
        (Resolved {| status := 200; data := Server.session_json session |}, w)
    | Fail s e =>
        (Rejected (Some {| status := s; data := VObj [("error", VStr e)] |}),
         {| server := server w;
            znote_token := if (s =? 401)%nat then None else znote_token w;
            authStore := authStore w; notesStore := notesStore w;
            tasksStore := tasksStore w; ideasStore := ideasStore w |})
    end.
Proof.
  unfold post.
  match goal with |- context [Server.post _ ?a ?b _ _ _] =>
    change (Server.post "/auth/login" a b salt now (server w))
      with (let '(r, t) := AuthController.login b now (Server.users (server w)) in
            (json Server.session_json r,
             {| Server.users := t; Server.notes := Server.notes (server w);
                Server.tasks := Server.tasks (server w);
                Server.ideas := Server.ideas (server w) |}))
  end.
  pose proof (login_keeps_users (jsonify body) now (Server.users (server w))) as Hk.
  destruct (AuthController.login _ _ _) as [[s session|s e] t] eqn:Hl;
    cbn in Hk; subst t; cbn [fst]; rewrite same_server.
  - apply login_inv in Hl as (-> & _). cbn. by rewrite same_world.
  - apply login_Fail in Hl as [[-> ->]|[[-> ->]|[-> ->]]]; done.
Qed.

(** What a login of the auth store comes to when its request is answered. *)
Lemma login_answered email password salt now w :
  login email password (Some (salt, now)) w
  = match (AuthController.login
             (jsonify (VObj [("email", email); ("password", password)])) now
             (Server.users (server w))).1 with
    | Reply _ session =>
        (success (get "user" (Server.session_json session)),
         {| server := server w;
            znote_token := Some (AuthController.session_token session);
            authStore :=
              {| user := get "user" (Server.session_json session);
                 token := VStr (AuthController.session_token session);
                 isAuthenticated := true; isGuest := false |};
            notesStore := notesStore w; tasksStore := tasksStore w;
            ideasStore := ideasStore w |})
    | Fail s e =>
        (failure (VStr e),
         {| server := server w;
            znote_token := if (s =? 401)%nat then None else znote_token w;
            authStore := authStore w; notesStore := notesStore w;
            tasksStore := tasksStore w; ideasStore := ideasStore w |})
    end.
Proof.
  unfold login.
  pose proof (post_login (VObj [("email", email); ("password", password)])
                salt now w) as Hp.
  destruct (AuthController.login _ now _) as [[s session|s e] t] eqn:Hl;
    cbn [fst] in Hp |- *.
  - erewrite bind_inl; [|unfold await; by rewrite Hp].
    erewrite bind_inl; [|by eapply access_object].
    erewrite bind_inl; [|by eapply access_object].
    erewrite bind_inl; [|reflexivity].
    done.
  - erewrite bind_inr; [|unfold await; by rewrite Hp].
    apply login_Fail in Hl as [[-> ->]|[[-> ->]|[-> ->]]]; done.
Qed.
End session.

(** X20.  What a login of the auth store does.  It never changes the
    server's state nor the three content stores (the guest's data is neither
    synced nor cleared).  When no response arrives it returns the failure
    'Login failed' and leaves the auth store and the stored token as they
    were.  When the server's Login answers with a session it returns the
    user of the session, sets the auth store to that user and token with
    isAuthenticated true, and keeps the token for later requests.  When the
    server's Login answers with an error it returns the server's message
    and leaves the auth store as it was; the stored token is removed when
    the status is 401 and kept otherwise (on a 401 the response interceptor
    also sends the browser to /login when it is on another path, which is
    outside this model). *)
Theorem client_login_outcome `{Platform} (email password : value)
    (reach : option (string * Z)) (w : Client.world) :
  let body := VObj [("email", email); ("password", password)] in
  let out := Client.login email password reach w in
  Client.server out.2 = Client.server w
  ∧ Client.notesStore out.2 = Client.notesStore w
  ∧ Client.tasksStore out.2 = Client.tasksStore w
  ∧ Client.ideasStore out.2 = Client.ideasStore w
  ∧ match reach with
    | None =>
        out.1 = Zustand.failure (VStr "Login failed")
        ∧ Client.authStore out.2 = Client.authStore w
        ∧ Client.znote_token out.2 = Client.znote_token w
    | Some (salt, now) =>
        match (AuthController.login (jsonify body) now
                 (Server.users (Client.server w))).1 with
        | Reply _ session =>
            let user := get "user" (Server.session_json session) in
            out.1 = Zustand.success user
            ∧ Client.authStore out.2
              = {| Client.user := user;
                   Client.token := VStr (AuthController.session_token session);
                   Client.isAuthenticated := true; Client.isGuest := false |}
            ∧ Client.znote_token out.2
              = Some (AuthController.session_token session)
        | Fail s e =>
            out.1 = Zustand.failure (VStr e)
            ∧ Client.authStore out.2 = Client.authStore w
            ∧ Client.znote_token out.2
              = (if (s =? 401)%nat then None else Client.znote_token w)
        end
    end.
Proof.
  intros body out. subst out body. destruct reach as [[salt now]|]; [|done].
  rewrite login_answered.
  by destruct (AuthController.login _ now _) as [[s session|s e] t].
Qed.

(** X21.  A logout ends the session: the auth store is back to the guest
    state and the stored token is gone, while the content stores and the
    server keep what they have; and a request that is then sent to one of
    the protected POST routes carries no Authorization header, is answered
    401 'No authorization header provided' and changes nothing. *)
Theorem logout_ends_the_session `{Platform} (w : Client.world) (url : string)
    (body : value) (salt : string) (now : Z) :
  url ∈ ["/notes"; "/notes/sync"; "/tasks"; "/tasks/sync"; "/ideas"; "/ideas/sync"] →
  let w1 := Client.logout w in
  Client.authStore w1
  = {| Client.user := VNull; Client.token := VNull;
       Client.isAuthenticated := false; Client.isGuest := true |}
  ∧ Client.znote_token w1 = None
  ∧ Client.server w1 = Client.server w
  ∧ Client.notesStore w1 = Client.notesStore w
  ∧ Client.tasksStore w1 = Client.tasksStore w
  ∧ Client.ideasStore w1 = Client.ideasStore w
  ∧ Client.post url body (Some (salt, now)) w1
    = (Http.Rejected
         (Some {| Http.status := 401;
                  Http.data :=
                    VObj [("error", VStr "No authorization header provided")] |}),
       w1).
Proof.
  intros Hurl w1. split_and!; try done.
  repeat (apply elem_of_cons in Hurl as [->|Hurl]);
    [..|by apply elem_of_nil in Hurl];
    unfold Client.post; cbn; by rewrite same_server.
Qed.

(** X21 at work: after the guest of the sample registered and logged out,
    a note is refused. *)
Lemma logout_ends_the_session_witness :
  let w := (Client.handleSubmit (H := Sample.platform)
              (VStr "bob@example.com") (VStr "secret") (VStr "")
              Sample.online Sample.guest_world).2 in
  Client.post (H := Sample.platform) "/notes"
    (VObj [("title", VStr "A"); ("content", VStr "B")]) (Some ("s1", 200))
    (Client.logout w)
  = (Http.Rejected
       (Some {| Http.status := 401;
                Http.data :=
                  VObj [("error", VStr "No authorization header provided")] |}),
     Client.logout w).
Proof.
  intros w.
  apply (logout_ends_the_session (H := Sample.platform) w "/notes"
           (VObj [("title", VStr "A"); ("content", VStr "B")]) "s1" 200).
  by left.
Defined.

(** ** The theme store *)
Section theme.
Import ThemeStore.

Lemma is_string_iff s v : is_string s v = true ↔ v = VStr s.
Proof.
  destruct v; cbn; try (split; [done|congruence]).
  rewrite String.eqb_eq. split; congruence.
Qed.

Lemma apply_follows t p : dark (apply t (set t p)) = true ↔ theme (apply t (set t p)) = VStr "dark".
Proof. cbn. apply is_string_iff. Qed.
End theme.

(** X22.  The class of the document follows the theme.  After toggleTheme,
    setTheme and initTheme alike, the document element has the class dark
    exactly when the theme of the store is the string 'dark', whatever the
    page was like before.  toggleTheme goes from 'light' to 'dark' and from
    anything else to 'light', so its result is always one of the two and
    two toggles bring a light or dark theme back; toggleTheme and setTheme
    persist the new theme, initTheme writes nothing. *)
Theorem theme_class_follows_theme (p : ThemeStore.page) (t : value) :
  let follows (q : ThemeStore.page) :=
    ThemeStore.dark q = true ↔ ThemeStore.theme q = VStr "dark" in
  follows (ThemeStore.toggleTheme p)
  ∧ follows (ThemeStore.setTheme t p)
  ∧ follows (ThemeStore.initTheme p)
  ∧ ThemeStore.theme (ThemeStore.toggleTheme p)
    = (if is_string "light" (ThemeStore.theme p) then VStr "dark" else VStr "light")
  ∧ ThemeStore.theme (ThemeStore.setTheme t p) = t
  ∧ ThemeStore.theme (ThemeStore.initTheme p) = ThemeStore.theme p
  ∧ (ThemeStore.theme p = VStr "light" ∨ ThemeStore.theme p = VStr "dark" →
     ThemeStore.theme (ThemeStore.toggleTheme (ThemeStore.toggleTheme p))
     = ThemeStore.theme p)
  ∧ ThemeStore.storage (ThemeStore.toggleTheme p)
    = Some (VObj [("theme", ThemeStore.theme (ThemeStore.toggleTheme p))])
  ∧ ThemeStore.storage (ThemeStore.setTheme t p)
    = Some (jsonify (VObj [("theme", t)]))
  ∧ ThemeStore.storage (ThemeStore.initTheme p) = ThemeStore.storage p.
Proof.
  cbn zeta. split_and!; try done.
  - apply apply_follows.
  - apply apply_follows.
  - cbn. apply is_string_iff.
  - intros [Ht|Ht]; cbn; by rewrite Ht.
  - cbn. by destruct (is_string "light" (ThemeStore.theme p)).
Qed.

(** ** Truncated previews *)
Section previews.
Import Utils.

Lemma length_append (a b : string) :
  String.length (a +:+ b) = (String.length a + String.length b)%nat.
Proof. induction a as [|c a IH]; [done|]. rewrite app_String. cbn. by rewrite IH. Qed.

Lemma length_substring n (s : string) :
  String.length (String.substring 0 n s) = (n `min` String.length s)%nat.
Proof.
  revert n. induction s as [|c s IH]; intros [|n]; cbn; try done.
  by rewrite IH.
Qed.

Lemma substring_append (a b : string) :
  String.substring 0 (String.length a) (a +:+ b) = a.
Proof.
  induction a as [|c a IH]; cbn.
  - by destruct b.
  - rewrite app_String. cbn. by rewrite IH.
Qed.

Lemma substring_prefix n (s : string) :
  ∃ rest, s = String.substring 0 n s +:+ rest.
Proof.
  revert n. induction s as [|c s IH]; intros [|n]; cbn.
  - by exists "".
  - by exists "".
  - by eexists.
  - destruct (IH n) as [rest Hr]. exists rest. rewrite app_String. by rewrite <- Hr.
Qed.

Lemma truncate_short text length :
  text = "" ∨ Z.of_nat (String.length text) ≤ length → truncate text length = text.
Proof.
  intros [->|Hl]; [done|]. unfold truncate.
  rewrite (proj2 (Z.leb_le _ _) Hl). by rewrite orb_true_r.
Qed.

Lemma truncate_long text length :
  text ≠ "" →
  length < Z.of_nat (String.length text) →
  truncate text length = substring_to length text +:+ "..."
  ∧ String.length (substring_to length text) = Z.to_nat length.
Proof.
  intros Ht Hl. unfold truncate, substring_to.
  rewrite (proj2 (Z.leb_gt _ _) Hl).
  destruct text; [done|]. cbn [String.eqb orb]. split; [done|].
  rewrite length_substring. lia.
Qed.
End previews.

(** X23.  The preview of a text.  A text that is empty or has at most
    length characters is returned as it is.  Any other text gives its first
    length characters (none for a negative length) followed by three dots,
    so a preview has at most max(length, 0) + 3 characters, which is more
    than the text itself has when the text exceeds the length by one or two
    characters.  Truncating a preview again at the same length changes
    nothing. *)
Theorem truncate_preview (text : string) (length : Z) :
  let out := Utils.truncate text length in
  (text = "" ∨ Z.of_nat (String.length text) ≤ length → out = text)
  ∧ (text ≠ "" → length < Z.of_nat (String.length text) →
     (∃ rest, text = Utils.substring_to length text +:+ rest)
     ∧ out = Utils.substring_to length text +:+ "..."
     ∧ String.length (Utils.substring_to length text) = Z.to_nat length
     ∧ String.length out = (Z.to_nat length + 3)%nat)
  ∧ Utils.truncate out length = out.
Proof.
  intros out. subst out. split_and!.
  - apply truncate_short.
  - intros Ht Hl. destruct (truncate_long text length Ht Hl) as [-> Hlen].
    split_and!; try done.
    + apply substring_prefix.
    + rewrite length_append, Hlen. done.
  - destruct (decide (text = "" ∨ Z.of_nat (String.length text) ≤ length))
      as [Hs|Hs].
    + rewrite (truncate_short text length Hs). by apply truncate_short.
    + assert (text ≠ "") as Ht by tauto.
      assert (length < Z.of_nat (String.length text)) as Hl by (apply Z.nle_gt; tauto).
      destruct (truncate_long text length Ht Hl) as [-> Hlen].
      destruct (truncate_long (Utils.substring_to length text +:+ "...") length)
        as [-> _].
      { intros He. apply (f_equal String.length) in He.
        rewrite length_append in He. cbn in He. lia. }
      { rewrite length_append, Hlen. cbn. lia. }
      unfold Utils.substring_to at 1. rewrite <- Hlen at 1.
      by rewrite substring_append.
Qed.

(** ** The tags field of the idea form *)
Section tags.
Import IdeasPage.

Lemma concat_cons sep x y l :
  String.concat sep (x :: y :: l) = x +:+ sep +:+ String.concat sep (y :: l).
Proof. done. Qed.

Lemma includes_char_app sep a b :
  Text.includes (String sep "") a = false →
  Text.includes (String sep "") b = false →
  Text.includes (String sep "") (a +:+ b) = false.
Proof.
  intros Ha Hb. induction a as [|c a IH]; [done|].
  rewrite app_String. apply includes_char_cons.
  apply includes_char_cons in Ha as [? ?]. auto.
Qed.

Lemma trim_space tag : trim (" " +:+ tag) = trim tag.
Proof. done. Qed.

Lemma fields_of_tags (p : string) tags :
  p = "" ∨ p = " " → tags ≠ [] → Forall (λ tag, tag ≠ "" ∧ trim tag = tag ∧ Text.includes "," tag = false) tags →
  filter (λ tag, tag ≠ "") (trim <$> Text.split_go "," "" (p +:+ tagsField tags))
  = tags.
Proof.
  intros Hp Hne Htags. revert p Hp. unfold tagsField.
  induction Htags as [|x l (Hx & Ht & Hc) Hl IH]; intros p Hp; [done|].
  assert (Text.includes "," (p +:+ x) = false) as Hpx.
  { apply includes_char_app; [by destruct Hp as [-> | ->]|done]. }
  assert (trim (p +:+ x) = x) as Hpt.
  { destruct Hp as [-> | ->]; [by rewrite app_empty|by rewrite trim_space]. }
  destruct l as [|y l].
  - cbn [String.concat]. rewrite split_go_word by done.
    cbn [String.rev String.rev_app fmap list_fmap]. rewrite app_empty, Hpt.
    rewrite filter_cons_True by done. done.
  - rewrite concat_cons.
    assert (p +:+ x +:+ ", " +:+ String.concat ", " (y :: l)
            = (p +:+ x) +:+ String "," (" " +:+ String.concat ", " (y :: l)))
      as ->.
    { by rewrite append_assoc. }
    rewrite split_go_sep by done.
    cbn [String.rev String.rev_app fmap list_fmap]. rewrite app_empty, Hpt.
    rewrite filter_cons_True by done. f_equal.
    apply IH; [discriminate|by right].
Qed.

Lemma tagsField_nonempty tags :
  tags ≠ [] → Forall (λ tag, tag ≠ "" ∧ trim tag = tag ∧ Text.includes "," tag = false) tags → tagsField tags ≠ "".
Proof.
  destruct tags as [|x l]; [done|]. intros _ [Hx _]%Forall_cons_1.
  destruct Hx as (Hx & _). unfold tagsField.
  destruct l; [done|]. rewrite concat_cons. by destruct x.
Qed.

Lemma tags_round_trip tags :
  Forall (λ tag, tag ≠ "" ∧ trim tag = tag ∧ Text.includes "," tag = false) tags → tagsArray (tagsField tags) = tags.
Proof.
  intros Htags. destruct tags as [|x l]; [done|]. unfold tagsArray.
  rewrite (proj2 (String.eqb_neq _ _)) by by apply tagsField_nonempty.
  rewrite <- (app_empty (tagsField (x :: l))). apply fields_of_tags; auto.
Qed.

Lemma tagsArray_nonempty s : Forall (λ tag, tag ≠ "") (tagsArray s).
Proof.
  unfold tagsArray. destruct (String.eqb s ""); [done|].
  apply Forall_forall. intros tag Hin. by apply list_elem_of_filter in Hin as [? _].
Qed.
End tags.

(** X24.  Editing an idea keeps its tags.  The form shows the tags of an
    idea joined by a comma and a space, and saving splits the field at
    commas, trims the pieces and drops the empty ones.  When no tag is
    empty, holds a comma or starts or ends with white space, the tags saved
    from the untouched field are the tags of the idea, in the same order;
    whatever the field holds, no saved tag is empty. *)
Theorem tags_survive_the_form (tags : list string) (field : string) :
  (Forall (λ tag, tag ≠ "" ∧ IdeasPage.trim tag = tag
                  ∧ Text.includes "," tag = false) tags →
   IdeasPage.tagsArray (IdeasPage.tagsField tags) = tags)
  ∧ Forall (λ tag, tag ≠ "") (IdeasPage.tagsArray field).
Proof. split; [apply tags_round_trip|apply tagsArray_nonempty]. Qed.

(** ** The pages' filters *)
Section pages.
Import IdeasController.
Context `{Platform}.

Lemma some_includes_strings q (tags : list string) :
  IdeasPage.some_includes q (VStr <$> tags)
  = Some (existsb (λ tag, Text.includes q (Text.toLowerCase tag)) tags).
Proof.
  induction tags as [|tag tags IH]; [done|].
  cbn [fmap list_fmap IdeasPage.some_includes IdeasPage.toLowerCase mbind
       option_bind existsb].
  change (list_fmap _ _ VStr tags) with (VStr <$> tags). rewrite IH.
  by destruct (Text.includes q (Text.toLowerCase tag)).
Qed.


Lemma shown_idea_json selectedCategory searchQuery (i : Idea) :
  IdeasPage.shown selectedCategory searchQuery (Server.idea_json i)
  = Some ((String.eqb selectedCategory "all"
           || String.eqb (idea_category i) selectedCategory)
          && (String.eqb searchQuery ""
              || Text.contains_insensitive searchQuery (idea_title i)
              || Text.contains_insensitive searchQuery (idea_description i)
              || existsb (Text.contains_insensitive searchQuery) (idea_tags i))).
Proof.
  unfold IdeasPage.shown.
  assert (prop "category" (Server.idea_json i) = Some (VStr (idea_category i)))
    as -> by done.
  assert (prop "title" (Server.idea_json i) = Some (VStr (idea_title i)))
    as -> by done.
  assert (get "description" (Server.idea_json i) = VStr (idea_description i))
    as -> by done.
  assert (get "tags" (Server.idea_json i) = VArr (VStr <$> idea_tags i))
    as -> by done.
  rewrite some_includes_strings.
  cbn [mbind option_bind IdeasPage.toLowerCase is_string].
  unfold Text.contains_insensitive.
  destruct (String.eqb selectedCategory "all"); cbn [negb orb andb];
    [|destruct (String.eqb (idea_category i) selectedCategory); cbn [negb orb andb]];
    try done;
    destruct (String.eqb searchQuery ""); cbn [negb orb andb]; try done;
    destruct (Text.includes _ (Text.toLowerCase (idea_title i))); cbn [orb]; try done;
    by destruct (Text.includes _ (Text.toLowerCase (idea_description i))).
Qed.



End pages.

(** X25.  The page's filter on the ideas of the server.  On an idea as the
    server sends it the filter of the ideas page never throws.  It shows the
    idea exactly when the selected category is 'all' or is the idea's category, and
    the search box is empty or its text is, ignoring case, a substring of
    the title, of the description or of one of the tags. *)
Theorem ideas_page_filter_on_server_ideas `{Platform} (selectedCategory searchQuery : string)
    (i : IdeasController.Idea) :
  IdeasPage.shown selectedCategory searchQuery (Server.idea_json i)
  = Some ((String.eqb selectedCategory "all"
           || String.eqb (IdeasController.idea_category i) selectedCategory)
          && (String.eqb searchQuery ""
              || Text.contains_insensitive searchQuery (IdeasController.idea_title i)
              || Text.contains_insensitive searchQuery
                   (IdeasController.idea_description i)
              || existsb (Text.contains_insensitive searchQuery)
                   (IdeasController.idea_tags i))).
Proof. apply shown_idea_json. Qed.



(** ** The filter of the tasks page *)
Section tasks_page.
Import TasksPage.

Lemma shown_by_status q task a c :
  shown "active" q task = Some a → shown "completed" q task = Some c →
  ∃ completed b, prop "completed" task = Some completed
    ∧ shown "all" q task = Some b
    ∧ a = negb (truthy completed) && b ∧ c = truthy completed && b.
Proof.
  intros Ha Hc. unfold shown in *.
  cbn [String.eqb Ascii.eqb Bool.eqb andb mbind option_bind] in *.
  destruct (prop "completed" task) as [completed|]; [|done].
  cbn [mbind option_bind] in *. exists completed.
  destruct (truthy completed); cbn [negb] in *.
  - injection Ha as <-. eexists. split; [done|]. split; [exact Hc|done].
  - injection Hc as <-. eexists. split; [done|]. split; [exact Ha|done].
Qed.

Lemma filter_by_status q tasks active completed :
  filteredTasks tasks "active" q = Some active →
  filteredTasks tasks "completed" q = Some completed →
  ∃ all, filteredTasks tasks "all" q = Some all
    ∧ all ≡ₚ active ++ completed
    ∧ Forall (λ task, ∃ v, prop "completed" task = Some v ∧ truthy v = false) active
    ∧ Forall (λ task, ∃ v, prop "completed" task = Some v ∧ truthy v = true) completed.
Proof.
  unfold filteredTasks. revert active completed.
  induction tasks as [|task tasks IH]; intros active completed.
  - intros [= <-] [= <-]. by exists [].
  - cbn [IdeasPage.filter_by].
    intros (a & Ha & (active' & Hactive & [= <-])%bind_Some)%bind_Some
           (c & Hc & (completed' & Hcompleted & [= <-])%bind_Some)%bind_Some.
    destruct (IH _ _ Hactive Hcompleted) as (all & -> & Hp & Hfa & Hfc).
    destruct (shown_by_status q task a c Ha Hc) as (v & b & Hv & -> & -> & ->).
    cbn [mbind option_bind]. eexists. split; [done|].
    destruct (truthy v) eqn:Htv, b; cbn [negb andb]; split_and!; try done.
    + by rewrite Hp, Permutation_middle.
    + constructor; [by exists v|done].
    + by rewrite Hp.
    + constructor; [by exists v|done].
Qed.

Lemma completedCount_is_completed tasks completed :
  filteredTasks tasks "completed" "" = Some completed →
  completedCount tasks = Some (length completed).
Proof.
  unfold completedCount, filteredTasks. intros Hc.
  assert (IdeasPage.filter_by
            (λ t, completed ← prop "completed" t; Some (truthy completed)) tasks
          = Some completed) as ->; [|done].
  revert completed Hc. induction tasks as [|task tasks IH]; intros completed.
  - done.
  - cbn [IdeasPage.filter_by].
    intros (c & Hc & (completed' & Hcompleted & [= <-])%bind_Some)%bind_Some.
    rewrite (IH _ Hcompleted). unfold shown in Hc.
    cbn [String.eqb Ascii.eqb Bool.eqb andb mbind option_bind negb] in Hc.
    destruct (prop "completed" task) as [v|]; [|done].
    cbn [mbind option_bind] in *. destruct (truthy v); cbn [negb] in Hc; by simplify_eq.
Qed.
End tasks_page.

(** X27.  The status filters of the tasks page split the list.  When the
    filters 'active' and 'completed' both go through for a search text,
    so does the filter 'all', and what it shows is what the two show
    together: each task it shows is under exactly one of them, under
    'completed' when its completed field is truthy and under 'active'
    otherwise.  With an empty search box the count of completed tasks in
    the header is the number of tasks under 'completed'. *)
Theorem task_filters_split_the_list (tasks active completed : list value)
    (searchQuery : string) :
  TasksPage.filteredTasks tasks "active" searchQuery = Some active →
  TasksPage.filteredTasks tasks "completed" searchQuery = Some completed →
  (∃ all, TasksPage.filteredTasks tasks "all" searchQuery = Some all
     ∧ all ≡ₚ active ++ completed)
  ∧ Forall (λ task, ∃ v, prop "completed" task = Some v ∧ truthy v = false) active
  ∧ Forall (λ task, ∃ v, prop "completed" task = Some v ∧ truthy v = true) completed
  ∧ (searchQuery = "" → TasksPage.completedCount tasks = Some (length completed)).
Proof.
  intros Ha Hc.
  destruct (filter_by_status _ _ _ _ Ha Hc) as (all & Hall & Hp & Hfa & Hfc).
  split_and!; try done.
  - by exists all.
  - intros ->. by apply completedCount_is_completed.
Qed.

(** X27 at work: a completed and an open task, with an empty search
    box. *)
Lemma task_filters_split_the_list_witness :
  let done_ := VObj [("title", VStr "a"); ("completed", VBool true)] in
  let open := VObj [("title", VStr "b"); ("completed", VBool false)] in
  (∃ all, TasksPage.filteredTasks [done_; open] "all" "" = Some all
     ∧ all ≡ₚ [open] ++ [done_])
  ∧ Forall (λ task, ∃ v, prop "completed" task = Some v ∧ truthy v = false) [open]
  ∧ Forall (λ task, ∃ v, prop "completed" task = Some v ∧ truthy v = true) [done_]
  ∧ ("" = "" → TasksPage.completedCount [done_; open] = Some (length [done_])).
Proof.
  intros done_ open.
  exact (task_filters_split_the_list [done_; open] [open] [done_] ""
           eq_refl eq_refl).
Defined.
